(** * Impact CLI v2: structural differ, risk classifier, history analyzer, loader

    A shallow embedding of [impact-cli-v2.js] (the second, more complete entry
    point of the repository) and the properties its specification states.

    Conventions of the embedding.
    - A JavaScript string is a [string]: the UTF-8 code units of its text.
      Every pattern of the program is ASCII, and case folding ([/i]) only
      ever identifies ASCII letters with one another, so matching is
      byte-exact.  White space is the white space of the language: the six
      ASCII characters and the characters beyond ASCII that [trim] and [\s]
      know, each in its UTF-8 form.
    - A JavaScript number is left abstract behind the interface [JSNumber]:
      the program only converts, compares and prints numbers, and no theorem
      below relies on how IEEE doubles round.  [IntNumber] instantiates the
      interface with the integers for the worked examples.
    - A plain JavaScript object is the list of its own properties in the
      order of their creation.  [Object.keys], [Object.entries] and
      [JSON.stringify] go through them as the language does, the array
      indices first and in ascending order.  What an object inherits is read
      from the platform, [Platform]: [key in obj] and [obj[key]] look at the
      own properties first and at the prototype chain next.  The prototype
      objects and the built-in functions are values of their own,
      [VBuiltin]; [Node] gives them for the worked examples.
    - A document is any value that [JSON.parse] or [parseYAML] returns.
      Its objects have the prototypes of the platform: under the key
      [__proto__] a YAML text sets no own property, and what a mapping
      would inherit from a mapping given there is left out.
    - A statement that throws is a [Throw] in the type [Result], or a
      [TypeError] in the type [Outcome]. *)

From Stdlib Require Import List String Ascii ZArith Bool Lia Arith PeanoNat.
From Stdlib Require Import DecimalString Permutation Sorted.
Import ListNotations.
Open Scope string_scope.
Set Warnings "-register-all".

(* ================================================================= *)
(** ** Strings *)

Definition quote_char : ascii := ascii_of_nat 34.
Definition backslash_char : ascii := ascii_of_nat 92.

(** ASCII lower-casing of one code unit, the canonicalisation behind the
    [/i] flag and [toLowerCase] on the ASCII range. *)
Definition lower_ascii (c : ascii) : ascii :=
  let n := nat_of_ascii c in
  if andb (65 <=? n)%nat (n <=? 90)%nat then ascii_of_nat (n + 32) else c.

Fixpoint toLowerCase (s : string) : string :=
  match s with
  | EmptyString => EmptyString
  | String c rest => String (lower_ascii c) (toLowerCase rest)
  end.

(** [s.startsWith(w)] *)
Definition startsWith (s w : string) : bool := String.prefix w s.

(** [s.includes(w)] *)
Fixpoint includes (s w : string) : bool :=
  if String.prefix w s then true
  else match s with
       | EmptyString => false
       | String _ rest => includes rest w
       end.

Fixpoint string_rev_acc (s acc : string) : string :=
  match s with
  | EmptyString => acc
  | String c rest => string_rev_acc rest (String c acc)
  end.

Definition string_rev (s : string) : string := string_rev_acc s EmptyString.

(** [s.endsWith(w)] *)
Definition endsWith (s w : string) : bool :=
  String.prefix (string_rev w) (string_rev s).

(** The UTF-8 code units of a code point. *)
Definition utf8 (cp : N) : string :=
  let b (n : N) := ascii_of_N n in
  if (cp <? 128)%N then String (b cp) EmptyString
  else if (cp <? 2048)%N then
    String (b (192 + cp / 64)%N) (String (b (128 + cp mod 64)%N) EmptyString)
  else if (cp <? 65536)%N then
    String (b (224 + cp / 4096)%N)
      (String (b (128 + (cp / 64) mod 64)%N)
         (String (b (128 + cp mod 64)%N) EmptyString))
  else
    String (b (240 + cp / 262144)%N)
      (String (b (128 + (cp / 4096) mod 64)%N)
         (String (b (128 + (cp / 64) mod 64)%N)
            (String (b (128 + cp mod 64)%N) EmptyString))).

(** White space and line terminators on the ASCII range: TAB, LF, VT, FF,
    CR and SPACE. *)
Definition is_space (c : ascii) : bool :=
  let n := nat_of_ascii c in
  orb (andb (9 <=? n)%nat (n <=? 13)%nat) (n =? 32)%nat.

(** The white space of two code units: U+00A0. *)
Definition is_space2 (a b : ascii) : bool :=
  (nat_of_ascii a =? 194)%nat && (nat_of_ascii b =? 160)%nat.

(** The white space and the line terminators of three code units: U+1680,
    U+2000 to U+200A, U+2028, U+2029, U+202F, U+205F, U+3000 and U+FEFF. *)
Definition is_space3 (a b c : ascii) : bool :=
  let x := nat_of_ascii a in
  let y := nat_of_ascii b in
  let z := nat_of_ascii c in
  ((x =? 225) && (y =? 154) && (z =? 128))%nat
  || ((x =? 226) && (y =? 128)
      && (((128 <=? z) && (z <=? 138)) || (z =? 168) || (z =? 169)
          || (z =? 175)))%nat
  || ((x =? 226) && (y =? 129) && (z =? 159))%nat
  || ((x =? 227) && (y =? 128) && (z =? 128))%nat
  || ((x =? 239) && (y =? 187) && (z =? 191))%nat.

(** What is left of [s] once the white space at its head is gone; [two]
    and [three] tell the white space of two and of three code units. *)
Fixpoint strip_spaces (two : ascii -> ascii -> bool)
  (three : ascii -> ascii -> ascii -> bool) (s : string) : string :=
  match s with
  | EmptyString => EmptyString
  | String a rest =>
      if is_space a then strip_spaces two three rest
      else
        match rest with
        | EmptyString => s
        | String b rest2 =>
            if two a b then strip_spaces two three rest2
            else
              match rest2 with
              | EmptyString => s
              | String c rest3 =>
                  if three a b c then strip_spaces two three rest3 else s
              end
        end
  end.

(** [s.trimStart()] *)
Definition trimStart (s : string) : string :=
  strip_spaces is_space2 is_space3 s.

(** [s.trimEnd()]: the same on the reversed text, where the code units of a
    character come last first. *)
Definition trimEnd (s : string) : string :=
  string_rev
    (strip_spaces (fun a b => is_space2 b a) (fun a b c => is_space3 c b a)
       (string_rev s)).

(** [s.trim()] *)
Definition trim (s : string) : string := trimEnd (trimStart s).

(** [s.split(sep)] for a one-character separator: never the empty list. *)
Fixpoint split_on (sep : ascii) (s : string) : list string :=
  match s with
  | EmptyString => [EmptyString]
  | String c rest =>
      if Ascii.eqb c sep then EmptyString :: split_on sep rest
      else match split_on sep rest with
           | [] => [String c EmptyString]
           | seg :: segs => String c seg :: segs
           end
  end.

(** [change.path.split('.').pop()] *)
Definition last_segment (path : string) : string :=
  last (split_on "." path) EmptyString.

Definition nat_to_string (n : nat) : string :=
  NilEmpty.string_of_uint (Nat.to_uint n).

(** The code point that four UTF-8 code units encode. *)
Definition code_point4 (a b c d : ascii) : N :=
  ((N_of_ascii a mod 8) * 262144 + (N_of_ascii b mod 64) * 4096
   + (N_of_ascii c mod 64) * 64 + N_of_ascii d mod 64)%N.

(** The UTF-16 code units of a text, each as a text of its own: a character
    of one, two or three UTF-8 code units is one UTF-16 code unit, a
    character of four is a pair of surrogates. *)
Fixpoint code_units (s : string) : list string :=
  match s with
  | EmptyString => []
  | String a rest =>
      let n := nat_of_ascii a in
      if (n <? 192)%nat then String a EmptyString :: code_units rest
      else
        match rest with
        | EmptyString => [s]
        | String b rest2 =>
            if (n <? 224)%nat then
              String a (String b EmptyString) :: code_units rest2
            else
              match rest2 with
              | EmptyString => [s]
              | String c rest3 =>
                  if (n <? 240)%nat then
                    String a (String b (String c EmptyString))
                      :: code_units rest3
                  else
                    match rest3 with
                    | EmptyString => [s]
                    | String d rest4 =>
                        let cp := (code_point4 a b c d - 65536)%N in
                        utf8 (55296 + cp / 1024)%N
                          :: utf8 (56320 + cp mod 1024)%N :: code_units rest4
                    end
              end
        end
  end.

(** Whether [key] is an array index, a canonical numeral below 2^32 - 1,
    and which. *)
Definition array_index (key : string) : option N :=
  match key with
  | EmptyString => None
  | String c rest =>
      if Ascii.eqb c "0" then
        match rest with
        | EmptyString => Some 0%N
        | _ => None
        end
      else
        (fix digits (acc : N) (s : string) (budget : nat) : option N :=
           match s with
           | EmptyString => if (acc <? 4294967295)%N then Some acc else None
           | String d more =>
               let n := N_of_ascii d in
               match budget with
               | O => None
               | S budget' =>
                   if ((48 <=? n) && (n <=? 57))%N
                   then digits (acc * 10 + (n - 48))%N more budget'
                   else None
               end
           end) 0%N key 10
  end.
(* ================================================================= *)
(** ** Numbers of the platform *)

(** What the program asks of JavaScript numbers.  [NaN] is the value of
    [Number(undefined)]; [num_zero] and [num_one] those of [Number(false)]
    and [Number(true)]; [StringToNumber] is [Number] on a string and
    [NumberToString] is [String] on a number. *)
Class JSNumber : Type := {
  number : Type;
  NaN : number;
  num_zero : number;
  num_one : number;
  isNaN : number -> bool;
  isFinite : number -> bool;
  num_lt : number -> number -> bool;
  StringToNumber : string -> number;
  NumberToString : number -> string;
  isNaN_NaN : isNaN NaN = true
}.

(** The integer-valued numbers, enough for the worked examples: decimal
    integer literals convert exactly, every other text is [NaN]. *)
Module IntNumber.

Inductive t : Type :=
| INaN
| IInt (z : Z).

Definition digit_value (c : ascii) : option Z :=
  let n := nat_of_ascii c in
  if andb (48 <=? n)%nat (n <=? 57)%nat then Some (Z.of_nat (n - 48)) else None.

Fixpoint digits_value (acc : Z) (s : string) : option Z :=
  match s with
  | EmptyString => Some acc
  | String c rest =>
      match digit_value c with
      | Some d => digits_value (10 * acc + d)%Z rest
      | None => None
      end
  end.

Definition unsigned_value (s : string) : option Z :=
  match s with
  | EmptyString => None
  | _ => digits_value 0%Z s
  end.

Definition of_option (o : option Z) : t :=
  match o with
  | Some z => IInt z
  | None => INaN
  end.

Definition of_string (s : string) : t :=
  match trim s with
  | EmptyString => IInt 0
  | String c rest =>
      if Ascii.eqb c "-" then of_option (option_map Z.opp (unsigned_value rest))
      else if Ascii.eqb c "+" then of_option (unsigned_value rest)
      else of_option (unsigned_value (String c rest))
  end.

Definition to_string (n : t) : string :=
  match n with
  | INaN => "NaN"
  | IInt z => NilEmpty.string_of_int (Z.to_int z)
  end.

Definition is_nan (n : t) : bool :=
  match n with
  | INaN => true
  | IInt _ => false
  end.

Definition lt (a b : t) : bool :=
  match a, b with
  | IInt x, IInt y => (x <? y)%Z
  | _, _ => false
  end.

End IntNumber.

Definition IntNumber_JSNumber : JSNumber := {|
  number := IntNumber.t;
  NaN := IntNumber.INaN;
  num_zero := IntNumber.IInt 0;
  num_one := IntNumber.IInt 1;
  isNaN := IntNumber.is_nan;
  isFinite := fun n => negb (IntNumber.is_nan n);
  num_lt := IntNumber.lt;
  StringToNumber := IntNumber.of_string;
  NumberToString := IntNumber.to_string;
  isNaN_NaN := eq_refl
|}.

(* ================================================================= *)
(** ** Computations that may raise a [TypeError] *)

(** How a computation that may raise a [TypeError] ends. *)
Inductive Outcome (A : Type) : Type :=
| Returned (a : A)
| TypeError.

Arguments Returned {A} a.
Arguments TypeError {A}.

Definition and_then {A B : Type} (o : Outcome A) (k : A -> Outcome B)
  : Outcome B :=
  match o with
  | Returned a => k a
  | TypeError => TypeError
  end.

(** A loop that pushes what each turn yields; a turn that throws ends it. *)
Fixpoint for_each {A B : Type} (l : list A) (f : A -> Outcome (list B))
  : Outcome (list B) :=
  match l with
  | [] => Returned []
  | x :: rest =>
      and_then (f x) (fun ys =>
      and_then (for_each rest f) (fun zs => Returned (ys ++ zs)%list))
  end.

Definition is_some {A : Type} (o : option A) : bool :=
  match o with
  | Some _ => true
  | None => false
  end.

(* ================================================================= *)
(** ** Own properties in the order of the language *)

(** Insertion into a list sorted by ascending index, after the entries of
    the same index. *)
Fixpoint insert_by_index {A : Type} (i : N) (e : A) (l : list (N * A))
  : list (N * A) :=
  match l with
  | [] => [(i, e)]
  | (j, x) :: rest =>
      if (i <? j)%N then (i, e) :: l else (j, x) :: insert_by_index i e rest
  end.

(** The entries whose key is an array index, by ascending index. *)
Fixpoint index_entries {A : Type} (l : list (string * A))
  : list (N * (string * A)) :=
  match l with
  | [] => []
  | (k, x) :: rest =>
      match array_index k with
      | Some i => insert_by_index i (k, x) (index_entries rest)
      | None => index_entries rest
      end
  end.

(** The order in which the language goes through the own properties of an
    object: the array indices by ascending value, then the other keys in
    the order of their creation. *)
Definition ordered {A : Type} (l : list (string * A)) : list (string * A) :=
  (map snd (index_entries l)
   ++ filter (fun e => negb (is_some (array_index (fst e)))) l)%list.

(* ================================================================= *)
(** ** What the platform provides beside the numbers *)

(** The kinds of value that inherit from a prototype: a plain object, an
    array, a string, a number, a boolean. *)
Inductive Kind : Type :=
| object_kind | array_kind | string_kind | number_kind | boolean_kind.

(** The preference of a conversion to a primitive value: the one of
    [Number] and [+], the one of [String]. *)
Inductive Hint : Type := hint_number | hint_string.

Section Primitives.

Context {N : JSNumber}.

Inductive Primitive : Type :=
| PUndefined
| PNull
| PBool (b : bool)
| PNum (n : number)
| PStr (s : string).

(** What a property read can find in a prototype: a primitive value, or a
    prototype object or a built-in function. *)
Inductive Member (builtin : Type) : Type :=
| MPrimitive (p : Primitive)
| MBuiltin (b : builtin).

End Primitives.

Arguments MPrimitive {N builtin} p.
Arguments MBuiltin {N builtin} b.

(** The prototype objects and the built-in functions, [builtin], and what
    the program can see of them: [typeof], [Array.isArray], the conversion
    to a primitive value, [JSON.stringify], [key in b] and [b[key]]; what
    the values of each kind inherit, [inherited], the accessor [__proto__]
    and [constructor] included; the comparison SameValueZero of two
    numbers, the one behind [Array.prototype.includes], which also tells a
    zero; and the sum of two numbers.  No value inherits a property of one
    of the four names that the schema validation reads, and
    [JSON.stringify] has a result on every built-in that is no function. *)
Class Platform {N : JSNumber} : Type := {
  SameValueZero_number : number -> number -> bool;
  num_add : number -> number -> number;
  builtin : Type;
  typeof_builtin : builtin -> string;
  isArray_builtin : builtin -> bool;
  ToPrimitive_builtin : Hint -> builtin -> Primitive;
  JSON_stringify_builtin : builtin -> option string;
  in_builtin : string -> builtin -> bool;
  get_builtin : builtin -> string -> Member builtin;
  inherited : Kind -> string -> option (Member builtin);
  schema_names_own :
    forall (k : Kind) (name : string),
      In name ["required"; "properties"; "type"; "enum"] ->
      inherited k name = None;
  object_builtin_stringified :
    forall b : builtin,
      typeof_builtin b = "object" -> JSON_stringify_builtin b <> None
}.

(* ================================================================= *)
(** ** Values, changes and the structural differ *)

Section Differ.

Context {N : JSNumber} {P : Platform}.

(** A JavaScript value as the program meets it: what [JSON.parse] and
    [parseYAML] build, [undefined] for a property that is not there, and
    what a property read finds in a prototype. *)
Inductive Value : Type :=
| VUndefined
| VNull
| VBool (b : bool)
| VNum (n : number)
| VStr (s : string)
| VArr (items : list Value)
| VObj (props : list (string * Value))
| VBuiltin (b : builtin).

Definition Obj : Type := list (string * Value).

Definition value_of_primitive (p : Primitive) : Value :=
  match p with
  | PUndefined => VUndefined
  | PNull => VNull
  | PBool b => VBool b
  | PNum n => VNum n
  | PStr s => VStr s
  end.

Definition value_of_member (m : Member builtin) : Value :=
  match m with
  | MPrimitive p => value_of_primitive p
  | MBuiltin b => VBuiltin b
  end.

(** [typeof v] *)
Definition typeof (v : Value) : string :=
  match v with
  | VUndefined => "undefined"
  | VNull => "object"
  | VBool _ => "boolean"
  | VNum _ => "number"
  | VStr _ => "string"
  | VArr _ => "object"
  | VObj _ => "object"
  | VBuiltin b => typeof_builtin b
  end.

Definition is_null (v : Value) : bool :=
  match v with
  | VNull => true
  | _ => false
  end.

(** [Array.isArray(v)] *)
Definition Array_isArray (v : Value) : bool :=
  match v with
  | VArr _ => true
  | VBuiltin b => isArray_builtin b
  | _ => false
  end.

(** [String(v)], the conversion behind a template literal: an array joins
    its elements with commas, [null] and [undefined] elements printing as
    nothing; a plain object prints as [[object Object]]. *)
Fixpoint ToString (v : Value) : string :=
  match v with
  | VUndefined => "undefined"
  | VNull => "null"
  | VBool true => "true"
  | VBool false => "false"
  | VNum n => NumberToString n
  | VStr s => s
  | VArr items =>
      String.concat ","
        ((fix each (l : list Value) : list string :=
            match l with
            | [] => []
            | x :: rest =>
                match x with
                | VUndefined => EmptyString
                | VNull => EmptyString
                | _ => ToString x
                end :: each rest
            end) items)
  | VObj _ => "[object Object]"
  | VBuiltin b =>
      match ToPrimitive_builtin hint_string b with
      | PUndefined => "undefined"
      | PNull => "null"
      | PBool true => "true"
      | PBool false => "false"
      | PNum n => NumberToString n
      | PStr s => s
      end
  end.

(** [Number(v)] *)
Definition ToNumber (v : Value) : number :=
  match v with
  | VUndefined => NaN
  | VNull => num_zero
  | VBool true => num_one
  | VBool false => num_zero
  | VNum n => n
  | VStr s => StringToNumber s
  | VArr _ => StringToNumber (ToString v)
  | VObj _ => StringToNumber (ToString v)
  | VBuiltin b =>
      match ToPrimitive_builtin hint_number b with
      | PUndefined => NaN
      | PNull => num_zero
      | PBool true => num_one
      | PBool false => num_zero
      | PNum n => n
      | PStr s => StringToNumber s
      end
  end.

(** Whether a value counts as true in a condition. *)
Definition truthy (v : Value) : bool :=
  match v with
  | VUndefined => false
  | VNull => false
  | VBool b => b
  | VNum n => negb (isNaN n || SameValueZero_number n num_zero)
  | VStr s => negb (String.eqb s EmptyString)
  | VArr _ => true
  | VObj _ => true
  | VBuiltin _ => true
  end.

Definition hex_digit (n : nat) : ascii :=
  if (n <? 10)%nat then ascii_of_nat (48 + n) else ascii_of_nat (87 + n).

(** One code unit inside a JSON string literal. *)
Definition quote_unit (c : ascii) : string :=
  let n := nat_of_ascii c in
  if (n =? 34)%nat then String backslash_char (String quote_char EmptyString)
  else if (n =? 92)%nat then String backslash_char (String backslash_char EmptyString)
  else if (n =? 8)%nat then String backslash_char "b"
  else if (n =? 9)%nat then String backslash_char "t"
  else if (n =? 10)%nat then String backslash_char "n"
  else if (n =? 12)%nat then String backslash_char "f"
  else if (n =? 13)%nat then String backslash_char "r"
  else if (n <? 32)%nat then
    String backslash_char
      ("u00" ++ String (hex_digit (n / 16)) (String (hex_digit (n mod 16)) EmptyString))
  else String c EmptyString.

Fixpoint quote_units (s : string) : string :=
  match s with
  | EmptyString => EmptyString
  | String c rest => quote_unit c ++ quote_units rest
  end.

Definition QuoteJSONString (s : string) : string :=
  String quote_char (quote_units s ++ String quote_char EmptyString).

(** [JSON.stringify(v)]; [None] is the result [undefined].  Inside an array
    an element without a result prints as [null]; inside an object a
    property without a result is left out, and the others come in the order
    of the language. *)
Fixpoint JSON_stringify (v : Value) : option string :=
  match v with
  | VUndefined => None
  | VNull => Some "null"
  | VBool true => Some "true"
  | VBool false => Some "false"
  | VNum n => Some (if isFinite n then NumberToString n else "null")
  | VStr s => Some (QuoteJSONString s)
  | VArr items =>
      Some ("[" ++
        String.concat ","
          ((fix each (l : list Value) : list string :=
              match l with
              | [] => []
              | x :: rest =>
                  match JSON_stringify x with
                  | Some t => t
                  | None => "null"
                  end :: each rest
              end) items) ++ "]")
  | VObj props =>
      Some ("{" ++
        String.concat ","
          (map (fun e => QuoteJSONString (fst e) ++ ":" ++ snd e)
             (ordered
                ((fix each (l : list (string * Value))
                    : list (string * string) :=
                    match l with
                    | [] => []
                    | (k, x) :: rest =>
                        match JSON_stringify x with
                        | Some t => (k, t) :: each rest
                        | None => each rest
                        end
                    end) props))) ++ "}")
  | VBuiltin b => JSON_stringify_builtin b
  end.

(** The [!==] of two results of [JSON.stringify]. *)
Definition stringified_differ (a b : option string) : bool :=
  match a, b with
  | Some x, Some y => negb (String.eqb x y)
  | None, None => false
  | _, _ => true
  end.

(** The own property [key] of a plain object, if it has one. *)
Fixpoint lookup (key : string) (obj : Obj) : option Value :=
  match obj with
  | [] => None
  | (k, v) :: rest => if String.eqb k key then Some v else lookup key rest
  end.

(** The index that the key [key] names in a sequence of [len] elements. *)
Definition index_of (key : string) (len : nat) : option nat :=
  find (fun i => String.eqb (nat_to_string i) key) (seq 0 len).

(** The number [n] as [length] holds it. *)
Definition length_value (n : nat) : Value :=
  VNum (StringToNumber (nat_to_string n)).

(** The own property [key] of a value: a property of a plain object; an
    element or the length of an array; a code unit or the length of a
    string.  The own properties of a built-in are with the platform. *)
Definition own_property (v : Value) (key : string) : option Value :=
  match v with
  | VObj props => lookup key props
  | VArr items =>
      if String.eqb key "length" then Some (length_value (List.length items))
      else match index_of key (List.length items) with
           | Some i => nth_error items i
           | None => None
           end
  | VStr s =>
      if String.eqb key "length"
      then Some (length_value (List.length (code_units s)))
      else match index_of key (List.length (code_units s)) with
           | Some i => option_map VStr (nth_error (code_units s) i)
           | None => None
           end
  | _ => None
  end.

Definition kind_of (v : Value) : option Kind :=
  match v with
  | VObj _ => Some object_kind
  | VArr _ => Some array_kind
  | VStr _ => Some string_kind
  | VNum _ => Some number_kind
  | VBool _ => Some boolean_kind
  | _ => None
  end.

(** What [v] inherits under the name [key], if anything. *)
Definition inherited_by (v : Value) (key : string)
  : option (Member builtin) :=
  match kind_of v with
  | Some k => inherited k key
  | None => None
  end.

(** [v[key]], for a value other than [null] and [undefined]: the own
    property, else the inherited one, else [undefined]. *)
Definition get (v : Value) (key : string) : Value :=
  match v with
  | VBuiltin b => value_of_member (get_builtin b key)
  | _ =>
      match own_property v key with
      | Some x => x
      | None =>
          match inherited_by v key with
          | Some m => value_of_member m
          | None => VUndefined
          end
      end
  end.

(** [v?.[key]] *)
Definition optional_get (v : Value) (key : string) : Value :=
  match v with
  | VUndefined => VUndefined
  | VNull => VUndefined
  | _ => get v key
  end.

(** [key in v]: own or inherited; only an object can stand on the right. *)
Definition has_key (key : string) (v : Value) : Outcome bool :=
  match v with
  | VObj _ | VArr _ =>
      Returned (is_some (own_property v key) || is_some (inherited_by v key))
  | VBuiltin b => Returned (in_builtin key b)
  | _ => TypeError
  end.

(** [v || {}] *)
Definition or_empty (v : Value) : Value :=
  if truthy v then v else VObj [].

(** The keys ["0"], ..., of a sequence of [len] elements. *)
Definition indices (len : nat) : list string :=
  map nat_to_string (seq 0 len).

(** [Object.keys(v)], for a value other than [null] and [undefined]: the
    own enumerable properties.  A number, a boolean and a built-in have
    none. *)
Definition Object_keys (v : Value) : list string :=
  match v with
  | VObj props => map fst (ordered props)
  | VArr items => indices (List.length items)
  | VStr s => indices (List.length (code_units s))
  | _ => []
  end.

(** [obj[key] = v] on the list of the own properties: an existing property
    keeps its place, a new one goes last. *)
Fixpoint set_prop (key : string) (v : Value) (obj : Obj) : Obj :=
  match obj with
  | [] => [(key, v)]
  | (k, x) :: rest =>
      if String.eqb k key then (k, v) :: rest else (k, x) :: set_prop key v rest
  end.

Definition mem_string (x : string) (l : list string) : bool :=
  existsb (String.eqb x) l.

(** The iteration order of [new Set(keys)]: each key once, at its first
    occurrence. *)
Fixpoint set_of_keys (seen keys : list string) : list string :=
  match keys with
  | [] => []
  | k :: rest =>
      if mem_string k seen then set_of_keys seen rest
      else k :: set_of_keys (k :: seen) rest
  end.

(** [new Set([...Object.keys(objA || {}), ...Object.keys(objB || {})])] *)
Definition allKeys (objA objB : Value) : list string :=
  set_of_keys []
    (Object_keys (or_empty objA) ++ Object_keys (or_empty objB)).

Inductive ChangeType : Type := added | removed | modified.

(** A change record: [{type:'added', path, value}],
    [{type:'removed', path, value}] or
    [{type:'modified', path, oldValue, newValue}]. *)
Inductive Change : Type :=
| Added (path : string) (value : Value)
| Removed (path : string) (value : Value)
| Modified (path : string) (oldValue newValue : Value).

Definition change_type (c : Change) : ChangeType :=
  match c with
  | Added _ _ => added
  | Removed _ _ => removed
  | Modified _ _ _ => modified
  end.

Definition change_path (c : Change) : string :=
  match c with
  | Added p _ => p
  | Removed p _ => p
  | Modified p _ _ => p
  end.

(** [path ? `${path}.${key}` : key] *)
Definition currentPath (path key : string) : string :=
  match path with
  | EmptyString => key
  | _ => path ++ "." ++ key
  end.

(** Nesting depth of a value, the measure of the differ's recursion. *)
Fixpoint depth (v : Value) : nat :=
  match v with
  | VArr items => S (list_max (map depth items))
  | VObj props => S (list_max (map (fun '(_, x) => depth x) props))
  | _ => 0
  end.

(** The test that guards the recursion:
    [typeof valueA === 'object' && typeof valueB === 'object' &&
     valueA !== null && valueB !== null &&
     !Array.isArray(valueA) && !Array.isArray(valueB)]. *)
Definition both_plain_objects (valueA valueB : Value) : bool :=
  String.eqb (typeof valueA) "object" && String.eqb (typeof valueB) "object"
  && negb (is_null valueA) && negb (is_null valueB)
  && negb (Array_isArray valueA) && negb (Array_isArray valueB).

(** The body of [compareObjects], with the recursion bounded by [fuel]. *)
Fixpoint compareObjects_fuel (fuel : nat) (objA objB : Value) (path : string)
  : Outcome (list Change) :=
  match fuel with
  | O => Returned []
  | S fuel' =>
      for_each (allKeys objA objB)
        (fun key =>
           let cur := currentPath path key in
           let valueA := optional_get objA key in
           let valueB := optional_get objB key in
           and_then (has_key key (or_empty objA)) (fun inA =>
           if negb inA then Returned [Added cur valueB]
           else
             and_then (has_key key (or_empty objB)) (fun inB =>
             if negb inB then Returned [Removed cur valueA]
             else if both_plain_objects valueA valueB
             then compareObjects_fuel fuel' valueA valueB cur
             else if stringified_differ (JSON_stringify valueA)
                                        (JSON_stringify valueB)
             then Returned [Modified cur valueA valueB]
             else Returned [])))
  end.

(** [compareObjects(objA, objB, path)].  Each recursive call descends into
    an own property of [objA] or of [objB], so this much fuel is never used
    up ([compareObjects_unfold] below). *)
Definition compareObjects (objA objB : Value) (path : string)
  : Outcome (list Change) :=
  compareObjects_fuel (S (depth objA + depth objB)) objA objB path.

(** [diff(a, b)]: the call [compareObjects(dataA, dataB)] of [main]. *)
Definition diff (a b : Value) : Outcome (list Change) :=
  compareObjects a b EmptyString.

End Differ.

(* ================================================================= *)
(** ** Regular expressions of the classifier *)

(** The patterns of the program use literals, character classes, alternation,
    concatenation and [?] only, so each denotes a finite set of words. *)
Inductive regex : Type :=
| Lit (s : string)
| Cls (chars : string)
| Alt (r1 r2 : regex)
| Seq (r1 r2 : regex)
| Opt (r : regex).

Fixpoint units (s : string) : list string :=
  match s with
  | EmptyString => []
  | String c rest => String c EmptyString :: units rest
  end.

(** The words a pattern body matches. *)
Fixpoint words (r : regex) : list string :=
  match r with
  | Lit s => [s]
  | Cls chars => units chars
  | Alt r1 r2 => words r1 ++ words r2
  | Seq r1 r2 =>
      flat_map (fun w1 => map (fun w2 => w1 ++ w2) (words r2)) (words r1)
  | Opt r => EmptyString :: words r
  end.

(** A pattern literal [/^body$/i]: the body, and whether [^] and [$] anchor
    it.  Every pattern of the program carries the flag [i]. *)
Record RegExp : Type := mkRegExp {
  anchor_start : bool;
  body : regex;
  anchor_end : bool
}.

(** [p.test(s)] *)
Definition test (p : RegExp) (s : string) : bool :=
  let subject := toLowerCase s in
  existsb
    (fun w =>
       let w := toLowerCase w in
       match anchor_start p, anchor_end p with
       | true, true => String.eqb w subject
       | true, false => startsWith subject w
       | false, true => endsWith subject w
       | false, false => includes subject w
       end)
    (words (body p)).

(** [patterns.some(p => p.test(s))] *)
Definition some_test (patterns : list RegExp) (s : string) : bool :=
  existsb (fun p => test p s) patterns.

Definition re_anywhere (r : regex) : RegExp := mkRegExp false r false.
Definition re_prefix (r : regex) : RegExp := mkRegExp true r false.
Definition re_whole (r : regex) : RegExp := mkRegExp true r true.

Definition alts (l : list string) : regex :=
  match l with
  | [] => Lit EmptyString
  | w :: rest => fold_left (fun r x => Alt r (Lit x)) rest (Lit w)
  end.

(** [/^(api[_-]?key|secret|password|token|auth)/i],
    [/^(database|db)[_.-](host|url|connection)/i],
    [/^(enabled?|active|disabled?)$/i] *)
Definition CRITICAL_PATTERNS : list RegExp :=
  [ re_prefix (Alt (Seq (Lit "api") (Seq (Opt (Cls "_-")) (Lit "key")))
                   (alts ["secret"; "password"; "token"; "auth"]));
    re_prefix (Seq (alts ["database"; "db"])
                   (Seq (Cls "_.-") (alts ["host"; "url"; "connection"])));
    re_whole (Alt (Seq (Lit "enable") (Opt (Lit "d")))
                  (Alt (Lit "active") (Seq (Lit "disable") (Opt (Lit "d"))))) ].

(** [/timeout/i, /limit/i, /max[_-]?/i, /min[_-]?/i, /threshold/i, /retry/i,
     /^port$/i, /^host$/i, /^endpoint$/i, /^url$/i] *)
Definition HIGH_PATTERNS : list RegExp :=
  [ re_anywhere (Lit "timeout"); re_anywhere (Lit "limit");
    re_anywhere (Seq (Lit "max") (Opt (Cls "_-")));
    re_anywhere (Seq (Lit "min") (Opt (Cls "_-")));
    re_anywhere (Lit "threshold"); re_anywhere (Lit "retry");
    re_whole (Lit "port"); re_whole (Lit "host");
    re_whole (Lit "endpoint"); re_whole (Lit "url") ].

(** [/^name$/i, /^type$/i, /^version$/i, /^format$/i, /^encoding$/i,
     /^locale$/i, /^timezone$/i] *)
Definition MEDIUM_PATTERNS : list RegExp :=
  [ re_whole (Lit "name"); re_whole (Lit "type"); re_whole (Lit "version");
    re_whole (Lit "format"); re_whole (Lit "encoding");
    re_whole (Lit "locale"); re_whole (Lit "timezone") ].

(** [/timeout/i] *)
Definition TIMEOUT_PATTERN : RegExp := re_anywhere (Lit "timeout").

(** [/^(enabled?|active)$/i] *)
Definition ACTIVITY_PATTERN : RegExp :=
  re_whole (Alt (Seq (Lit "enable") (Opt (Lit "d"))) (Lit "active")).

(* ================================================================= *)
(** ** The risk classifier *)

Inductive Level : Type := low | medium | high | critical.

Definition Level_eqb (a b : Level) : bool :=
  match a, b with
  | low, low | medium, medium | high, high | critical, critical => true
  | _, _ => false
  end.

(** The rank of a level in the order Low < Medium < High < Critical. *)
Definition rank (l : Level) : nat :=
  match l with
  | low => 0
  | medium => 1
  | high => 2
  | critical => 3
  end.

Section Classifier.

Context {N : JSNumber} {P : Platform}.

(** An impact record:
    [{level, path, title, description, recommendation, changeType, category}]. *)
Record Impact : Type := mkImpact {
  level : Level;
  impact_path : string;
  title : string;
  description : string;
  recommendation : string;
  changeType : ChangeType;
  category : string
}.

(** The [let] variables of one turn of the loop of [analyzeImpactLocal]. *)
Record Locals : Type := mkLocals {
  l_level : Level;
  l_title : string;
  l_description : string;
  l_recommendation : string;
  l_category : string
}.

Definition set_level (x : Level) (v : Locals) : Locals :=
  mkLocals x (l_title v) (l_description v) (l_recommendation v) (l_category v).
Definition set_title (x : string) (v : Locals) : Locals :=
  mkLocals (l_level v) x (l_description v) (l_recommendation v) (l_category v).
Definition set_description (x : string) (v : Locals) : Locals :=
  mkLocals (l_level v) (l_title v) x (l_recommendation v) (l_category v).
Definition set_recommendation (x : string) (v : Locals) : Locals :=
  mkLocals (l_level v) (l_title v) (l_description v) x (l_category v).

(** The baseline tier: the first pattern list that the last key matches. *)
Definition baseline (lastKey : string) : Locals :=
  if some_test CRITICAL_PATTERNS lastKey then
    mkLocals critical EmptyString EmptyString EmptyString "security"
  else if some_test HIGH_PATTERNS lastKey then
    mkLocals high EmptyString EmptyString EmptyString "performance"
  else if some_test MEDIUM_PATTERNS lastKey then
    mkLocals medium EmptyString EmptyString EmptyString "configuration"
  else
    mkLocals low EmptyString EmptyString EmptyString "general".

(** The description of the timeout rule. *)
Definition timeout_description (oldVal newVal : number) : string :=
  "Таймаут уменьшен с " ++ NumberToString oldVal ++ " до "
    ++ NumberToString newVal ++ ".".

(** [if (/timeout/i.test(lastKey)) { ... }] *)
Definition timeout_rule (lastKey : string) (oldValue newValue : Value)
  (v : Locals) : Locals :=
  if test TIMEOUT_PATTERN lastKey then
    let oldVal := ToNumber oldValue in
    let newVal := ToNumber newValue in
    if negb (isNaN oldVal) && negb (isNaN newVal) && num_lt newVal oldVal then
      set_recommendation "Убедитесь, что новое значение достаточно."
        (set_description (timeout_description oldVal newVal)
           (set_level high v))
    else v
  else v.

(** [if (/^(enabled?|active)$/i.test(lastKey)) { ... }] *)
Definition activity_rule (lastKey : string) (oldValue newValue : Value)
  (v : Locals) : Locals :=
  if test ACTIVITY_PATTERN lastKey then
    set_recommendation "Критическое изменение. Проверьте влияние!"
      (set_description
         ("Изменён флаг активности: " ++ ToString oldValue ++ " → "
            ++ ToString newValue)
         (set_level critical v))
  else v.

(** [if (typeof change.oldValue !== typeof change.newValue) { ... }] *)
Definition type_rule (oldValue newValue : Value) (v : Locals) : Locals :=
  if negb (String.eqb (typeof oldValue) (typeof newValue)) then
    set_description
      ("Изменён тип данных с " ++ typeof oldValue ++ " на " ++ typeof newValue)
      (set_level high v)
  else v.

(** The refinement by kind of change: the [if / else if] chain on
    [change.type]. *)
Definition refine (lastKey : string) (change : Change) (v : Locals) : Locals :=
  match change with
  | Removed _ _ =>
      set_recommendation "Убедитесь, что это поле больше не используется."
        (set_description "Удаление поля может привести к ошибкам в коде."
           (set_title ("Удалено поле: " ++ lastKey)
              (if Level_eqb (l_level v) low then set_level medium v else v)))
  | Added _ _ =>
      set_description "Новое поле в конфигурации."
        (set_title ("Добавлено новое поле: " ++ lastKey) v)
  | Modified _ oldValue newValue =>
      type_rule oldValue newValue
        (activity_rule lastKey oldValue newValue
           (timeout_rule lastKey oldValue newValue
              (set_title ("Изменено значение: " ++ lastKey) v)))
  end.

(** One turn of the loop: the locals when the output filter is reached. *)
Definition locals_of (change : Change) : Locals :=
  let lastKey := last_segment (change_path change) in
  refine lastKey change (baseline lastKey).

Definition is_removed (t : ChangeType) : bool :=
  match t with
  | removed => true
  | _ => false
  end.

(** One turn of the loop: the record pushed, if the filter lets it through. *)
Definition analyze_change (change : Change) : option Impact :=
  let v := locals_of change in
  if negb (Level_eqb (l_level v) low) || is_removed (change_type change) then
    Some (mkImpact (l_level v) (change_path change) (l_title v)
            (l_description v) (l_recommendation v) (change_type change)
            (l_category v))
  else None.

(** [analyzeImpactLocal(changes)] *)
Fixpoint analyzeImpactLocal (changes : list Change) : list Impact :=
  match changes with
  | [] => []
  | change :: rest =>
      match analyze_change change with
      | Some impact => impact :: analyzeImpactLocal rest
      | None => analyzeImpactLocal rest
      end
  end.

End Classifier.

(* ================================================================= *)
(** ** The history analyzer *)

(** Array methods as state passing: each returns its result together with
    the receiver as the call leaves it.  [flatMap], [filter], [slice] and
    [map] build a new array; [sort] sorts the receiver in place and returns
    it. *)
Definition Array_flatMap {A B : Type} (f : A -> list B) (a : list A)
  : list B * list A := (flat_map f a, a).

Definition Array_filter {A : Type} (f : A -> bool) (a : list A)
  : list A * list A := (filter f a, a).

Definition Array_slice {A : Type} (from to : nat) (a : list A)
  : list A * list A := (firstn (to - from) (skipn from a), a).

Definition Array_map {A B : Type} (f : A -> B) (a : list A)
  : list B * list A := (map f a, a).

(** An insight: [{type, paths}]. *)
Record Insight : Type := mkInsight {
  insight_type : string;
  insight_paths : list string
}.

Section History.

Context {N : JSNumber} {P : Platform}.

(** The number that a decimal numeral of the source denotes. *)
Definition number_of_nat (n : nat) : number :=
  StringToNumber (nat_to_string n).

(** The conversion of a value to a primitive value that [+] asks for. *)
Definition ToPrimitive (v : Value) : Primitive :=
  match v with
  | VUndefined => PUndefined
  | VNull => PNull
  | VBool b => PBool b
  | VNum n => PNum n
  | VStr s => PStr s
  | VArr _ => PStr (ToString v)
  | VObj _ => PStr (ToString v)
  | VBuiltin b => ToPrimitive_builtin hint_number b
  end.

(** [a + b]: the concatenation when one side converts to a string, the sum
    of the two numbers otherwise. *)
Definition plus (a b : Value) : Value :=
  match ToPrimitive a, ToPrimitive b with
  | PStr s, q => VStr (s ++ ToString (value_of_primitive q))
  | p, PStr t => VStr (ToString (value_of_primitive p) ++ t)
  | p, q =>
      VNum (num_add (ToNumber (value_of_primitive p))
              (ToNumber (value_of_primitive q)))
  end.

(** [pathCounts[path] = (pathCounts[path] || 0) + 1], on the own properties
    of [pathCounts].  The read goes through the prototype chain.  The
    write makes an own property, except under the name [__proto__]: there
    the accessor that every object inherits takes the value, a number or a
    string, and drops it. *)
Definition bump (path : string) (pathCounts : Obj) : Obj :=
  let count := get (VObj pathCounts) path in
  let value :=
    plus (if truthy count then count else VNum num_zero) (VNum num_one) in
  if String.eqb path "__proto__" && negb (is_some (lookup path pathCounts))
  then pathCounts
  else set_prop path value pathCounts.

(** [count >= 3] *)
Definition at_least_3 (count : Value) : bool :=
  negb (isNaN (ToNumber count)) && negb (isNaN (number_of_nat 3))
  && negb (num_lt (ToNumber count) (number_of_nat 3)).

(** Insertion into a list sorted by [(a, b) => b[1] - a[1]]: the new entry
    goes before the first entry whose count is not greater than its own. *)
Fixpoint insert_by_count (x : string * Value) (l : list (string * Value))
  : list (string * Value) :=
  match l with
  | [] => [x]
  | y :: rest =>
      if num_lt (ToNumber (snd x)) (ToNumber (snd y))
      then y :: insert_by_count x rest
      else x :: l
  end.

(** The stable sort by descending count. *)
Fixpoint sort_by_count (l : list (string * Value)) : list (string * Value) :=
  match l with
  | [] => []
  | x :: rest => insert_by_count x (sort_by_count rest)
  end.

Definition Array_sort_by_count (a : list (string * Value))
  : list (string * Value) * list (string * Value) :=
  let sorted := sort_by_count a in (sorted, sorted).

(** [`${path} (${count}x)`] *)
Definition format_entry (e : string * Value) : string :=
  fst e ++ " (" ++ ToString (snd e) ++ "x)".

Record Summary : Type := mkSummary {
  total : nat;
  summary_added : nat;
  summary_removed : nat;
  summary_modified : nat
}.

(** A history entry.  [changes] is optional, as [h.changes || []] allows. *)
Record HistoryEntry : Type := mkHistoryEntry {
  name : string;
  timestamp : string;
  fileA : string;
  fileB : string;
  changes : option (list Change);
  impacts : list Impact;
  riskLevel : string;
  summary : Summary
}.

(** [h.changes || []] *)
Definition changes_of (h : HistoryEntry) : list Change :=
  match changes h with
  | Some c => c
  | None => []
  end.

(** The loop that fills [pathCounts]. *)
Definition count_paths (allChanges : list Change) : Obj :=
  fold_left (fun pathCounts change => bump (change_path change) pathCounts)
    allChanges [].

(** The value of [frequentlyChanged], and the history array as the
    computation leaves it.  [entries] is [Object.entries(pathCounts)]. *)
Definition frequentlyChanged_run (history : list HistoryEntry)
  : list (string * Value) * list HistoryEntry :=
  let '(allChanges, history) := Array_flatMap changes_of history in
  let pathCounts := count_paths allChanges in
  let entries := ordered pathCounts in
  let '(frequent, _) := Array_filter (fun e => at_least_3 (snd e)) entries in
  let '(sorted, _) := Array_sort_by_count frequent in
  (sorted, history).

(** [analyzeHistory(history)], with the history array as the call leaves
    it. *)
Definition analyzeHistory_run (history : list HistoryEntry)
  : list Insight * list HistoryEntry :=
  if (List.length history <? 3)%nat then ([], history)
  else
    let '(frequentlyChanged, history) := frequentlyChanged_run history in
    if (0 <? List.length frequentlyChanged)%nat then
      let '(top, _) := Array_slice 0 5 frequentlyChanged in
      let '(paths, _) := Array_map format_entry top in
      ([mkInsight "frequent_changes" paths], history)
    else ([], history).

(** [analyzeHistory(history)] *)
Definition analyzeHistory (history : list HistoryEntry) : list Insight :=
  fst (analyzeHistory_run history).

(** How often [path] occurs among the changes of all entries. *)
Definition occurrences (path : string) (history : list HistoryEntry) : nat :=
  count_occ string_dec (map change_path (flat_map changes_of history)) path.

End History.

(* ================================================================= *)
(** ** Files, exceptions and paths *)

(** What the program can throw. *)
Inductive Exception : Type :=
| Error (message : string)
| SyntaxError
| SystemError.

Inductive Result (A : Type) : Type :=
| Ok (a : A)
| Throw (e : Exception).

Arguments Ok {A} a.
Arguments Throw {A} e.

Definition bind {A B : Type} (r : Result A) (k : A -> Result B) : Result B :=
  match r with
  | Ok a => k a
  | Throw e => Throw e
  end.

(** [try { body } catch { handler }] *)
Definition try_catch {A : Type} (body : Result A) (handler : Result A)
  : Result A :=
  match body with
  | Ok a => Ok a
  | Throw _ => handler
  end.

(** What lies at a path: nothing, something that cannot be read as text, or
    a text file. *)
Inductive File : Type :=
| Unreadable
| Content (text : string).

Definition FileSystem : Type := string -> option File.

(** [fs.existsSync(path)] *)
Definition existsSync (fs : FileSystem) (path : string) : bool :=
  match fs path with
  | Some _ => true
  | None => false
  end.

(** [fs.readFileSync(path, 'utf-8')] *)
Definition readFileSync (fs : FileSystem) (path : string) : Result string :=
  match fs path with
  | Some (Content text) => Ok text
  | _ => Throw SystemError
  end.

(** The variables of the loop of [path.extname] (POSIX flavour). *)
Record ExtState : Type := mkExtState {
  startDot : option nat;
  startPart : nat;
  ext_end : option nat;
  matchedSlash : bool;
  preDotState : Z;
  stopped : bool
}.

(** One turn of the loop of [path.extname], at index [i] on code unit [c]. *)
Definition extname_step (i : nat) (c : ascii) (st : ExtState) : ExtState :=
  if stopped st then st
  else if Ascii.eqb c "/" then
    if negb (matchedSlash st) then
      mkExtState (startDot st) (i + 1) (ext_end st) (matchedSlash st)
        (preDotState st) true
    else st
  else
    let st :=
      if is_some (ext_end st) then st
      else mkExtState (startDot st) (startPart st) (Some (i + 1)) false
             (preDotState st) false in
    if Ascii.eqb c "." then
      if negb (is_some (startDot st)) then
        mkExtState (Some i) (startPart st) (ext_end st) (matchedSlash st)
          (preDotState st) false
      else if negb (preDotState st =? 1)%Z then
        mkExtState (startDot st) (startPart st) (ext_end st) (matchedSlash st)
          1%Z false
      else st
    else if is_some (startDot st) then
      mkExtState (startDot st) (startPart st) (ext_end st) (matchedSlash st)
        (-1)%Z false
    else st.

(** The loop [for (i = path.length - 1; i >= 0; --i)], over the reversed
    path: [i] is one less than the number of code units still ahead. *)
Fixpoint extname_loop (reversed : string) (st : ExtState) : ExtState :=
  match reversed with
  | EmptyString => st
  | String c rest =>
      extname_loop rest (extname_step (String.length rest) c st)
  end.

(** [path.extname(path)] *)
Definition extname (path : string) : string :=
  let st := extname_loop (string_rev path)
              (mkExtState None 0 None true 0%Z false) in
  match startDot st, ext_end st with
  | Some d, Some e =>
      if (preDotState st =? 0)%Z
         || ((preDotState st =? 1)%Z && (d =? e - 1)%nat
             && (d =? startPart st + 1)%nat)
      then EmptyString
      else substring d (e - d) path
  | _, _ => EmptyString
  end.

(* ================================================================= *)
(** ** The loader: [JSON.parse], [parseYAML], [loadFile], [loadHistory] *)

(** JSON white space: SPACE, TAB, LF, CR. *)
Definition is_json_ws (c : ascii) : bool :=
  let n := nat_of_ascii c in
  (n =? 32)%nat || (n =? 9)%nat || (n =? 10)%nat || (n =? 13)%nat.

Fixpoint skip_ws (s : string) : string :=
  match s with
  | EmptyString => EmptyString
  | String c rest => if is_json_ws c then skip_ws rest else s
  end.

Definition is_digit (c : ascii) : bool :=
  let n := nat_of_ascii c in (48 <=? n)%nat && (n <=? 57)%nat.

(** The longest run of digits at the head of [s], and what follows it. *)
Fixpoint take_digits (s : string) : string * string :=
  match s with
  | EmptyString => (EmptyString, EmptyString)
  | String c rest =>
      if is_digit c then
        let '(ds, rest') := take_digits rest in (String c ds, rest')
      else (EmptyString, s)
  end.

Definition hex_value (c : ascii) : option N :=
  let n := N_of_ascii c in
  if (48 <=? n)%N && (n <=? 57)%N then Some (n - 48)%N
  else if (65 <=? n)%N && (n <=? 70)%N then Some (n - 55)%N
  else if (97 <=? n)%N && (n <=? 102)%N then Some (n - 87)%N
  else None.

(** The four hex digits of a [\u] escape. *)
Definition take_hex4 (s : string) : option (N * string) :=
  match s with
  | String a (String b (String c (String d rest))) =>
      match hex_value a, hex_value b, hex_value c, hex_value d with
      | Some x, Some y, Some z, Some w =>
          Some ((((x * 16 + y) * 16 + z) * 16 + w)%N, rest)
      | _, _, _, _ => None
      end
  | _ => None
  end.

(** A [\u] escape whose digits are [s]: a high surrogate followed by an
    escaped low surrogate is one code point. *)
Definition take_unicode_escape (s : string) : option (string * string) :=
  match take_hex4 s with
  | Some (hi, rest) =>
      if (55296 <=? hi)%N && (hi <? 56320)%N then
        match rest with
        | String e (String u rest') =>
            if Ascii.eqb e backslash_char && Ascii.eqb u "u" then
              match take_hex4 rest' with
              | Some (lo, rest'') =>
                  if (56320 <=? lo)%N && (lo <? 57344)%N then
                    Some (utf8 (65536 + (hi - 55296) * 1024 + (lo - 56320))%N,
                          rest'')
                  else Some (utf8 hi, rest)
              | None => Some (utf8 hi, rest)
              end
            else Some (utf8 hi, rest)
        | _ => Some (utf8 hi, rest)
        end
      else Some (utf8 hi, rest)
  | None => None
  end.

(** A string literal after its opening quote: its value and what follows
    the closing quote. *)
Fixpoint parse_string_body (fuel : nat) (s : string) : option (string * string) :=
  match fuel with
  | O => None
  | S fuel' =>
      match s with
      | EmptyString => None
      | String c rest =>
          if Ascii.eqb c quote_char then Some (EmptyString, rest)
          else if (nat_of_ascii c <? 32)%nat then None
          else if Ascii.eqb c backslash_char then
            match rest with
            | EmptyString => None
            | String e rest' =>
                let continue (unit : string) (after : string) :=
                  match parse_string_body fuel' after with
                  | Some (t, rest'') => Some (unit ++ t, rest'')
                  | None => None
                  end in
                let one (n : nat) := String (ascii_of_nat n) EmptyString in
                if Ascii.eqb e quote_char then continue (one 34) rest'
                else if Ascii.eqb e backslash_char then continue (one 92) rest'
                else if Ascii.eqb e "/" then continue (one 47) rest'
                else if Ascii.eqb e "b" then continue (one 8) rest'
                else if Ascii.eqb e "f" then continue (one 12) rest'
                else if Ascii.eqb e "n" then continue (one 10) rest'
                else if Ascii.eqb e "r" then continue (one 13) rest'
                else if Ascii.eqb e "t" then continue (one 9) rest'
                else if Ascii.eqb e "u" then
                  match take_unicode_escape rest' with
                  | Some (unit, after) => continue unit after
                  | None => None
                  end
                else None
            end
          else
            match parse_string_body fuel' rest with
            | Some (t, rest') => Some (String c t, rest')
            | None => None
            end
      end
  end.

(** A number token and what follows it: an optional minus sign; an integer
    part, [0] or digits that do not start with [0]; an optional fraction, a
    dot and digits; an optional exponent, [e] or [E], a sign, digits. *)
Definition take_number (s : string) : option (string * string) :=
  let '(sign, s1) :=
    match s with
    | String c rest => if Ascii.eqb c "-" then ("-", rest) else (EmptyString, s)
    | EmptyString => (EmptyString, s)
    end in
  let '(int, s2) := take_digits s1 in
  match int with
  | EmptyString => None
  | String d more =>
      if Ascii.eqb d "0" && negb (String.eqb more EmptyString) then None
      else
        let frac :=
          match s2 with
          | String c rest =>
              if Ascii.eqb c "." then
                let '(ds, s3) := take_digits rest in
                match ds with
                | EmptyString => None
                | _ => Some ("." ++ ds, s3)
                end
              else Some (EmptyString, s2)
          | EmptyString => Some (EmptyString, s2)
          end in
        match frac with
        | None => None
        | Some (f, s3) =>
            let exp :=
              match s3 with
              | String c rest =>
                  if Ascii.eqb c "e" || Ascii.eqb c "E" then
                    let '(esign, s4) :=
                      match rest with
                      | String g rest' =>
                          if Ascii.eqb g "+" || Ascii.eqb g "-"
                          then (String g EmptyString, rest')
                          else (EmptyString, rest)
                      | EmptyString => (EmptyString, rest)
                      end in
                    let '(ds, s5) := take_digits s4 in
                    match ds with
                    | EmptyString => None
                    | _ => Some (String c esign ++ ds, s5)
                    end
                  else Some (EmptyString, s3)
              | EmptyString => Some (EmptyString, s3)
              end in
            match exp with
            | None => None
            | Some (e, s5) => Some (sign ++ int ++ f ++ e, s5)
            end
        end
  end.

Section Loader.

Context {N : JSNumber} {P : Platform}.

(** The JSON grammar by recursive descent: a value, the elements of an array
    after its opening bracket, the members of an object after its opening
    brace.  A repeated key keeps its first place and its last value. *)
Fixpoint parse_value (fuel : nat) (s : string) : option (Value * string) :=
  match fuel with
  | O => None
  | S fuel' =>
      match skip_ws s with
      | EmptyString => None
      | String c rest =>
          if Ascii.eqb c "{" then
            match skip_ws rest with
            | String c' rest' =>
                if Ascii.eqb c' "}" then Some (VObj [], rest')
                else parse_members fuel' [] rest
            | EmptyString => None
            end
          else if Ascii.eqb c "[" then
            match skip_ws rest with
            | String c' rest' =>
                if Ascii.eqb c' "]" then Some (VArr [], rest')
                else parse_elements fuel' [] rest
            | EmptyString => None
            end
          else if Ascii.eqb c quote_char then
            match parse_string_body (S (String.length rest)) rest with
            | Some (t, rest') => Some (VStr t, rest')
            | None => None
            end
          else if String.prefix "true" (String c rest) then
            Some (VBool true, substring 4 (String.length rest) (String c rest))
          else if String.prefix "false" (String c rest) then
            Some (VBool false, substring 5 (String.length rest) (String c rest))
          else if String.prefix "null" (String c rest) then
            Some (VNull, substring 4 (String.length rest) (String c rest))
          else
            match take_number (String c rest) with
            | Some (token, rest') => Some (VNum (StringToNumber token), rest')
            | None => None
            end
      end
  end
with parse_elements (fuel : nat) (acc : list Value) (s : string)
  : option (Value * string) :=
  match fuel with
  | O => None
  | S fuel' =>
      match parse_value fuel' s with
      | Some (v, rest) =>
          match skip_ws rest with
          | String c rest' =>
              if Ascii.eqb c "," then parse_elements fuel' (v :: acc) rest'
              else if Ascii.eqb c "]" then Some (VArr (rev (v :: acc)), rest')
              else None
          | EmptyString => None
          end
      | None => None
      end
  end
with parse_members (fuel : nat) (acc : Obj) (s : string)
  : option (Value * string) :=
  match fuel with
  | O => None
  | S fuel' =>
      match skip_ws s with
      | String q rest =>
          if Ascii.eqb q quote_char then
            match parse_string_body (S (String.length rest)) rest with
            | Some (key, rest1) =>
                match skip_ws rest1 with
                | String c rest2 =>
                    if Ascii.eqb c ":" then
                      match parse_value fuel' rest2 with
                      | Some (v, rest3) =>
                          match skip_ws rest3 with
                          | String d rest4 =>
                              if Ascii.eqb d "," then
                                parse_members fuel' (set_prop key v acc) rest4
                              else if Ascii.eqb d "}" then
                                Some (VObj (set_prop key v acc), rest4)
                              else None
                          | EmptyString => None
                          end
                      | None => None
                      end
                    else None
                | EmptyString => None
                end
            | None => None
            end
          else None
      | EmptyString => None
      end
  end.

(** [JSON.parse(content)]: one value, white space around it, nothing else. *)
Definition JSON_parse (content : string) : Result Value :=
  match parse_value (2 * String.length content + 2) content with
  | Some (v, rest) =>
      match skip_ws rest with
      | EmptyString => Ok v
      | _ => Throw SyntaxError
      end
  | None => Throw SyntaxError
  end.

(** The index after a white space character, when the index [i] below it
    is one. *)
Definition after_space (i : Z) : Z :=
  if (i <? 0)%Z then (-1)%Z else (1 + i)%Z.

(** [line.search(/\S/)]: every white space character is one UTF-16 code
    unit. *)
Fixpoint search_non_space (line : string) : Z :=
  match line with
  | EmptyString => (-1)%Z
  | String a rest =>
      if is_space a then after_space (search_non_space rest)
      else
        match rest with
        | EmptyString => 0%Z
        | String b rest2 =>
            if is_space2 a b then after_space (search_non_space rest2)
            else
              match rest2 with
              | EmptyString => 0%Z
              | String c rest3 =>
                  if is_space3 a b c
                  then after_space (search_non_space rest3)
                  else 0%Z
              end
        end
  end.

(** The text before the first colon, and the text after it. *)
Fixpoint split_at_colon (s : string) : option (string * string) :=
  match s with
  | EmptyString => None
  | String c rest =>
      if Ascii.eqb c ":" then Some (EmptyString, rest)
      else match split_at_colon rest with
           | Some (k, v) => Some (String c k, v)
           | None => None
           end
  end.

(** A line terminator, which [.] does not match: LF, CR, U+2028, U+2029. *)
Definition has_line_terminator (s : string) : bool :=
  includes s (String (ascii_of_nat 10) EmptyString)
  || includes s (String (ascii_of_nat 13) EmptyString)
  || includes s (String (ascii_of_nat 226)
                   (String (ascii_of_nat 128)
                      (String (ascii_of_nat 168) EmptyString)))
  || includes s (String (ascii_of_nat 226)
                   (String (ascii_of_nat 128)
                      (String (ascii_of_nat 169) EmptyString))).

(** The match of the trimmed line against the key-value pattern of
    [parseYAML] (one or more characters other than a colon, a colon, white
    space, then any characters up to the end): the key is the non-empty
    text before the first colon; the value is what follows the white space
    after the colon, and must hold no line terminator. *)
Definition match_key_value (t : string) : option (string * string) :=
  match split_at_colon t with
  | Some (key, after) =>
      let value := trimStart after in
      if String.eqb key EmptyString || has_line_terminator value then None
      else Some (key, value)
  | None => None
  end.

(** [s.slice(1, -1)] *)
Definition slice_1_m1 (s : string) : string :=
  substring 1 (String.length s - 2) s.

(** The coercion of a scalar of [parseYAML]. *)
Definition parse_scalar (value : string) : Value :=
  let parsedValue := trim value in
  if String.eqb parsedValue "true" then VBool true
  else if String.eqb parsedValue "false" then VBool false
  else if negb (isNaN (StringToNumber parsedValue))
          && negb (String.eqb parsedValue EmptyString)
  then VNum (StringToNumber parsedValue)
  else if startsWith parsedValue (String quote_char EmptyString)
          && endsWith parsedValue (String quote_char EmptyString)
  then VStr (slice_1_m1 parsedValue)
  else VStr parsedValue.

(** An entry [{obj, indent}] of the stack of [parseYAML]: the object is kept
    as the list of keys that leads to it from [result]. *)
Definition Frame : Type := (list string * Z)%type.

(** [while (stack.length > 1 && top.indent >= indent) stack.pop()] *)
Fixpoint pop_to (indent : Z) (stack : list Frame) : list Frame :=
  match stack with
  | top :: ((_ :: _) as below) =>
      if (snd top >=? indent)%Z then pop_to indent below else stack
  | _ => stack
  end.

(** [parent[key] = v], for the object [parent] that the keys [route] lead
    to.  Under the name [__proto__] the accessor that every object inherits
    takes the value and makes no own property: [parent] keeps its own
    properties, and so does [result] for every key set below
    [__proto__]. *)
Fixpoint set_at (route : list string) (key : string) (v : Value) (root : Obj)
  : Obj :=
  match route with
  | [] => if String.eqb key "__proto__" then root else set_prop key v root
  | k :: ks =>
      match lookup k root with
      | Some (VObj inner) => set_prop k (VObj (set_at ks key v inner)) root
      | _ => root
      end
  end.

(** One turn of the loop of [parseYAML] over [result] and [stack]. *)
Definition yaml_line (st : Obj * list Frame) (line : string)
  : Obj * list Frame :=
  let '(result, stack) := st in
  let t := trim line in
  if String.eqb t EmptyString || startsWith t "#" then st
  else
    let indent := search_non_space line in
    match match_key_value t with
    | Some (key, value) =>
        let stack := pop_to indent stack in
        let parent := match stack with
                      | top :: _ => fst top
                      | [] => []
                      end in
        if negb (String.eqb value EmptyString) then
          (set_at parent (trim key) (parse_scalar value) result, stack)
        else
          (set_at parent (trim key) (VObj []) result,
           ((parent ++ [trim key])%list, indent) :: stack)
    | None => st
    end.

(** [parseYAML(content)] *)
Definition parseYAML (content : string) : Obj :=
  fst (fold_left yaml_line (split_on (ascii_of_nat 10) content)
         ([], [([], (-1)%Z)])).

(** [loadFile(filePath)] *)
Definition loadFile (fs : FileSystem) (filePath : string) : Result Value :=
  if negb (existsSync fs filePath) then
    Throw (Error ("Файл не найден: " ++ filePath))
  else
    bind (readFileSync fs filePath) (fun content =>
      let ext := toLowerCase (extname filePath) in
      if String.eqb ext ".json" then JSON_parse content
      else if String.eqb ext ".yaml" || String.eqb ext ".yml" then
        Ok (VObj (parseYAML content))
      else
        try_catch (JSON_parse content)
          (Throw (Error ("Неподдерживаемый формат: " ++ ext)))).

(** [loadHistory()], for the path [HISTORY_FILE] that the environment
    fixes.  The body of the [try] either returns a value or falls through. *)
Definition loadHistory (fs : FileSystem) (HISTORY_FILE : string)
  : Result Value :=
  let body : Result (option Value) :=
    if existsSync fs HISTORY_FILE then
      bind (readFileSync fs HISTORY_FILE) (fun content =>
        bind (JSON_parse content) (fun v => Ok (Some v)))
    else Ok None in
  match try_catch body (Ok None) with
  | Ok (Some v) => Ok v
  | Ok None => Ok (VArr [])
  | Throw e => Throw e
  end.

End Loader.

(* ================================================================= *)
(** ** The first entry point, [impact-cli.js]: its classifier *)

Module V1.

(** [/^(api[_-]?key|secret|password|token|auth)/i],
    [/^(database|db)[_.-](host|url|connection)/i], [/^required/i],
    [/^enabled?$/i], [/^active$/i] *)
Definition criticalPatterns : list RegExp :=
  [ re_prefix (Alt (Seq (Lit "api") (Seq (Opt (Cls "_-")) (Lit "key")))
                   (alts ["secret"; "password"; "token"; "auth"]));
    re_prefix (Seq (alts ["database"; "db"])
                   (Seq (Cls "_.-") (alts ["host"; "url"; "connection"])));
    re_prefix (Lit "required");
    re_whole (Seq (Lit "enable") (Opt (Lit "d")));
    re_whole (Lit "active") ].

(** The same ten patterns as in the second entry point. *)
Definition highPatterns : list RegExp := HIGH_PATTERNS.

(** The same seven patterns as in the second entry point. *)
Definition mediumPatterns : list RegExp := MEDIUM_PATTERNS.

(** [/^(port|host)$/i] *)
Definition PORT_HOST_PATTERN : RegExp := re_whole (Alt (Lit "port") (Lit "host")).

Section Classifier.

Context {N : JSNumber} {P : Platform}.

(** An impact record of the first entry point:
    [{level, path, title, description, recommendation, changeType}]. *)
Record Impact : Type := mkImpact {
  level : Level;
  path : string;
  title : string;
  description : string;
  recommendation : string;
  changeType : ChangeType
}.

(** The [let] variables of one turn of the loop. *)
Record Locals : Type := mkLocals {
  l_level : Level;
  l_title : string;
  l_description : string;
  l_recommendation : string
}.

(** The tier that the pattern lists give the last key. *)
Definition baseline (lastKey : string) : Level :=
  if some_test criticalPatterns lastKey then critical
  else if some_test highPatterns lastKey then high
  else if some_test mediumPatterns lastKey then medium
  else low.

(** The branch [change.type === 'modified']. *)
Definition refine_modified (lastKey : string) (oldValue newValue : Value)
  (lvl : Level) : Locals :=
  let ttl := "Изменено значение: " ++ lastKey in
  if test TIMEOUT_PATTERN lastKey then
    let oldVal := ToNumber oldValue in
    let newVal := ToNumber newValue in
    if negb (isNaN oldVal) && negb (isNaN newVal) then
      if num_lt newVal oldVal then
        mkLocals (if Level_eqb lvl low then medium else lvl) ttl
          ("Таймаут уменьшен с " ++ NumberToString oldVal ++ " до "
             ++ NumberToString newVal ++ ". Возможны ошибки по таймауту.")
          "Убедитесь, что новое значение достаточно для выполнения операций."
      else
        mkLocals lvl ttl
          ("Таймаут увеличен с " ++ NumberToString oldVal ++ " до "
             ++ NumberToString newVal ++ ".")
          EmptyString
    else mkLocals lvl ttl EmptyString EmptyString
  else if test ACTIVITY_PATTERN lastKey then
    mkLocals critical ttl
      ("Изменён флаг активности: " ++ ToString oldValue ++ " → "
         ++ ToString newValue)
      "Критическое изменение. Проверьте влияние на работу системы."
  else if test PORT_HOST_PATTERN lastKey then
    mkLocals high ttl
      ("Изменены параметры подключения: " ++ ToString oldValue ++ " → "
         ++ ToString newValue)
      "Убедитесь, что новые параметры корректны и доступны."
  else
    mkLocals lvl ttl
      ("Значение изменено с " ++ String quote_char (ToString oldValue)
         ++ String quote_char " на "
         ++ String quote_char (ToString newValue)
         ++ String quote_char EmptyString)
      EmptyString.

(** One turn of the loop: the locals when the output filter is reached. *)
Definition locals_of (change : Change) : Locals :=
  let lastKey := last_segment (change_path change) in
  let lvl := baseline lastKey in
  match change with
  | Removed _ _ =>
      mkLocals (if Level_eqb lvl low then medium else lvl)
        ("Удалено поле: " ++ lastKey)
        "Удаление поля может привести к ошибкам в коде, который его использует."
        "Убедитесь, что это поле больше не используется в системе."
  | Added _ _ =>
      if Level_eqb lvl critical || Level_eqb lvl high then
        mkLocals lvl ("Добавлено поле: " ++ lastKey)
          ("Новое поле в конфигурации."
             ++ " Требует внимания при развёртывании.")
          "Проверьте, что все компоненты поддерживают новое поле."
      else
        mkLocals lvl ("Добавлено поле: " ++ lastKey)
          "Новое поле в конфигурации." EmptyString
  | Modified _ oldValue newValue =>
      refine_modified lastKey oldValue newValue lvl
  end.

(** One turn of the loop: the record pushed, if the filter lets it
    through. *)
Definition analyze_change (change : Change) : option Impact :=
  let v := locals_of change in
  if negb (Level_eqb (l_level v) low) || is_removed (change_type change) then
    Some (mkImpact (l_level v) (change_path change) (l_title v)
            (l_description v) (l_recommendation v) (change_type change))
  else None.

(** [analyzeImpactLocal(changes)] of [impact-cli.js] *)
Fixpoint analyzeImpactLocal (changes : list Change) : list Impact :=
  match changes with
  | [] => []
  | change :: rest =>
      match analyze_change change with
      | Some impact => impact :: analyzeImpactLocal rest
      | None => analyzeImpactLocal rest
      end
  end.



End Classifier.

(** What [parseArgs] of [impact-cli.js] returns. *)
Record Options : Type := mkOptions {
  fileA : string;
  fileB : string;
  outputFormat : string;
  outputPath : option string
}.

(** How [parseArgs] ends: [process.exit(code)] or a return. *)
Inductive Parsed : Type :=
| Exit (code : nat)
| Return (options : Options).

(** [arg.split('=')[1]] *)
Definition after_equals (arg : string) : option string :=
  nth_error (split_on "=" arg) 1.

(** The loop [for (let i = 2; i < args.length; i++)] over the arguments
    from index [i] on; [None] is the exit of [--help]. *)
Fixpoint options_loop (rest : list string) (format : string)
  (output : option string) : option (string * option string) :=
  match rest with
  | [] => Some (format, output)
  | arg :: rest' =>
      if startsWith arg "--format=" then
        match after_equals arg with
        | Some v => options_loop rest' v output
        | None => options_loop rest' format output
        end
      else if startsWith arg "--output=" then
        options_loop rest' format (after_equals arg)
      else if String.eqb arg "-o" then
        match rest' with
        | next :: rest'' =>
            if negb (String.eqb next EmptyString)
            then options_loop rest'' format (Some next)
            else options_loop rest' format output
        | [] => Some (format, output)
        end
      else if String.eqb arg "--help" || String.eqb arg "-h" then None
      else options_loop rest' format output
  end.

(** [parseArgs()] of [impact-cli.js], on [process.argv.slice(2)]. *)
Definition parseArgs (args : list string) : Parsed :=
  match args with
  | a :: b :: rest =>
      match options_loop rest "console" None with
      | Some (format, output) => Return (mkOptions a b format output)
      | None => Exit 0
      end
  | _ => Exit 1
  end.

End V1.

(* ================================================================= *)
(** ** Saving to the history, the summary and the overall risk *)

(** How [saveToHistory] ends: the file system after the write, a
    [TypeError], or an exception of the file system. *)
Inductive SaveOutcome : Type :=
| Saved (fs : FileSystem)
| SaveTypeError
| SaveThrow (e : Exception).

(** [fs.writeFileSync(path, content)]: a path that holds something that is
    not a text file cannot be written. *)
Definition writeFileSync (fs : FileSystem) (path content : string)
  : Result FileSystem :=
  match fs path with
  | Some Unreadable => Throw SystemError
  | _ => Ok (fun p => if String.eqb p path then Some (Content content) else fs p)
  end.

Section Saving.

Context {N : JSNumber} {P : Platform}.

(** [JSON.stringify(value, null, 2)], the pretty printer of the platform. *)
Variable JSON_stringify_pretty : Value -> string.

(** [history.unshift(record); if (history.length > 100) history.splice(100)]
    on an array. *)
Definition unshift_capped (record : Value) (items : list Value) : list Value :=
  let items := record :: items in
  if (100 <? List.length items)%nat then firstn 100 items else items.

(** [saveToHistory(record)].  Only an array has [unshift]. *)
Definition saveToHistory (fs : FileSystem) (HISTORY_FILE : string)
  (record : Value) : SaveOutcome :=
  match loadHistory fs HISTORY_FILE with
  | Throw e => SaveThrow e
  | Ok (VArr items) =>
      match writeFileSync fs HISTORY_FILE
              (JSON_stringify_pretty (VArr (unshift_capped record items))) with
      | Ok fs' => Saved fs'
      | Throw e => SaveThrow e
      end
  | Ok _ => SaveTypeError
  end.

Definition is_added (t : ChangeType) : bool :=
  match t with
  | added => true
  | _ => false
  end.

Definition is_modified (t : ChangeType) : bool :=
  match t with
  | modified => true
  | _ => false
  end.

(** The [summary] of the record that [main] saves. *)
Definition summary_of (changes : list Change) : Summary :=
  mkSummary (List.length changes)
    (List.length (filter (fun c => is_added (change_type c)) changes))
    (List.length (filter (fun c => is_removed (change_type c)) changes))
    (List.length (filter (fun c => is_modified (change_type c)) changes)).

(** The [riskLevel] of the record that [main] saves. *)
Definition riskLevel_of (impacts : list Impact) : string :=
  if existsb (fun i => Level_eqb (level i) critical) impacts then "Критический"
  else if existsb (fun i => Level_eqb (level i) high) impacts then "Высокий"
  else "Низкий".

(** Whether [main] saves the run: [saveName || changes.length > 0]. *)
Definition saved_by_main (saveName : option string) (changes : list Change)
  : bool :=
  match saveName with
  | Some n => negb (String.eqb n EmptyString) || (0 <? List.length changes)%nat
  | None => (0 <? List.length changes)%nat
  end.

End Saving.

(* ================================================================= *)
(** ** The command line of the second entry point *)

(** What [parseArgs] returns. *)
Record Options : Type := mkOptions {
  opt_fileA : string;
  opt_fileB : string;
  schemaPath : option string;
  saveName : option string
}.

(** How [parseArgs] ends: after [showHistory()] with exit code 0, after the
    usage text with exit code 1, or with the options. *)
Inductive Parsed : Type :=
| HistoryShown
| UsageError
| Return (options : Options).

(** [args.find(a => a.startsWith(prefix))?.split('=')[1]] *)
Definition option_value (prefix : string) (args : list string)
  : option string :=
  match find (fun a => startsWith a prefix) args with
  | Some a => V1.after_equals a
  | None => None
  end.

(** [parseArgs()], on [process.argv.slice(2)]. *)
Definition parseArgs (args : list string) : Parsed :=
  if existsb (String.eqb "--history") args then HistoryShown
  else
    match args with
    | a :: b :: _ =>
        Return (mkOptions a b (option_value "--schema=" args)
                  (option_value "--save=" args))
    | _ => UsageError
    end.

(* ================================================================= *)
(** ** Printing the changes *)

Definition ESC : string := String (ascii_of_nat 27) EmptyString.
Definition LF : string := String (ascii_of_nat 10) EmptyString.

(** The table [colors]. *)
Definition colors : list (string * string) :=
  [ ("reset", ESC ++ "[0m"); ("bold", ESC ++ "[1m"); ("dim", ESC ++ "[2m");
    ("red", ESC ++ "[31m"); ("green", ESC ++ "[32m");
    ("yellow", ESC ++ "[33m"); ("blue", ESC ++ "[34m");
    ("magenta", ESC ++ "[35m"); ("cyan", ESC ++ "[36m");
    ("white", ESC ++ "[37m"); ("gray", ESC ++ "[90m") ].

Fixpoint table_get (key : string) (table : list (string * string))
  : option string :=
  match table with
  | [] => None
  | (k, v) :: rest => if String.eqb k key then Some v else table_get key rest
  end.

(** [colorize(text, color)] *)
Definition colorize (text color : string) : string :=
  match table_get color colors with
  | Some code => code
  | None => EmptyString
  end ++ text ++ ESC ++ "[0m".

(** The table of [icon]. *)
Definition icons : list (string * string) :=
  [ ("added", "✚"); ("removed", "✖"); ("modified", "⟳"); ("critical", "⚠");
    ("high", "◆"); ("medium", "●"); ("low", "○"); ("success", "✓");
    ("error", "✗"); ("info", "ℹ") ].

(** [icon(type)] *)
Definition icon (type : string) : string :=
  match table_get type icons with
  | Some s => s
  | None => "•"
  end.

Section Printing.

Context {N : JSNumber} {P : Platform}.

(** One of the three blocks of [printChanges]: nothing for an empty group;
    otherwise the count, the first ten paths, the number of the others
    when there are more, and an empty line. *)
Definition print_group (group : list Change) (icon_name label color : string)
  : list string :=
  if (0 <? List.length group)%nat then
    [colorize (icon icon_name ++ " " ++ label ++ ": "
                 ++ nat_to_string (List.length group)) color]
    ++ map (fun c => colorize ("  " ++ change_path c) "gray") (firstn 10 group)
    ++ (if (10 <? List.length group)%nat
        then [colorize ("  ... и ещё "
                          ++ nat_to_string (List.length group - 10)) "dim"]
        else [])
    ++ [EmptyString]
  else [].

(** [printChanges(changes)]: the texts handed to [console.log], in order. *)
Definition printChanges (changes : list Change) : list string :=
  let added := filter (fun c => is_added (change_type c)) changes in
  let removed := filter (fun c => is_removed (change_type c)) changes in
  let modified := filter (fun c => is_modified (change_type c)) changes in
  [colorize (LF ++ "━━━ ОБНАРУЖЕННЫЕ ИЗМЕНЕНИЯ ━━━") "bold"; EmptyString]
  ++ print_group added "added" "Добавлено" "green"
  ++ print_group modified "modified" "Изменено" "yellow"
  ++ print_group removed "removed" "Удалено" "red".

End Printing.

(* ================================================================= *)
(** ** Schema validation *)

Inductive ErrorKind : Type := missing_required | type_mismatch | invalid_enum.

Inductive Severity : Type := severity_error | severity_warning.

Section Validation.

Context {N : JSNumber} {P : Platform}.

(** A validation error: [{path, type, message, severity}].  At the root the
    path of a missing field is the entry of [required] itself. *)
Record SchemaError : Type := mkSchemaError {
  err_path : Value;
  err_type : ErrorKind;
  err_message : string;
  err_severity : Severity
}.

(** [v[key]]: [null] and [undefined] have no properties to read. *)
Definition property (v : Value) (key : string) : Outcome Value :=
  match v with
  | VUndefined => TypeError
  | VNull => TypeError
  | _ => Returned (get v key)
  end.

(** [key in v] *)
Definition has_property (key : string) (v : Value) : Outcome bool :=
  has_key key v.

Fixpoint indexed {A : Type} (i : nat) (l : list A) : list (string * A) :=
  match l with
  | [] => []
  | x :: rest => (nat_to_string i, x) :: indexed (S i) rest
  end.

(** [Object.entries(v)] of a value that counts as true. *)
Definition Object_entries (v : Value) : list (string * Value) :=
  match v with
  | VObj props => ordered props
  | VArr items => indexed 0 items
  | VStr s => indexed 0 (map VStr (code_units s))
  | _ => []
  end.

(** [v === s] for a string [s] *)
Definition is_string (v : Value) (s : string) : bool :=
  match v with
  | VStr t => String.eqb t s
  | _ => false
  end.

(** SameValueZero.  Two objects are the same only when they are one
    object, and the document and the schema come from two parses; an
    element of a parsed array is no prototype object and no built-in
    function. *)
Definition SameValueZero (x y : Value) : bool :=
  match x, y with
  | VUndefined, VUndefined => true
  | VNull, VNull => true
  | VBool a, VBool b => Bool.eqb a b
  | VNum a, VNum b => SameValueZero_number a b
  | VStr a, VStr b => String.eqb a b
  | _, _ => false
  end.

(** [items.join(sep)] *)
Definition Array_join (sep : string) (items : list Value) : string :=
  String.concat sep
    (map (fun x => match x with
                   | VUndefined => EmptyString
                   | VNull => EmptyString
                   | _ => ToString x
                   end) items).

(** [Array.isArray(value) ? 'array' : typeof value] *)
Definition actual_type (value : Value) : string :=
  if Array_isArray value then "array" else typeof value.

(** The loop over [schemaObj.required]. *)
Fixpoint check_required (obj : Value) (fields : list Value) (path : string)
  : Outcome (list SchemaError) :=
  match fields with
  | [] => Returned []
  | field :: rest =>
      and_then (has_property (ToString field) obj) (fun present =>
      and_then (check_required obj rest path) (fun errors =>
        if negb present then
          Returned
            (mkSchemaError
               (match path with
                | EmptyString => field
                | _ => VStr (path ++ "." ++ ToString field)
                end)
               missing_required
               ("Отсутствует обязательное поле: " ++ ToString field)
               severity_error :: errors)
        else Returned errors))
  end.

(** [if (propSchema.enum && !propSchema.enum.includes(value)) { ... }]:
    the error pushed, if any.  A string has [includes] but no [join]; a
    number, a boolean and a plain object have no [includes]. *)
Definition check_enum (enum value : Value) (cur : string)
  : Outcome (list SchemaError) :=
  if truthy enum then
    match enum with
    | VArr items =>
        if existsb (fun x => SameValueZero x value) items then Returned []
        else Returned
               [mkSchemaError (VStr cur) invalid_enum
                  ("Недопустимое значение. Разрешены: " ++ Array_join ", " items)
                  severity_warning]
    | VStr s => if includes s (ToString value) then Returned [] else TypeError
    | _ => TypeError
    end
  else Returned [].

(** [if (propSchema.type) { ... }]: the error pushed, if any. *)
Definition check_type (type value : Value) (cur : string) : list SchemaError :=
  if truthy type then
    if negb (is_string type (actual_type value)) && negb (is_null value) then
      [mkSchemaError (VStr cur) type_mismatch
         ("Неверный тип: ожидается " ++ ToString type ++ ", получено "
            ++ actual_type value)
         severity_error]
    else []
  else [].

(** The loop over [Object.entries(schemaObj.properties)]: the errors it
    pushes, in order.  [self] is the function [validate] that the loop
    calls on a nested object. *)
Fixpoint validate_entries
  (self : Value -> Value -> string -> Outcome (list SchemaError))
  (obj : Value) (path : string) (entries : list (string * Value))
  : Outcome (list SchemaError) :=
  match entries with
  | [] => Returned []
  | (key, propSchema) :: rest =>
      let cur := currentPath path key in
      and_then (property obj key) (fun value =>
        match value with
        | VUndefined => validate_entries self obj path rest
        | _ =>
            and_then (property propSchema "type") (fun type =>
            and_then (property propSchema "enum") (fun enum =>
            and_then (check_enum enum value cur) (fun errors_enum =>
            and_then (property propSchema "properties")
              (fun nested_properties =>
            and_then
              (if is_string type "object"
                  && truthy nested_properties
                  && String.eqb (typeof value) "object"
                  && negb (is_null value)
               then self value propSchema cur
               else Returned []) (fun errors_nested =>
            and_then (validate_entries self obj path rest) (fun errors_rest =>
              Returned
                (check_type type value cur ++ errors_enum
                   ++ errors_nested ++ errors_rest)%list))))))
        end)
  end.

(** The inner function [validate(obj, schemaObj, path)]: the errors it
    pushes, in order.  The recursion is bounded by [fuel]. *)
Fixpoint validate (fuel : nat) (obj schemaObj : Value) (path : string)
  : Outcome (list SchemaError) :=
  match fuel with
  | O => Returned []
  | S fuel' =>
      and_then (property schemaObj "required") (fun required =>
      and_then
        (if truthy required && Array_isArray required then
           match required with
           | VArr fields => check_required obj fields path
           | _ => Returned []
           end
         else Returned []) (fun errors1 =>
      and_then (property schemaObj "properties") (fun properties =>
      and_then
        (if truthy properties then
           validate_entries (validate fuel') obj path
             (Object_entries properties)
         else Returned []) (fun errors2 =>
        Returned (errors1 ++ errors2)%list))))
  end.

(** [validateSchema(data, schema)].  Each recursive call descends into the
    schema, so this much fuel is never used up ([validate_fuel_enough]
    below). *)
Definition validateSchema (data schema : Value) : Outcome (list SchemaError) :=
  validate (S (depth schema)) data schema EmptyString.

End Validation.

(* ================================================================= *)
(** ** Deep equality, as the specification words it *)

Inductive same_option {A : Type} (R : A -> A -> Prop)
  : option A -> option A -> Prop :=
| same_none : same_option R None None
| same_some (a b : A) : R a b -> same_option R (Some a) (Some b).

Section DeepEquality.

Context {N : JSNumber} {P : Platform}.

(** Value-based, structural equality: scalars are equal when they are the
    same scalar, sequences when they are equal element by element, mappings
    when they have the same keys with equal values, whatever the order of
    the keys. *)
Inductive deep_equal : Value -> Value -> Prop :=
| de_undefined : deep_equal VUndefined VUndefined
| de_null : deep_equal VNull VNull
| de_bool (b : bool) : deep_equal (VBool b) (VBool b)
| de_num (n : number) : deep_equal (VNum n) (VNum n)
| de_str (s : string) : deep_equal (VStr s) (VStr s)
| de_arr (l1 l2 : list Value) :
    Forall2 deep_equal l1 l2 -> deep_equal (VArr l1) (VArr l2)
| de_obj (o1 o2 : Obj) :
    (forall k, same_option deep_equal (lookup k o1) (lookup k o2)) ->
    deep_equal (VObj o1) (VObj o2).

End DeepEquality.

(* ================================================================= *)
(** ** Notions used to state the properties *)

(** [sub] holds some of the elements of [l], in the order of [l]. *)
Inductive subsequence {A : Type} : list A -> list A -> Prop :=
| subsequence_nil : subsequence [] []
| subsequence_skip (x : A) (sub l : list A) :
    subsequence sub l -> subsequence sub (x :: l)
| subsequence_keep (x : A) (sub l : list A) :
    subsequence sub l -> subsequence (x :: sub) (x :: l).

(** An option of the first entry point that is neither [-o] nor a request
    for help. *)
Definition plain_option (arg : string) : Prop :=
  arg <> "-o" /\ arg <> "--help" /\ arg <> "-h".

(** The severity that goes with a kind of validation error. *)
Definition severity_of_kind (k : ErrorKind) : Severity :=
  match k with
  | invalid_enum => severity_warning
  | _ => severity_error
  end.

(** The table of occurrences, the reference for [pathCounts]: each path
    once, in the order of the first occurrences, with how often it
    occurs. *)
Fixpoint tally (path : string) (table : list (string * nat))
  : list (string * nat) :=
  match table with
  | [] => [(path, 1)]
  | (k, count) :: rest =>
      if String.eqb k path then (k, S count) :: rest
      else (k, count) :: tally path rest
  end.

Definition tally_all (paths : list string) : list (string * nat) :=
  fold_left (fun table path => tally path table) paths [].

(** The count that a table holds for [path], zero when it holds none. *)
Fixpoint count_in (path : string) (table : list (string * nat)) : nat :=
  match table with
  | [] => 0
  | (k, count) :: rest =>
      if String.eqb k path then count else count_in path rest
  end.

(** The order of a list sorted by descending count. *)
Definition by_count_desc (a b : string * nat) : Prop := snd b <= snd a.

Definition ChangeType_eq_dec (a b : ChangeType) : {a = b} + {a <> b}.
Proof. decide equality. Defined.

Section DocumentNotions.

Context {N : JSNumber} {P : Platform}.

(** Whether [key in (v || {})] holds. *)
Definition present (key : string) (v : Value) : bool :=
  match has_key key (or_empty v) with
  | Returned true => true
  | _ => false
  end.

(** The two values that the differ reaches from [a] and [b] through the
    keys [ks]: each key is an own key of one side, is in both sides, and
    leads to two values that pass the test of the recursion. *)
Fixpoint descend (ks : list string) (a b : Value) : option (Value * Value) :=
  match ks with
  | [] => Some (a, b)
  | k :: rest =>
      if mem_string k (allKeys a b) && present k a && present k b
         && both_plain_objects (optional_get a k) (optional_get b k)
      then descend rest (optional_get a k) (optional_get b k)
      else None
  end.

(** The path text of the keys [ks] below [path]. *)
Definition path_of (path : string) (ks : list string) : string :=
  fold_left currentPath ks path.

(** What a record says about the key [k] of the values [a] and [b]: the key
    is an own key of one of them; Added, it is not in [a]; Removed, it is
    in [a] and not in [b]; Modified, it is in both, with values that do not
    pass the test of the recursion and that serialise differently. *)
Definition record_at (c : Change) (k : string) (a b : Value) : Prop :=
  In k (allKeys a b)
  /\ match c with
     | Added _ v => present k a = false /\ v = optional_get b k
     | Removed _ v =>
         present k a = true /\ present k b = false /\ v = optional_get a k
     | Modified _ old new =>
         present k a = true /\ present k b = true
         /\ old = optional_get a k /\ new = optional_get b k
         /\ both_plain_objects old new = false
         /\ JSON_stringify old <> JSON_stringify new
     end.

(** A text that is not empty: the one kind of document in which the differ
    cannot look for a key. *)
Definition is_text (v : Value) : bool :=
  match v with
  | VStr s => negb (String.eqb s EmptyString)
  | _ => false
  end.


(** A key that a plain object does not inherit. *)
Definition not_inherited (key : string) : Prop :=
  inherited object_kind key = None.

(** A property schema that only constrains the type. *)
Definition only_type (propSchema : Value) : Prop :=
  exists t, propSchema = VObj [("type", VStr t)].

(** A value as [parseYAML] can build it: a boolean, a number, a string, or
    a mapping of such values. *)
Inductive yaml_value : Value -> Prop :=
| yaml_bool (b : bool) : yaml_value (VBool b)
| yaml_num (n : number) : yaml_value (VNum n)
| yaml_str (s : string) : yaml_value (VStr s)
| yaml_obj (props : Obj) :
    Forall (fun kv => yaml_value (snd kv)) props -> yaml_value (VObj props).

End DocumentNotions.

(* ================================================================= *)
(** ** The prototypes of Node.js, for the worked examples *)

(** The prototype objects and the built-in functions as Node.js 20 has
    them, over the integers of [IntNumber]. *)
Module Node.

#[local] Existing Instance IntNumber_JSNumber.

Inductive Proto : Type :=
| ObjectPrototype
| ArrayPrototype
| StringPrototype
| NumberPrototype
| BooleanPrototype
| FunctionPrototype.

(** A prototype object, or a built-in function with its name and the
    number of its parameters. *)
Inductive builtin : Type :=
| Prototype (p : Proto)
| Function (name : string) (arity : Z).

(** The constructor of each prototype. *)
Definition constructor_of (p : Proto) : builtin :=
  match p with
  | ObjectPrototype => Function "Object" 1
  | ArrayPrototype => Function "Array" 1
  | StringPrototype => Function "String" 1
  | NumberPrototype => Function "Number" 1
  | BooleanPrototype => Function "Boolean" 1
  | FunctionPrototype => Function "Function" 1
  end.

(** The methods of each prototype: the key, the name of the function and
    the number of its parameters. *)
Definition methods (p : Proto) : list (string * (string * Z)) :=
  let m (key : string) (arity : Z) := (key, (key, arity)) in
  match p with
  | ObjectPrototype =>
      [ m "__defineGetter__" 2; m "__defineSetter__" 2; m "hasOwnProperty" 1;
        m "__lookupGetter__" 1; m "__lookupSetter__" 1; m "isPrototypeOf" 1;
        m "propertyIsEnumerable" 1; m "toString" 0; m "valueOf" 0;
        m "toLocaleString" 0 ]%Z
  | ArrayPrototype =>
      [ m "at" 1; m "concat" 1; m "copyWithin" 2; m "fill" 1; m "find" 1;
        m "findIndex" 1; m "findLast" 1; m "findLastIndex" 1;
        m "lastIndexOf" 1; m "pop" 0; m "push" 1; m "reverse" 0; m "shift" 0;
        m "unshift" 1; m "slice" 2; m "sort" 1; m "splice" 2; m "includes" 1;
        m "indexOf" 1; m "join" 1; m "keys" 0; m "entries" 0; m "values" 0;
        m "forEach" 1; m "filter" 1; m "flat" 0; m "flatMap" 1; m "map" 1;
        m "every" 1; m "some" 1; m "reduce" 1; m "reduceRight" 1;
        m "toLocaleString" 0; m "toString" 0; m "toReversed" 0;
        m "toSorted" 1; m "toSpliced" 2; m "with" 2 ]%Z
  | StringPrototype =>
      [ m "anchor" 1; m "at" 1; m "big" 0; m "blink" 0; m "bold" 0;
        m "charAt" 1; m "charCodeAt" 1; m "codePointAt" 1; m "concat" 1;
        m "endsWith" 1; m "fontcolor" 1; m "fontsize" 1; m "fixed" 0;
        m "includes" 1; m "indexOf" 1; m "isWellFormed" 0; m "italics" 0;
        m "lastIndexOf" 1; m "link" 1; m "localeCompare" 1; m "match" 1;
        m "matchAll" 1; m "normalize" 0; m "padEnd" 1; m "padStart" 1;
        m "repeat" 1; m "replace" 2; m "replaceAll" 2; m "search" 1;
        m "slice" 2; m "small" 0; m "split" 2; m "strike" 0; m "sub" 0;
        m "substr" 2; m "substring" 2; m "sup" 0; m "startsWith" 1;
        m "toString" 0; m "toWellFormed" 0; m "trim" 0; m "trimStart" 0;
        ("trimLeft", ("trimStart", 0)); m "trimEnd" 0;
        ("trimRight", ("trimEnd", 0)); m "toLocaleLowerCase" 0;
        m "toLocaleUpperCase" 0; m "toLowerCase" 0; m "toUpperCase" 0;
        m "valueOf" 0 ]%Z
  | NumberPrototype =>
      [ m "toExponential" 1; m "toFixed" 1; m "toPrecision" 1;
        m "toString" 1; m "valueOf" 0; m "toLocaleString" 0 ]%Z
  | BooleanPrototype => [ m "toString" 0; m "valueOf" 0 ]%Z
  | FunctionPrototype =>
      [ m "apply" 2; m "bind" 1; m "call" 1; m "toString" 0 ]%Z
  end.

Fixpoint method (key : string) (table : list (string * (string * Z)))
  : option builtin :=
  match table with
  | [] => None
  | (k, (name, arity)) :: rest =>
      if String.eqb k key then Some (Function name arity)
      else method key rest
  end.

(** The own property [key] of the prototype object [p], the accessor
    [__proto__] of [Object.prototype] apart. *)
Definition own_of_prototype (p : Proto) (key : string)
  : option (Member builtin) :=
  if String.eqb key "constructor" then Some (MBuiltin (constructor_of p))
  else
    match method key (methods p) with
    | Some f => Some (MBuiltin f)
    | None =>
        match p with
        | ArrayPrototype | StringPrototype | FunctionPrototype =>
            if String.eqb key "length"
            then Some (MPrimitive (PNum (IntNumber.IInt 0)))
            else if String.eqb key "name" then
              match p with
              | FunctionPrototype => Some (MPrimitive (PStr EmptyString))
              | _ => None
              end
            else None
        | _ => None
        end
    end.

(** What is read under [key] along the prototypes [chain], the last of
    which is [Object.prototype]; [first] is what its accessor [__proto__]
    returns. *)
Fixpoint along (chain : list Proto) (first : Member builtin) (key : string)
  : option (Member builtin) :=
  match chain with
  | [] => if String.eqb key "__proto__" then Some first else None
  | p :: rest =>
      match own_of_prototype p key with
      | Some m => Some m
      | None => along rest first key
      end
  end.

(** The prototypes that a value of each kind inherits from. *)
Definition chain_of_kind (k : Kind) : list Proto :=
  match k with
  | object_kind => [ObjectPrototype]
  | array_kind => [ArrayPrototype; ObjectPrototype]
  | string_kind => [StringPrototype; ObjectPrototype]
  | number_kind => [NumberPrototype; ObjectPrototype]
  | boolean_kind => [BooleanPrototype; ObjectPrototype]
  end.

Definition first_of (chain : list Proto) : Member builtin :=
  match chain with
  | p :: _ => MBuiltin (Prototype p)
  | [] => MPrimitive PNull
  end.

Definition inherited (k : Kind) (key : string) : option (Member builtin) :=
  along (chain_of_kind k) (first_of (chain_of_kind k)) key.

(** The prototype object itself, then those it inherits from. *)
Definition chain_of_builtin (b : builtin) : list Proto :=
  match b with
  | Prototype ObjectPrototype => [ObjectPrototype]
  | Prototype p => [p; ObjectPrototype]
  | Function _ _ => [FunctionPrototype; ObjectPrototype]
  end.

(** The own properties of a built-in function: [name], [length], and
    [prototype] on a constructor. *)
Definition own_of_function (name : string) (arity : Z) (key : string)
  : option (Member builtin) :=
  if String.eqb key "name" then Some (MPrimitive (PStr name))
  else if String.eqb key "length"
  then Some (MPrimitive (PNum (IntNumber.IInt arity)))
  else if String.eqb key "prototype" then
    if String.eqb name "Object" then Some (MBuiltin (Prototype ObjectPrototype))
    else if String.eqb name "Array" then Some (MBuiltin (Prototype ArrayPrototype))
    else if String.eqb name "String" then Some (MBuiltin (Prototype StringPrototype))
    else if String.eqb name "Number" then Some (MBuiltin (Prototype NumberPrototype))
    else if String.eqb name "Boolean"
    then Some (MBuiltin (Prototype BooleanPrototype))
    else if String.eqb name "Function"
    then Some (MBuiltin (Prototype FunctionPrototype))
    else None
  else None.

(** [b[key]], if [b] has or inherits the property.  The accessors
    [arguments] and [caller] of [Function.prototype], which no run of the
    program reads, are left out. *)
Definition find_builtin (b : builtin) (key : string)
  : option (Member builtin) :=
  match b with
  | Prototype ObjectPrototype =>
      along [ObjectPrototype] (MPrimitive PNull) key
  | Prototype p =>
      along [p; ObjectPrototype] (MBuiltin (Prototype ObjectPrototype)) key
  | Function name arity =>
      match own_of_function name arity key with
      | Some m => Some m
      | None =>
          along [FunctionPrototype; ObjectPrototype]
            (MBuiltin (Prototype FunctionPrototype)) key
      end
  end.

Definition get_builtin (b : builtin) (key : string) : Member builtin :=
  match find_builtin b key with
  | Some m => m
  | None => MPrimitive PUndefined
  end.

Definition in_builtin (key : string) (b : builtin) : bool :=
  is_some (find_builtin b key).

Definition typeof_builtin (b : builtin) : string :=
  match b with
  | Prototype FunctionPrototype => "function"
  | Prototype _ => "object"
  | Function _ _ => "function"
  end.

Definition isArray_builtin (b : builtin) : bool :=
  match b with
  | Prototype ArrayPrototype => true
  | _ => false
  end.

(** The text of a built-in function. *)
Definition function_text (name : string) : string :=
  "function " ++ name ++ "() { [native code] }".

Definition ToPrimitive_builtin (hint : Hint) (b : builtin) : Primitive :=
  match b with
  | Prototype ObjectPrototype => PStr "[object Object]"
  | Prototype ArrayPrototype => PStr EmptyString
  | Prototype StringPrototype => PStr EmptyString
  | Prototype NumberPrototype =>
      match hint with
      | hint_number => PNum (IntNumber.IInt 0)
      | hint_string => PStr "0"
      end
  | Prototype BooleanPrototype =>
      match hint with
      | hint_number => PBool false
      | hint_string => PStr "false"
      end
  | Prototype FunctionPrototype => PStr (function_text EmptyString)
  | Function name _ => PStr (function_text name)
  end.

Definition JSON_stringify_builtin (b : builtin) : option string :=
  match b with
  | Prototype ObjectPrototype => Some "{}"
  | Prototype ArrayPrototype => Some "[]"
  | Prototype StringPrototype =>
      Some (String quote_char (String quote_char EmptyString))
  | Prototype NumberPrototype => Some "0"
  | Prototype BooleanPrototype => Some "false"
  | Prototype FunctionPrototype => None
  | Function _ _ => None
  end.

(** SameValueZero on the integers. *)
Definition SameValueZero_number (a b : number) : bool :=
  match a, b with
  | IntNumber.INaN, IntNumber.INaN => true
  | IntNumber.IInt x, IntNumber.IInt y => Z.eqb x y
  | _, _ => false
  end.

Definition num_add (a b : number) : number :=
  match a, b with
  | IntNumber.IInt x, IntNumber.IInt y => IntNumber.IInt (x + y)
  | _, _ => IntNumber.INaN
  end.

Lemma schema_names_own (k : Kind) (name : string) :
  In name ["required"; "properties"; "type"; "enum"] ->
  inherited k name = None.
Proof.
  intros [<- | [<- | [<- | [<- | []]]]]; destruct k; reflexivity.
Qed.

Lemma object_builtin_stringified (b : builtin) :
  typeof_builtin b = "object" -> JSON_stringify_builtin b <> None.
Proof. destruct b as [[] | name arity]; simpl; congruence. Qed.

End Node.

Definition Node_Platform : @Platform IntNumber_JSNumber := {|
  SameValueZero_number := Node.SameValueZero_number;
  num_add := Node.num_add;
  builtin := Node.builtin;
  typeof_builtin := Node.typeof_builtin;
  isArray_builtin := Node.isArray_builtin;
  ToPrimitive_builtin := Node.ToPrimitive_builtin;
  JSON_stringify_builtin := Node.JSON_stringify_builtin;
  in_builtin := Node.in_builtin;
  get_builtin := Node.get_builtin;
  inherited := Node.inherited;
  schema_names_own := Node.schema_names_own;
  object_builtin_stringified := Node.object_builtin_stringified
|}.

(* ================================================================= *)
(** ** Worked examples *)

Module Examples.

#[local] Existing Instance IntNumber_JSNumber.
#[local] Existing Instance Node_Platform.

Definition num (z : Z) : Value := VNum (IntNumber.IInt z).

(** [{ "x": [ {"a": true, "b": false} ] }] *)
Definition keys_ab : Obj :=
  [("x", VArr [VObj [("a", VBool true); ("b", VBool false)]])].

(** [{ "x": [ {"b": false, "a": true} ] }] *)
Definition keys_ba : Obj :=
  [("x", VArr [VObj [("b", VBool false); ("a", VBool true)]])].

(** [{ "a": 1, "db": {"host": "a"} }] *)
Definition config_v1 : Obj :=
  [("a", num 1); ("db", VObj [("host", VStr "a")])].

(** [{ "a": 1, "b": 2, "db": {"host": "b", "port": 5432} }] *)
Definition config_v2 : Obj :=
  [("a", num 1); ("b", num 2);
   ("db", VObj [("host", VStr "b"); ("port", num 5432)])].

(** A directory with a configuration under two names, a broken history
    file, and something that is not a text file. *)
Definition disk : FileSystem :=
  fun path =>
    if String.eqb path "app.conf" then Some (Content "port: 8080")
    else if String.eqb path "app.yaml" then Some (Content "port: 8080")
    else if String.eqb path "history.json" then Some (Content "[{oops")
    else if String.eqb path "lost+found" then Some Unreadable
    else None.

(** An entry of [pathCounts]: a path with its count, a number. *)
Definition counted (e : string * nat) : string * Value :=
  (fst e, num (Z.of_nat (snd e))).

(** [`${path} (${count}x)`], as it prints such an entry. *)
Definition printed (e : string * nat) : string :=
  fst e ++ " (" ++ NumberToString (IntNumber.IInt (Z.of_nat (snd e))) ++ "x)".

Definition entry (paths : list string) : HistoryEntry :=
  mkHistoryEntry "run" "2024-01-01T00:00:00.000Z" "a.json" "b.json"
    (Some (map (fun p => Modified p (num 1) (num 2)) paths)) []
    "Низкий" (mkSummary (List.length paths) 0 0 (List.length paths)).

(** Three runs: [db.host] changed in each, [timeout] in two. *)
Definition three_runs : list HistoryEntry :=
  [entry ["db.host"; "timeout"]; entry ["db.host"];
   entry ["timeout"; "db.host"]].

(** Three runs: the top-level keys [toString] and [port] changed in each. *)
Definition runs_of_toString : list HistoryEntry :=
  [entry ["toString"; "port"]; entry ["port"; "toString"];
   entry ["toString"; "port"]].

End Examples.

(** Further examples: a history file that holds an array, one that holds
    an object, and a schema with a document that breaks it in four
    places. *)
Module Samples.

#[local] Existing Instance IntNumber_JSNumber.
#[local] Existing Instance Node_Platform.

(** A stand-in for the pretty printer: the compact serialisation. *)
Definition pretty (v : Value) : string :=
  match JSON_stringify v with
  | Some s => s
  | None => "null"
  end.

Definition store : FileSystem :=
  fun path =>
    if String.eqb path "history.json" then Some (Content "[1, 2]")
    else if String.eqb path "object.json" then Some (Content "{}")
    else None.

(** [{ "required": ["name", "port"],
       "properties": { "mode": {"type": "string", "enum": ["fast", "safe"]},
                       "port": {"type": "number"},
                       "db": {"type": "object",
                              "properties": {"host": {"type": "string"}}} } }] *)
Definition service_schema : Obj :=
  [("required", VArr [VStr "name"; VStr "port"]);
   ("properties",
    VObj [("mode", VObj [("type", VStr "string");
                         ("enum", VArr [VStr "fast"; VStr "safe"])]);
          ("port", VObj [("type", VStr "number")]);
          ("db", VObj [("type", VStr "object");
                       ("properties",
                        VObj [("host", VObj [("type", VStr "string")])])])])].

(** [{ "port": "8080", "mode": "slow", "db": {"host": 5} }] *)
Definition service : Obj :=
  [("port", VStr "8080"); ("mode", VStr "slow");
   ("db", VObj [("host", Examples.num 5)])].

End Samples.

(* ================================================================= *)
(** * Auxiliary facts about lists, strings and loops *)

Lemma mem_string_In (x : string) (l : list string) :
  mem_string x l = true <-> In x l.
Proof.
  unfold mem_string. rewrite existsb_exists. split.
  - intros (y & Hy & E). apply String.eqb_eq in E. now subst.
  - intros H. exists x. split; [assumption | apply String.eqb_refl].
Qed.

Lemma mem_string_cons (x k : string) (seen : list string) :
  mem_string x (k :: seen) = (String.eqb x k || mem_string x seen)%bool.
Proof. reflexivity. Qed.

Lemma set_of_keys_In (k : string) (keys : list string) :
  forall seen,
    In k (set_of_keys seen keys) <-> In k keys /\ mem_string k seen = false.
Proof.
  induction keys as [| k0 rest IH]; intros seen; simpl; [tauto |].
  destruct (mem_string k0 seen) eqn:E0.
  - rewrite IH. split; [tauto |]. intros [[-> | H] Hs]; [congruence | tauto].
  - simpl. rewrite IH, mem_string_cons. split.
    + intros [-> | [H Hs]]; [tauto |].
      apply orb_false_iff in Hs. tauto.
    + intros [[-> | H] Hs]; [tauto |].
      destruct (String.eqb k k0) eqn:E; [apply String.eqb_eq in E; subst; tauto |].
      right. rewrite Hs. tauto.
Qed.

Lemma set_of_keys_NoDup (keys : list string) :
  forall seen,
    NoDup keys -> (forall k, In k keys -> ~ In k seen) ->
    set_of_keys seen keys = keys.
Proof.
  induction keys as [| k rest IH]; intros seen Hnd Hs; [reflexivity |].
  cbn [set_of_keys]. inversion Hnd as [| ? ? Hout Hrest]; subst.
  destruct (mem_string k seen) eqn:E.
  - apply mem_string_In in E. exfalso. apply (Hs k); simpl; auto.
  - f_equal. apply IH; [assumption |].
    intros x Hx [<- | Hin]; [contradiction |]. apply (Hs x); simpl; auto.
Qed.

(** What a loop returns is what its turns return, put together. *)
Lemma for_each_In {A B : Type} (f : A -> Outcome (list B)) (l : list A) :
  forall out : list B,
    for_each l f = Returned out ->
    (forall k, In k l -> exists ys, f k = Returned ys)
    /\ forall x, In x out <->
                 exists k ys, In k l /\ f k = Returned ys /\ In x ys.
Proof.
  induction l as [| k0 rest IH]; cbn [for_each]; intros out.
  - intros [= <-]. split; [intros k [] |]. intros x. split; [intros [] |].
    intros (k & ys & [] & _).
  - destruct (f k0) as [ys0 |] eqn:E0; [| discriminate]. cbn [and_then].
    destruct (for_each rest f) as [zs |] eqn:Er; [| discriminate].
    cbn [and_then]. intros [= <-]. destruct (IH zs eq_refl) as [IH1 IH2].
    split.
    + intros k [<- | Hk]; eauto.
    + intros x. rewrite in_app_iff, IH2. split.
      * intros [H | (k & ys & Hk & Hf & Hx)].
        -- exists k0, ys0. simpl. auto.
        -- exists k, ys. simpl. auto.
      * intros (k & ys & [<- | Hk] & Hf & Hx).
        -- left. congruence.
        -- right. eauto.
Qed.

(** A loop returns as soon as each of its turns does. *)
Lemma for_each_returns {A B : Type} (f : A -> Outcome (list B)) (l : list A) :
  (forall k, In k l -> exists ys, f k = Returned ys) ->
  exists out, for_each l f = Returned out.
Proof.
  induction l as [| k0 rest IH]; intros H; cbn [for_each]; [eauto |].
  destruct (H k0 (or_introl eq_refl)) as [ys ->].
  destruct IH as [zs ->]; [intros k Hk; apply H; now right |].
  cbn [and_then]. eauto.
Qed.

Lemma for_each_agree {A B : Type} (f g : A -> Outcome (list B)) (l : list A) :
  (forall k, In k l -> f k = g k) -> for_each l f = for_each l g.
Proof.
  induction l as [| k0 rest IH]; intros H; cbn [for_each]; [reflexivity |].
  rewrite (H k0 (or_introl eq_refl)), IH; [reflexivity |].
  intros k Hk. apply H. now right.
Qed.

Lemma for_each_nothing {A B : Type} (f : A -> Outcome (list B)) (l : list A) :
  (forall k, In k l -> f k = Returned []) -> for_each l f = Returned [].
Proof.
  induction l as [| k0 rest IH]; intros H; cbn [for_each]; [reflexivity |].
  rewrite (H k0 (or_introl eq_refl)), IH; [reflexivity |].
  intros k Hk. apply H. now right.
Qed.

Lemma for_each_entries {A B : Type} (f : string -> Outcome (list B))
  (g : string * A -> B) (l : list (string * A)) :
  (forall kv, In kv l -> f (fst kv) = Returned [g kv]) ->
  for_each (map fst l) f = Returned (map g l).
Proof.
  induction l as [| kv rest IH]; intros H; [reflexivity |].
  cbn [map for_each]. rewrite (H kv (or_introl eq_refl)), IH; [reflexivity |].
  intros kv' Hkv. apply H. now right.
Qed.

Lemma insert_by_index_perm {A : Type} (i : N) (e : A) (l : list (N * A)) :
  Permutation (insert_by_index i e l) ((i, e) :: l).
Proof.
  induction l as [| [j x] rest IH]; cbn [insert_by_index]; [reflexivity |].
  destruct (i <? j)%N; [reflexivity |].
  rewrite IH. apply perm_swap.
Qed.

Lemma index_entries_perm {A : Type} (l : list (string * A)) :
  Permutation (map snd (index_entries l))
    (filter (fun e => is_some (array_index (fst e))) l).
Proof.
  induction l as [| [k x] rest IH]; cbn [index_entries filter fst];
    [reflexivity |].
  destruct (array_index k) as [i |]; cbn [is_some]; [| exact IH].
  rewrite (Permutation_map snd (insert_by_index_perm i (k, x) _)).
  cbn [map snd]. now constructor.
Qed.

Lemma filter_partition {A : Type} (f : A -> bool) (l : list A) :
  Permutation (filter f l ++ filter (fun x => negb (f x)) l) l.
Proof.
  induction l as [| x rest IH]; cbn [filter]; [reflexivity |].
  destruct (f x); cbn [negb app].
  - now constructor.
  - rewrite <- Permutation_middle. now constructor.
Qed.

(** The order of the language holds the same entries. *)
Lemma ordered_perm {A : Type} (l : list (string * A)) :
  Permutation (ordered l) l.
Proof.
  unfold ordered. rewrite index_entries_perm. apply filter_partition.
Qed.

Lemma ordered_In {A : Type} (l : list (string * A)) (e : string * A) :
  In e (ordered l) <-> In e l.
Proof.
  split; apply Permutation_in;
    [apply ordered_perm | apply Permutation_sym, ordered_perm].
Qed.

(** Without array indices among the keys, the order of the language is the
    order of creation. *)
Lemma ordered_plain {A : Type} (l : list (string * A)) :
  Forall (fun e => array_index (fst e) = None) l -> ordered l = l.
Proof.
  intros H. unfold ordered.
  assert (E1 : index_entries l = []).
  { induction H as [| [k x] rest Hk _ IH]; [reflexivity |].
    cbn [index_entries]. cbn [fst] in Hk. now rewrite Hk. }
  rewrite E1. clear E1. cbn [map app].
  induction H as [| e rest He _ IH]; [reflexivity |].
  cbn [filter]. rewrite He. cbn [is_some negb]. now rewrite IH.
Qed.

Lemma string_append_empty (s : string) : s ++ EmptyString = s.
Proof. induction s as [| c s IH]; simpl; [reflexivity | now rewrite IH]. Qed.

Lemma string_append_assoc (a b c : string) : (a ++ b) ++ c = a ++ b ++ c.
Proof. induction a as [| x a IH]; simpl; [reflexivity | now rewrite IH]. Qed.

Lemma string_length_append (a b : string) :
  String.length (a ++ b) = String.length a + String.length b.
Proof. induction a as [| x a IH]; simpl; [reflexivity | now rewrite IH]. Qed.

(* ================================================================= *)
(** * Properties of the differ *)

Section DifferProperties.

Context {N : JSNumber} {P : Platform}.

Lemma depth_lookup (key : string) (obj : Obj) (v : Value) :
  lookup key obj = Some v -> depth v < depth (VObj obj).
Proof.
  simpl. induction obj as [| [k x] rest IH]; simpl; [discriminate |].
  destruct (String.eqb k key).
  - intros [= ->]. lia.
  - intros H. specialize (IH H). lia.
Qed.

Lemma depth_nth_error (items : list Value) (i : nat) (v : Value) :
  nth_error items i = Some v -> depth v < depth (VArr items).
Proof.
  simpl. revert i. induction items as [| x rest IH]; intros [| i]; simpl;
    try discriminate.
  - intros [= ->]. lia.
  - intros H. specialize (IH _ H). lia.
Qed.

Lemma depth_member (m : Member builtin) : depth (value_of_member m) = 0.
Proof. destruct m as [[] |]; reflexivity. Qed.

(** A property read finds a value that is nested less deeply, or not
    nested at all. *)
Lemma depth_get (v : Value) (key : string) :
  depth (optional_get v key) < depth v \/ depth (optional_get v key) = 0.
Proof.
  assert (Hin : forall w, depth match inherited_by w key with
                                | Some m => value_of_member m
                                | None => VUndefined
                                end = 0).
  { intros w. destruct (inherited_by w key); [apply depth_member | reflexivity]. }
  destruct v as [| | b | n | s | items | props | b];
    cbn [optional_get get own_property]; auto.
  - right. destruct (String.eqb key "length"); [reflexivity |].
    destruct (index_of key (List.length (code_units s))) as [i |]; [| apply Hin].
    destruct (nth_error (code_units s) i); [reflexivity | apply Hin].
  - destruct (String.eqb key "length"); [right; reflexivity |].
    destruct (index_of key (List.length items)) as [i |]; [| right; apply Hin].
    destruct (nth_error items i) as [x |] eqn:E; [| right; apply Hin].
    left. exact (depth_nth_error _ _ _ E).
  - destruct (lookup key props) as [x |] eqn:E; [| right; apply Hin].
    left. exact (depth_lookup _ _ _ E).
  - right. apply depth_member.
Qed.

Lemma allKeys_In (k : string) (objA objB : Value) :
  In k (allKeys objA objB) <->
  In k (Object_keys (or_empty objA)) \/ In k (Object_keys (or_empty objB)).
Proof.
  unfold allKeys. rewrite set_of_keys_In, in_app_iff. simpl. tauto.
Qed.

Lemma allKeys_comm (k : string) (objA objB : Value) :
  In k (allKeys objA objB) <-> In k (allKeys objB objA).
Proof. rewrite !allKeys_In. tauto. Qed.

Lemma lookup_In_keys (key : string) (props : Obj) :
  In key (map fst props) <-> exists v, lookup key props = Some v.
Proof.
  induction props as [| [k x] rest IH]; cbn [map fst In lookup].
  - split; [intros [] | intros [v Hv]; discriminate].
  - destruct (String.eqb k key) eqn:E.
    + apply String.eqb_eq in E. split; eauto.
    + apply String.eqb_neq in E. rewrite IH. split; [| tauto].
      intros [H | H]; [contradiction | assumption].
Qed.

Lemma Object_keys_plain (key : string) (props : Obj) :
  In key (Object_keys (VObj props)) <-> exists v, lookup key props = Some v.
Proof.
  unfold Object_keys. rewrite <- lookup_In_keys. rewrite !in_map_iff.
  split; intros ([k x] & E & H); exists (k, x); (split; [exact E |]);
    now apply ordered_In.
Qed.

Lemma index_of_indices (key : string) (len : nat) :
  In key (indices len) <-> exists i, index_of key len = Some i.
Proof.
  unfold indices, index_of. rewrite in_map_iff. split.
  - intros (i & E & Hi).
    destruct (find (fun i => String.eqb (nat_to_string i) key) (seq 0 len))
      as [j |] eqn:F; [eauto |].
    apply (find_none _ _ F) in Hi. rewrite E, String.eqb_refl in Hi.
    discriminate.
  - intros [i F]. apply find_some in F. destruct F as [Hi E].
    apply String.eqb_eq in E. eauto.
Qed.

Lemma index_of_bound (key : string) (len i : nat) :
  index_of key len = Some i -> i < len.
Proof.
  unfold index_of. intros F. apply find_some in F. destruct F as [Hi _].
  apply in_seq in Hi. lia.
Qed.

(** An own key of an object or of an array is in it, and is read as an own
    property. *)
Lemma own_key (key : string) (v : Value) (b : bool) :
  In key (Object_keys v) -> has_key key v = Returned b ->
  b = true /\ 0 < depth v
  /\ exists x, own_property v key = Some x /\ get v key = x.
Proof.
  destruct v as [| | c | n | s | items | props | c]; cbn [Object_keys];
    try (intros []); try discriminate.
  - intros Hk. cbn [has_key get]. apply index_of_indices in Hk.
    destruct Hk as [i Hi]. pose proof (index_of_bound _ _ _ Hi) as Hlt.
    destruct (nth_error items i) as [x |] eqn:Ex;
      [| apply nth_error_None in Ex; lia].
    assert (Eo : own_property (VArr items) key
                 = Some (if String.eqb key "length"
                         then length_value (List.length items) else x)).
    { cbn [own_property]. destruct (String.eqb key "length"); [reflexivity |].
      now rewrite Hi, Ex. }
    rewrite Eo. cbn [is_some orb]. intros [= <-].
    split; [reflexivity |]. split; [simpl; lia | eauto].
  - intros Hk. cbn [has_key get]. apply Object_keys_plain in Hk.
    destruct Hk as [x Hx]. cbn [own_property]. rewrite Hx. cbn [is_some orb].
    intros [= <-]. split; [reflexivity |]. split; [simpl; lia | eauto].
Qed.

Lemma or_empty_keys (key : string) (v : Value) :
  In key (Object_keys (or_empty v)) -> or_empty v = v.
Proof.
  unfold or_empty. destruct (truthy v); [reflexivity |]. intros [].
Qed.

(** Where the differ calls itself, the two values are nested less deeply
    than the two it was called on. *)
Lemma recursion_depth (key : string) (objA objB : Value) :
  In key (allKeys objA objB) ->
  has_key key (or_empty objA) = Returned true ->
  has_key key (or_empty objB) = Returned true ->
  depth (optional_get objA key) + depth (optional_get objB key)
  < depth objA + depth objB.
Proof.
  intros Hk HA HB. apply allKeys_In in Hk.
  pose proof (depth_get objA key) as DA. pose proof (depth_get objB key) as DB.
  destruct Hk as [Hk | Hk]; pose proof (or_empty_keys _ _ Hk) as E;
    rewrite E in *.
  - destruct (own_key _ _ _ Hk HA) as (_ & Hpos & _). lia.
  - destruct (own_key _ _ _ Hk HB) as (_ & Hpos & _). lia.
Qed.

(** Fuel beyond the depth of the two values changes nothing. *)
Lemma compareObjects_fuel_enough (n : nat) :
  forall (m : nat) (objA objB : Value) (path : string),
    depth objA + depth objB < n -> depth objA + depth objB < m ->
    compareObjects_fuel n objA objB path = compareObjects_fuel m objA objB path.
Proof.
  induction n as [| n IH]; intros m objA objB path Hn Hm; [lia |].
  destruct m as [| m]; [lia |].
  cbn [compareObjects_fuel]. apply for_each_agree. intros key Hk. cbv zeta.
  destruct (has_key key (or_empty objA)) as [[|] |] eqn:HA; try reflexivity.
  cbn [and_then negb].
  destruct (has_key key (or_empty objB)) as [[|] |] eqn:HB; try reflexivity.
  cbn [and_then negb].
  destruct (both_plain_objects _ _); [| reflexivity].
  pose proof (recursion_depth _ _ _ Hk HA HB). apply IH; lia.
Qed.

(** The recursive equation of the source: [compareObjects] walks the union
    of the own keys and calls itself on two values that pass the test. *)
Lemma compareObjects_unfold (objA objB : Value) (path : string) :
  compareObjects objA objB path =
  for_each (allKeys objA objB)
    (fun key =>
       let cur := currentPath path key in
       let valueA := optional_get objA key in
       let valueB := optional_get objB key in
       and_then (has_key key (or_empty objA)) (fun inA =>
       if negb inA then Returned [Added cur valueB]
       else
         and_then (has_key key (or_empty objB)) (fun inB =>
         if negb inB then Returned [Removed cur valueA]
         else if both_plain_objects valueA valueB
         then compareObjects valueA valueB cur
         else if stringified_differ (JSON_stringify valueA)
                                    (JSON_stringify valueB)
         then Returned [Modified cur valueA valueB]
         else Returned []))).
Proof.
  unfold compareObjects at 1. cbn [compareObjects_fuel].
  apply for_each_agree. intros key Hk. cbv zeta.
  destruct (has_key key (or_empty objA)) as [[|] |] eqn:HA; try reflexivity.
  cbn [and_then negb].
  destruct (has_key key (or_empty objB)) as [[|] |] eqn:HB; try reflexivity.
  cbn [and_then negb].
  destruct (both_plain_objects _ _); [| reflexivity].
  pose proof (recursion_depth _ _ _ Hk HA HB).
  unfold compareObjects. apply compareObjects_fuel_enough; lia.
Qed.

Lemma both_plain_objects_comm (valueA valueB : Value) :
  both_plain_objects valueA valueB = both_plain_objects valueB valueA.
Proof.
  unfold both_plain_objects.
  destruct (String.eqb (typeof valueA) "object"),
    (String.eqb (typeof valueB) "object"), (is_null valueA), (is_null valueB),
    (Array_isArray valueA), (Array_isArray valueB); reflexivity.
Qed.

Lemma both_plain_objects_text (s : string) (v : Value) :
  both_plain_objects (VStr s) v = false.
Proof. reflexivity. Qed.

Lemma stringified_differ_same (o : option string) :
  stringified_differ o o = false.
Proof.
  destruct o as [x |]; simpl; [| reflexivity]. now rewrite String.eqb_refl.
Qed.

Lemma stringified_differ_true (a b : option string) :
  stringified_differ a b = true <-> a <> b.
Proof.
  destruct a as [x |], b as [y |]; simpl; split; try congruence;
    try discriminate.
  - intros H E. injection E as ->. rewrite String.eqb_refl in H. discriminate.
  - intros H. destruct (String.eqb x y) eqn:E; [| reflexivity].
    apply String.eqb_eq in E. congruence.
Qed.

End DifferProperties.

Section DifferTheorems.

Context {N : JSNumber} {P : Platform}.

Lemma both_plain_objects_not_text (valueA valueB : Value) :
  both_plain_objects valueA valueB = true -> is_text valueA = false.
Proof. destruct valueA; try reflexivity. discriminate. Qed.

(** The turn of the walk for a key that both sides have. *)
Lemma turn_of_shared_key (fuel : nat) (objA objB : Value) (path key : string) :
  has_key key (or_empty objA) = Returned true ->
  has_key key (or_empty objB) = Returned true ->
  and_then (has_key key (or_empty objA)) (fun inA =>
    if negb inA then Returned [Added (currentPath path key)
                                 (optional_get objB key)]
    else
      and_then (has_key key (or_empty objB)) (fun inB =>
      if negb inB then Returned [Removed (currentPath path key)
                                   (optional_get objA key)]
      else if both_plain_objects (optional_get objA key) (optional_get objB key)
      then compareObjects_fuel fuel (optional_get objA key)
             (optional_get objB key) (currentPath path key)
      else if stringified_differ (JSON_stringify (optional_get objA key))
                                 (JSON_stringify (optional_get objB key))
      then Returned [Modified (currentPath path key) (optional_get objA key)
                       (optional_get objB key)]
      else Returned []))
  = if both_plain_objects (optional_get objA key) (optional_get objB key)
    then compareObjects_fuel fuel (optional_get objA key)
           (optional_get objB key) (currentPath path key)
    else if stringified_differ (JSON_stringify (optional_get objA key))
                               (JSON_stringify (optional_get objB key))
    then Returned [Modified (currentPath path key) (optional_get objA key)
                     (optional_get objB key)]
    else Returned [].
Proof. intros -> ->. reflexivity. Qed.

(** A value other than a text, compared with itself, gives no record. *)
Lemma compareObjects_fuel_same (fuel : nat) :
  forall (v : Value) (path : string),
    is_text v = false -> compareObjects_fuel fuel v v path = Returned [].
Proof.
  induction fuel as [| fuel IH]; intros v path Hv; [reflexivity |].
  cbn [compareObjects_fuel]. apply for_each_nothing. intros key Hk. cbv zeta.
  apply allKeys_In in Hk. assert (Hkey : In key (Object_keys (or_empty v)))
    by tauto. clear Hk.
  pose proof (or_empty_keys _ _ Hkey) as E. rewrite E in Hkey.
  assert (Hin : has_key key (or_empty v) = Returned true).
  { rewrite E. destruct v as [| | b | n | s | items | props | b];
      cbn [Object_keys] in Hkey; try (destruct Hkey).
    - destruct s; [destruct Hkey | discriminate].
    - cbn [has_key]. f_equal.
      exact (proj1 (own_key key (VArr items) _ Hkey eq_refl)).
    - cbn [has_key]. f_equal.
      exact (proj1 (own_key key (VObj props) _ Hkey eq_refl)). }
  rewrite (turn_of_shared_key _ _ _ _ _ Hin Hin).
  destruct (both_plain_objects _ _) eqn:Eb.
  - apply IH. exact (both_plain_objects_not_text _ _ Eb).
  - now rewrite stringified_differ_same.
Qed.

Lemma code_units_nonempty (s : string) :
  s <> EmptyString -> code_units s <> [].
Proof.
  destruct s as [| a rest]; [congruence |]. intros _. cbn [code_units].
  cbv zeta. destruct (nat_of_ascii a <? 192)%nat; [discriminate |].
  destruct rest as [| b rest]; [discriminate |].
  destruct (nat_of_ascii a <? 224)%nat; [discriminate |].
  destruct rest as [| c rest]; [discriminate |].
  destruct (nat_of_ascii a <? 240)%nat; [discriminate |].
  destruct rest as [| d rest]; discriminate.
Qed.

(** With a text that is not empty on the left, the differ throws: the
    first key is a position of the text, and [in] refuses a text. *)
Lemma compareObjects_text_left (s : string) (objB : Value) (path : string) :
  s <> EmptyString -> compareObjects (VStr s) objB path = TypeError.
Proof.
  intros Hs. unfold compareObjects. cbn [compareObjects_fuel].
  assert (E : or_empty (VStr s) = VStr s).
  { unfold or_empty. cbn [truthy]. apply String.eqb_neq in Hs. now rewrite Hs. }
  unfold allKeys. rewrite E. cbn [Object_keys].
  pose proof (code_units_nonempty s Hs) as Hu.
  destruct (code_units s) as [| u us]; [congruence |].
  cbn [List.length seq indices map app set_of_keys mem_string existsb].
  cbn [for_each]. reflexivity.
Qed.

(** What [diff(A, A)] does, for every document [A]: it throws a TypeError
    when [A] is a text that is not empty, and returns no record for every
    other document. *)
Lemma compareObjects_same (A : Value) (path : string) :
  compareObjects A A path = if is_text A then TypeError else Returned [].
Proof.
  destruct (is_text A) eqn:E.
  - destruct A; try discriminate. apply compareObjects_text_left.
    cbn in E. intros ->. discriminate.
  - now apply compareObjects_fuel_same.
Qed.

(** When the key is not in [objA], it is an own key of [objB]. *)
Lemma key_of_the_other (key : string) (objA objB : Value) (b : bool) :
  In key (allKeys objA objB) ->
  has_key key (or_empty objA) = Returned false ->
  has_key key (or_empty objB) = Returned b -> b = true.
Proof.
  intros Hk HA HB. apply allKeys_In in Hk. destruct Hk as [Hk | Hk].
  - pose proof (or_empty_keys _ _ Hk) as E. rewrite E in *.
    destruct (own_key _ _ _ Hk HA) as [? _]. discriminate.
  - pose proof (or_empty_keys _ _ Hk) as E. rewrite E in *.
    now destruct (own_key _ _ _ Hk HB) as [? _].
Qed.

(** Whenever both [compareObjects(A, B)] and [compareObjects(B, A)] return,
    what the one reports as Added the other reports as Removed. *)
Lemma compareObjects_fuel_mirror (fuel : nat) :
  forall (objA objB : Value) (path : string) (out1 out2 : list Change)
         (p : string) (v : Value),
    compareObjects_fuel fuel objA objB path = Returned out1 ->
    compareObjects_fuel fuel objB objA path = Returned out2 ->
    (In (Added p v) out1 -> In (Removed p v) out2)
    /\ (In (Removed p v) out1 -> In (Added p v) out2).
Proof.
  induction fuel as [| fuel IH]; intros objA objB path out1 out2 p v H1 H2.
  - injection H1 as <-. split; intros [].
  - cbn [compareObjects_fuel] in H1, H2.
    destruct (for_each_In _ _ _ H1) as [R1 I1].
    destruct (for_each_In _ _ _ H2) as [R2 I2]. clear H1 H2.
    assert (turn : forall key ys zs,
               In key (allKeys objA objB) ->
               (let cur := currentPath path key in
                let valueA := optional_get objA key in
                let valueB := optional_get objB key in
                and_then (has_key key (or_empty objA)) (fun inA =>
                if negb inA then Returned [Added cur valueB]
                else
                  and_then (has_key key (or_empty objB)) (fun inB =>
                  if negb inB then Returned [Removed cur valueA]
                  else if both_plain_objects valueA valueB
                  then compareObjects_fuel fuel valueA valueB cur
                  else if stringified_differ (JSON_stringify valueA)
                                             (JSON_stringify valueB)
                  then Returned [Modified cur valueA valueB]
                  else Returned []))) = Returned ys ->
               (let cur := currentPath path key in
                let valueA := optional_get objB key in
                let valueB := optional_get objA key in
                and_then (has_key key (or_empty objB)) (fun inA =>
                if negb inA then Returned [Added cur valueB]
                else
                  and_then (has_key key (or_empty objA)) (fun inB =>
                  if negb inB then Returned [Removed cur valueA]
                  else if both_plain_objects valueA valueB
                  then compareObjects_fuel fuel valueA valueB cur
                  else if stringified_differ (JSON_stringify valueA)
                                             (JSON_stringify valueB)
                  then Returned [Modified cur valueA valueB]
                  else Returned []))) = Returned zs ->
               (In (Added p v) ys -> In (Removed p v) zs)
               /\ (In (Removed p v) ys -> In (Added p v) zs)).
    { intros key ys zs Hk. cbv zeta.
      destruct (has_key key (or_empty objA)) as [[|] |] eqn:HA;
        destruct (has_key key (or_empty objB)) as [[|] |] eqn:HB;
        cbn [and_then negb]; try discriminate.
      - rewrite (both_plain_objects_comm (optional_get objB key)).
        destruct (both_plain_objects _ _).
        + intros Hy Hz. exact (IH _ _ _ _ _ p v Hy Hz).
        + intros Hy _.
          destruct (stringified_differ _ _) in Hy; injection Hy as <-;
            (split; intros Hin; simpl in Hin; intuition discriminate).
      - intros [= <-] [= <-]. split; intros [E | []]; [discriminate E |].
        left. congruence.
      - intros [= <-] [= <-]. split; intros [E | []]; [| discriminate E].
        left. congruence.
      - pose proof (key_of_the_other _ _ _ _ Hk HA HB). discriminate. }
    split; intros Hin.
    + apply I1 in Hin. destruct Hin as (key & ys & Hk & Hy & Hin).
      destruct (R2 key (proj1 (allKeys_comm _ _ _) Hk)) as [zs Hz].
      apply I2. exists key, zs. split; [now apply allKeys_comm |].
      split; [exact Hz |]. exact (proj1 (turn key ys zs Hk Hy Hz) Hin).
    + apply I1 in Hin. destruct Hin as (key & ys & Hk & Hy & Hin).
      destruct (R2 key (proj1 (allKeys_comm _ _ _) Hk)) as [zs Hz].
      apply I2. exists key, zs. split; [now apply allKeys_comm |].
      split; [exact Hz |]. exact (proj2 (turn key ys zs Hk Hy Hz) Hin).
Qed.

Lemma depth_sum_comm (a b : Value) : depth a + depth b = depth b + depth a.
Proof. lia. Qed.

(** Whenever both [diff(A, B)] and [diff(B, A)] return, the Added records
    of the one are the Removed records of the other, path and value. *)
Lemma diff_mirror (A B : Value) (out1 out2 : list Change)
  (p : string) (v : Value) :
  diff A B = Returned out1 -> diff B A = Returned out2 ->
  (In (Added p v) out1 <-> In (Removed p v) out2)
  /\ (In (Removed p v) out1 <-> In (Added p v) out2).
Proof.
  unfold diff, compareObjects. rewrite (depth_sum_comm B A). intros H1 H2.
  pose proof (compareObjects_fuel_mirror _ _ _ _ _ _ p v H1 H2) as [F1 F2].
  pose proof (compareObjects_fuel_mirror _ _ _ _ _ _ p v H2 H1) as [G1 G2].
  tauto.
Qed.

Lemma compareObjects_fuel_modified (fuel : nat) :
  forall (objA objB : Value) (path : string) (out : list Change)
         (p : string) (old new : Value),
    compareObjects_fuel fuel objA objB path = Returned out ->
    In (Modified p old new) out ->
    JSON_stringify old <> JSON_stringify new.
Proof.
  induction fuel as [| fuel IH]; intros objA objB path out p old new H Hin.
  - injection H as <-. destruct Hin.
  - cbn [compareObjects_fuel] in H. destruct (for_each_In _ _ _ H) as [_ I].
    apply I in Hin. destruct Hin as (key & ys & _ & Hy & Hin). cbv zeta in Hy.
    destruct (has_key key (or_empty objA)) as [[|] |];
      cbn [and_then negb] in Hy; try discriminate;
      [| injection Hy as <-; destruct Hin as [E | []]; discriminate E].
    destruct (has_key key (or_empty objB)) as [[|] |];
      cbn [and_then negb] in Hy; try discriminate;
      [| injection Hy as <-; destruct Hin as [E | []]; discriminate E].
    destruct (both_plain_objects _ _); [exact (IH _ _ _ _ _ _ _ Hy Hin) |].
    destruct (stringified_differ _ _) eqn:Es; injection Hy as <-;
      [| destruct Hin].
    destruct Hin as [[= <- <- <-] | []]. now apply stringified_differ_true.
Qed.

End DifferTheorems.

Section DifferRecords.

Context {N : JSNumber} {P : Platform}.

(** C6, where the code departs from it.  [diff(A, A)] is the empty list
    for every document [A] but a text that is not empty: on such a text,
    ["abc"] for one, the differ throws a [TypeError], since the keys of a
    text are its positions and [in] refuses a text on its right. *)
Theorem diff_identical_documents :
  (forall A : Value,
      diff A A = if is_text A then TypeError else Returned [])
  /\ diff (VStr "abc") (VStr "abc") = TypeError.
Proof.
  split.
  - intros A. apply compareObjects_same.
  - apply compareObjects_text_left. discriminate.
Qed.

(** C4, as the code has it. The two values of a Modified record have
    different JSON serialisations, so they are different values when the
    order of the keys of a mapping counts. *)
Theorem modified_values_differ (A B : Value) (changes : list Change)
  (p : string) (old new : Value) :
  diff A B = Returned changes ->
  In (Modified p old new) changes ->
  JSON_stringify old <> JSON_stringify new /\ old <> new.
Proof.
  intros H Hin.
  pose proof (compareObjects_fuel_modified _ _ _ _ _ _ _ _ H Hin) as Hs.
  split; [assumption |]. intros E. apply Hs. now rewrite E.
Qed.

Lemma present_true (key : string) (v : Value) :
  present key v = true <-> has_key key (or_empty v) = Returned true.
Proof.
  unfold present. destruct (has_key key (or_empty v)) as [[|] |];
    split; congruence.
Qed.

Lemma present_false (key : string) (v : Value) (b : bool) :
  has_key key (or_empty v) = Returned b -> present key v = b.
Proof. unfold present. intros ->. now destruct b. Qed.

Lemma path_of_step (path key : string) (ks : list string) :
  path_of (currentPath path key) ks = path_of path (key :: ks).
Proof. reflexivity. Qed.

Lemma compareObjects_fuel_sound (fuel : nat) :
  forall (objA objB : Value) (path : string) (out : list Change) (c : Change),
    compareObjects_fuel fuel objA objB path = Returned out ->
    In c out ->
    exists ks k a b,
      descend ks objA objB = Some (a, b)
      /\ change_path c = path_of path (ks ++ [k]) /\ record_at c k a b.
Proof.
  induction fuel as [| fuel IH]; intros objA objB path out c H Hin.
  - injection H as <-. destruct Hin.
  - cbn [compareObjects_fuel] in H. destruct (for_each_In _ _ _ H) as [_ I].
    apply I in Hin. destruct Hin as (key & ys & Hk & Hy & Hin). cbv zeta in Hy.
    destruct (has_key key (or_empty objA)) as [[|] |] eqn:HA;
      cbn [and_then negb] in Hy; try discriminate.
    + destruct (has_key key (or_empty objB)) as [[|] |] eqn:HB;
        cbn [and_then negb] in Hy; try discriminate.
      * destruct (both_plain_objects _ _) eqn:Eb.
        -- destruct (IH _ _ _ _ _ Hy Hin) as (ks & k & a & b & D & Hp & Hr).
           exists (key :: ks), k, a, b. cbn [descend].
           rewrite (proj2 (mem_string_In _ _) Hk).
           rewrite (proj2 (present_true _ _) HA), (proj2 (present_true _ _) HB).
           rewrite Eb. cbn [andb]. split; [exact D |]. split; [exact Hp |].
           exact Hr.
        -- destruct (stringified_differ _ _) eqn:Es; injection Hy as <-;
             [| destruct Hin].
           destruct Hin as [<- | []].
           exists [], key, objA, objB.
           split; [reflexivity |]. split; [reflexivity |]. unfold record_at.
           apply stringified_differ_true in Es.
           rewrite (proj2 (present_true _ _) HA), (proj2 (present_true _ _) HB).
           repeat split; auto.
      * injection Hy as <-. destruct Hin as [<- | []].
        exists [], key, objA, objB.
        split; [reflexivity |]. split; [reflexivity |]. unfold record_at.
        rewrite (proj2 (present_true _ _) HA), (present_false _ _ _ HB).
        repeat split; auto.
    + injection Hy as <-. destruct Hin as [<- | []].
      exists [], key, objA, objB.
      split; [reflexivity |]. split; [reflexivity |]. unfold record_at.
      rewrite (present_false _ _ _ HA). repeat split; auto.
Qed.

Lemma compareObjects_complete (ks : list string) :
  forall (objA objB a b : Value) (path k : string) (out : list Change)
         (c : Change),
    compareObjects objA objB path = Returned out ->
    descend ks objA objB = Some (a, b) ->
    change_path c = path_of path (ks ++ [k]) -> record_at c k a b ->
    In c out.
Proof.
  induction ks as [| k0 ks IH]; intros objA objB a b path k out c H D Hp Hr;
    rewrite compareObjects_unfold in H;
    destruct (for_each_In _ _ _ H) as [R I]; apply I; clear I H.
  - injection D as <- <-. destruct Hr as [Hk Hr].
    destruct (R k Hk) as [ys Hy]. exists k, ys. split; [exact Hk |].
    split; [exact Hy |]. cbv zeta in Hy.
    destruct (has_key k (or_empty objA)) as [inA |] eqn:HA;
      cbn [and_then] in Hy; [| discriminate].
    pose proof (present_false _ _ _ HA) as PA.
    cbn in Hp. destruct c as [p v | p v | p old new]; cbn in Hp; subst p.
    + destruct Hr as [Ha ->]. rewrite Ha in PA. subst inA.
      injection Hy as <-. now left.
    + destruct Hr as (Ha & Hb & ->). rewrite Ha in PA. subst inA.
      cbn [negb] in Hy.
      destruct (has_key k (or_empty objB)) as [inB |] eqn:HB;
        cbn [and_then] in Hy; [| discriminate].
      rewrite (present_false _ _ _ HB) in Hb. subst inB.
      injection Hy as <-. now left.
    + destruct Hr as (Ha & Hb & -> & -> & Hleaf & Hs).
      rewrite Ha in PA. subst inA. cbn [negb] in Hy.
      destruct (has_key k (or_empty objB)) as [inB |] eqn:HB;
        cbn [and_then] in Hy; [| discriminate].
      rewrite (present_false _ _ _ HB) in Hb. subst inB. cbn [negb] in Hy.
      rewrite Hleaf in Hy. apply stringified_differ_true in Hs.
      rewrite Hs in Hy. injection Hy as <-. now left.
  - cbn [descend] in D.
    destruct (mem_string k0 (allKeys objA objB)) eqn:Hk; [| discriminate].
    destruct (present k0 objA) eqn:PA; [| discriminate].
    destruct (present k0 objB) eqn:PB; [| discriminate].
    destruct (both_plain_objects _ _) eqn:Eb; [| discriminate].
    cbn [andb] in D. apply mem_string_In in Hk.
    destruct (R k0 Hk) as [ys Hy]. exists k0, ys. split; [exact Hk |].
    split; [exact Hy |]. cbv zeta in Hy.
    apply present_true in PA, PB. rewrite PA, PB in Hy.
    cbn [and_then negb] in Hy. rewrite Eb in Hy.
    exact (IH _ _ _ _ _ _ _ _ Hy D Hp Hr).
Qed.

(** X1. Whenever [diff(A, B)] returns, its records are exactly these: for
    keys [ks] along which the differ descends (each an own key of one side,
    found in both sides, with two values that are objects and no arrays)
    and a key [k] below them that is an own key of one side, Added when [k]
    is not in the side of [A], Removed when it is in the side of [A] and
    not in that of [B], Modified when it is in both with values that the
    differ does not descend into and that serialise differently; the path
    of the record is the keys joined by dots.  A key is in a side also when
    the side inherits it. *)
Theorem diff_records_characterised (A B : Value) (changes : list Change)
  (c : Change) :
  diff A B = Returned changes ->
  (In c changes <->
   exists ks k a b,
     descend ks A B = Some (a, b)
     /\ change_path c = path_of EmptyString (ks ++ [k]) /\ record_at c k a b).
Proof.
  intros H. split.
  - exact (compareObjects_fuel_sound _ _ _ _ _ _ H).
  - intros (ks & k & a & b & D & Hp & Hr).
    exact (compareObjects_complete _ _ _ _ _ _ _ _ _ H D Hp Hr).
Qed.

Lemma lookup_NoDup (obj : Obj) (k : string) (v : Value) :
  NoDup (map fst obj) -> In (k, v) obj -> lookup k obj = Some v.
Proof.
  induction obj as [| [k0 v0] rest IH]; simpl; [tauto |].
  intros Hnd [[= -> ->] | Hin]; [now rewrite String.eqb_refl |].
  inversion Hnd as [| ? ? Hout Hrest]; subst.
  destruct (String.eqb k0 k) eqn:E; [| auto].
  apply String.eqb_eq in E. subst k0. exfalso. apply Hout.
  change k with (fst (k, v)). now apply in_map.
Qed.

Lemma Object_keys_NoDup (obj : Obj) :
  NoDup (map fst obj) -> NoDup (Object_keys (VObj obj)).
Proof.
  intros H. cbn [Object_keys].
  eapply Permutation_NoDup; [| exact H].
  apply Permutation_map, Permutation_sym, ordered_perm.
Qed.

(** X2. Against the empty document every key at the top of [A] that an
    object does not inherit is reported once, whole: when no key of [A] is
    an inherited name, [diff(A, {})] is one Removed record per entry of
    [A], and [diff({}, A)] one Added record per entry, in the order in
    which the language lists the keys and with the entire value, mappings
    included. *)
Theorem diff_against_empty (A : Obj) :
  NoDup (map fst A) ->
  Forall (fun kv => not_inherited (fst kv)) A ->
  diff (VObj A) (VObj [])
  = Returned (map (fun kv => Removed (fst kv) (snd kv)) (ordered A))
  /\ diff (VObj []) (VObj A)
     = Returned (map (fun kv => Added (fst kv) (snd kv)) (ordered A)).
Proof.
  intros Hnd Hown. unfold diff. rewrite !compareObjects_unfold. unfold allKeys.
  change (or_empty (VObj A)) with (VObj A).
  change (or_empty (VObj [])) with (VObj []).
  change (Object_keys (VObj [])) with (@nil string).
  cbn [app]. rewrite app_nil_r.
  rewrite (set_of_keys_NoDup _ [] (Object_keys_NoDup _ Hnd))
    by (intros k _ []).
  cbn [Object_keys].
  assert (Hentry : forall kv, In kv (ordered A) ->
            has_key (fst kv) (VObj A) = Returned true
            /\ has_key (fst kv) (VObj []) = Returned false
            /\ optional_get (VObj A) (fst kv) = snd kv).
  { intros [k v] Hin. apply (proj1 (ordered_In _ _)) in Hin. cbn [fst snd].
    pose proof (lookup_NoDup _ _ _ Hnd Hin) as L.
    rewrite Forall_forall in Hown. specialize (Hown _ Hin).
    cbn [fst] in Hown. unfold not_inherited in Hown.
    cbn [has_key optional_get get own_property lookup].
    unfold inherited_by. cbn [kind_of]. rewrite L, Hown. auto. }
  split; apply for_each_entries; intros kv Hin;
    destruct (Hentry kv Hin) as (HA & HB & G); cbv zeta;
    rewrite HA, HB, ?G; destruct kv; reflexivity.
Qed.

End DifferRecords.

(* ================================================================= *)
(** * Properties of the classifier *)

Section ClassifierProperties.

Context {N : JSNumber} {P : Platform}.

(** A key that matches [/^(enabled?|active)$/i] is one of three words. *)
Lemma activity_words (s : string) :
  test ACTIVITY_PATTERN s = true ->
  toLowerCase s = "enable" \/ toLowerCase s = "enabled"
  \/ toLowerCase s = "active".
Proof.
  change (test ACTIVITY_PATTERN s)
    with (String.eqb "enable" (toLowerCase s)
          || (String.eqb "enabled" (toLowerCase s)
              || (String.eqb "active" (toLowerCase s) || false))).
  rewrite !orb_true_iff, !String.eqb_eq.
  intros [H | [H | [H | H]]]; [auto | auto | auto | discriminate].
Qed.

(** No key matches both [/timeout/i] and [/^(enabled?|active)$/i]. *)
Lemma timeout_not_activity (s : string) :
  test TIMEOUT_PATTERN s = true -> test ACTIVITY_PATTERN s = false.
Proof.
  intros Ht. destruct (test ACTIVITY_PATTERN s) eqn:Ea; [| reflexivity].
  apply activity_words in Ea.
  change (test TIMEOUT_PATTERN s)
    with (includes (toLowerCase s) "timeout" || false) in Ht.
  destruct Ea as [E | [E | E]]; rewrite E in Ht; discriminate.
Qed.

Lemma analyze_change_level (change : Change) (i : Impact) :
  analyze_change change = Some i ->
  level i = l_level (locals_of change)
  /\ impact_path i = change_path change
  /\ changeType i = change_type change
  /\ description i = l_description (locals_of change).
Proof.
  unfold analyze_change.
  destruct (negb (Level_eqb (l_level (locals_of change)) low)
            || is_removed (change_type change)); [| discriminate].
  intros [= <-]. simpl. auto.
Qed.

(** A record whose level is not Low passes the output filter. *)
Lemma analyze_change_reported (change : Change) :
  l_level (locals_of change) <> low ->
  exists i, analyze_change change = Some i.
Proof.
  intros H. unfold analyze_change.
  destruct (l_level (locals_of change)); simpl; eauto. congruence.
Qed.

(** The type rule has the last word on the level: whenever the two values
    have different run-time types the record is High, whatever the rules
    before it decided. *)
Lemma type_change_level (p : string) (oldValue newValue : Value) :
  typeof oldValue <> typeof newValue ->
  exists i, analyze_change (Modified p oldValue newValue) = Some i
            /\ level i = high.
Proof.
  intros Ht. apply String.eqb_neq in Ht.
  assert (E : l_level (locals_of (Modified p oldValue newValue)) = high).
  { unfold locals_of, refine, type_rule. now rewrite Ht. }
  destruct (analyze_change_reported (Modified p oldValue newValue)) as [i Hi];
    [rewrite E; discriminate |].
  exists i. split; [assumption |].
  apply analyze_change_level in Hi. destruct Hi as [-> _]. exact E.
Qed.

(** When the two values have the same run-time type, a change of an
    activity flag is Critical. *)
Lemma activity_change_level (p : string) (oldValue newValue : Value) :
  test ACTIVITY_PATTERN (last_segment p) = true ->
  typeof oldValue = typeof newValue ->
  exists i, analyze_change (Modified p oldValue newValue) = Some i
            /\ level i = critical.
Proof.
  intros Ha Ht. apply String.eqb_eq in Ht.
  assert (E : l_level (locals_of (Modified p oldValue newValue)) = critical).
  { unfold locals_of, refine, type_rule, activity_rule. cbn [change_path].
    now rewrite Ht, Ha. }
  destruct (analyze_change_reported (Modified p oldValue newValue)) as [i Hi];
    [rewrite E; discriminate |].
  exists i. split; [assumption |].
  apply analyze_change_level in Hi. destruct Hi as [-> _]. exact E.
Qed.

(** What the timeout rule does to a Modified record whose last key matches
    [/timeout/i]: when both values convert to numbers and the new one is
    smaller, the record is High, and its description names the two numbers
    provided the two values have the same run-time type (the type rule
    overwrites it otherwise); when one of the values does not convert to a
    number, the timeout rule changes nothing. *)
Lemma timeout_rule_effect (p : string) (oldValue newValue : Value) :
  test TIMEOUT_PATTERN (last_segment p) = true ->
  (isNaN (ToNumber oldValue) = false ->
   isNaN (ToNumber newValue) = false ->
   num_lt (ToNumber newValue) (ToNumber oldValue) = true ->
   exists i,
     analyze_change (Modified p oldValue newValue) = Some i
     /\ level i = high
     /\ (typeof oldValue = typeof newValue ->
         description i
         = timeout_description (ToNumber oldValue) (ToNumber newValue)))
  /\ (isNaN (ToNumber oldValue) = true \/ isNaN (ToNumber newValue) = true ->
      forall v : Locals,
        timeout_rule (last_segment p) oldValue newValue v = v).
Proof.
  intros Hp. split.
  - intros Ho Hn Hlt.
    pose proof (timeout_not_activity _ Hp) as Ha.
    assert (E : locals_of (Modified p oldValue newValue)
                = type_rule oldValue newValue
                    (set_recommendation
                       "Убедитесь, что новое значение достаточно."
                       (set_description
                          (timeout_description (ToNumber oldValue)
                             (ToNumber newValue))
                          (set_level high
                             (set_title
                                ("Изменено значение: " ++ last_segment p)
                                (baseline (last_segment p))))))).
    { unfold locals_of, refine, activity_rule, timeout_rule.
      cbn [change_path]. now rewrite Ha, Hp, Ho, Hn, Hlt. }
    assert (L : l_level (locals_of (Modified p oldValue newValue)) = high).
    { rewrite E. unfold type_rule.
      destruct (negb (String.eqb (typeof oldValue) (typeof newValue)));
        reflexivity. }
    destruct (analyze_change_reported (Modified p oldValue newValue))
      as [i Hi]; [rewrite L; discriminate |].
    exists i. split; [assumption |].
    apply analyze_change_level in Hi. destruct Hi as (-> & _ & _ & ->).
    split; [assumption |].
    intros Ht. apply String.eqb_eq in Ht. rewrite E. unfold type_rule.
    now rewrite Ht.
  - intros H v. unfold timeout_rule. rewrite Hp.
    destruct H as [H | H]; rewrite H; simpl; [reflexivity |].
    now rewrite andb_false_r.
Qed.

Lemma removed_locals_level (p : string) (v : Value) :
  l_level (locals_of (Removed p v))
  = if Level_eqb (l_level (baseline (last_segment p))) low then medium
    else l_level (baseline (last_segment p)).
Proof.
  unfold locals_of, refine. cbn [change_path].
  destruct (Level_eqb (l_level (baseline (last_segment p))) low); reflexivity.
Qed.



End ClassifierProperties.

(* ================================================================= *)
(** * Properties of the history analyzer *)

Section HistoryProperties.

Context {N : JSNumber} {P : Platform}.

(** With fewer than three entries the analyzer reports nothing. *)
Lemma analyzeHistory_short (history : list HistoryEntry) :
  List.length history < 3 -> analyzeHistory history = [].
Proof.
  intros H. unfold analyzeHistory, analyzeHistory_run.
  apply Nat.ltb_lt in H. now rewrite H.
Qed.

(** The analyzer leaves the history array as it found it. *)
Lemma analyzeHistory_reads_only (history : list HistoryEntry) :
  snd (analyzeHistory_run history) = history.
Proof.
  unfold analyzeHistory_run, frequentlyChanged_run, Array_flatMap,
    Array_filter, Array_sort_by_count, Array_slice, Array_map.
  destruct (List.length history <? 3)%nat; [reflexivity |]. cbv zeta.
  destruct (0 <? List.length _)%nat; reflexivity.
Qed.

(** The analyzer reports one insight at most, of at most five paths. *)
Lemma analyzeHistory_at_most_five (history : list HistoryEntry) :
  analyzeHistory history = []
  \/ exists paths,
       analyzeHistory history = [mkInsight "frequent_changes" paths]
       /\ 0 < List.length paths <= 5.
Proof.
  unfold analyzeHistory, analyzeHistory_run, frequentlyChanged_run,
    Array_flatMap, Array_filter, Array_sort_by_count, Array_slice, Array_map.
  destruct (List.length history <? 3)%nat; [now left |]. cbv zeta.
  destruct (0 <? List.length _)%nat eqn:E; [| now left].
  right. eexists. split; [reflexivity |]. cbn [skipn].
  apply Nat.ltb_lt in E. rewrite length_map, length_firstn. cbn [Nat.sub].
  lia.
Qed.

End HistoryProperties.

(* ================================================================= *)
(** * Properties of the loader *)

Section LoaderProperties.

Context {N : JSNumber} {P : Platform}.

(** C3, as the code has it. A file whose extension is none of [.json],
    [.yaml], [.yml] is read with [JSON.parse]; when that fails the loader
    throws the error that names the extension.  [parseYAML] is not tried. *)
Theorem loadFile_other_extension (fs : FileSystem)
  (filePath content : string) :
  fs filePath = Some (Content content) ->
  toLowerCase (extname filePath) <> ".json" ->
  toLowerCase (extname filePath) <> ".yaml" ->
  toLowerCase (extname filePath) <> ".yml" ->
  loadFile fs filePath
  = match JSON_parse content with
    | Ok v => Ok v
    | Throw _ =>
        Throw (Error ("Неподдерживаемый формат: "
                        ++ toLowerCase (extname filePath)))
    end.
Proof.
  intros Hf Hj Hy Hm. unfold loadFile, existsSync, readFileSync.
  rewrite Hf. cbn [negb bind].
  apply String.eqb_neq in Hj, Hy, Hm. rewrite Hj, Hy, Hm. reflexivity.
Qed.

(** The files with a YAML extension are the ones [parseYAML] reads. *)
Lemma loadFile_yaml_extension (fs : FileSystem) (filePath content : string) :
  fs filePath = Some (Content content) ->
  toLowerCase (extname filePath) = ".yaml"
  \/ toLowerCase (extname filePath) = ".yml" ->
  loadFile fs filePath = Ok (VObj (parseYAML content)).
Proof.
  intros Hf H. unfold loadFile, existsSync, readFileSync.
  rewrite Hf. cbn [negb bind]. destruct H as [-> | ->]; reflexivity.
Qed.

(** C10. [loadHistory] always returns a value.  When the history file does
    not exist, cannot be read, or does not hold valid JSON, that value is the
    empty list, on which the analyzer reports nothing; when the file holds
    valid JSON, it is the parsed value. *)
Theorem loadHistory_never_fails (fs : FileSystem) (HISTORY_FILE : string) :
  (exists v, loadHistory fs HISTORY_FILE = Ok v)
  /\ (fs HISTORY_FILE = None -> loadHistory fs HISTORY_FILE = Ok (VArr []))
  /\ (fs HISTORY_FILE = Some Unreadable ->
      loadHistory fs HISTORY_FILE = Ok (VArr []))
  /\ (forall content e,
        fs HISTORY_FILE = Some (Content content) ->
        JSON_parse content = Throw e ->
        loadHistory fs HISTORY_FILE = Ok (VArr []))
  /\ (forall content v,
        fs HISTORY_FILE = Some (Content content) ->
        JSON_parse content = Ok v ->
        loadHistory fs HISTORY_FILE = Ok v)
  /\ analyzeHistory [] = [].
Proof.
  unfold loadHistory, existsSync, readFileSync.
  split; [| split; [| split; [| split; [| split]]]].
  - destruct (fs HISTORY_FILE) as [[| content] |];
      cbn [bind try_catch]; eauto.
    destruct (JSON_parse content); cbn [bind try_catch]; eauto.
  - intros ->. reflexivity.
  - intros ->. reflexivity.
  - intros content e -> Hp. cbn [bind]. rewrite Hp. reflexivity.
  - intros content v -> Hp. cbn [bind]. rewrite Hp. reflexivity.
  - reflexivity.
Qed.

End LoaderProperties.

(* ================================================================= *)
(** * Further properties of the classifiers *)

Lemma lower_ascii_idempotent (c : ascii) :
  lower_ascii (lower_ascii c) = lower_ascii c.
Proof. destruct c as [[] [] [] [] [] [] [] []]; reflexivity. Qed.

Lemma toLowerCase_idempotent (s : string) :
  toLowerCase (toLowerCase s) = toLowerCase s.
Proof.
  induction s as [| c s IH]; simpl; [reflexivity |].
  now rewrite lower_ascii_idempotent, IH.
Qed.

(** A pattern with the flag [i] does not tell a key from its lower case. *)
Lemma test_lower (p : RegExp) (s : string) :
  test p (toLowerCase s) = test p s.
Proof. unfold test. now rewrite toLowerCase_idempotent. Qed.

Lemma some_test_lower (patterns : list RegExp) (s : string) :
  some_test patterns (toLowerCase s) = some_test patterns s.
Proof.
  unfold some_test. induction patterns as [| p rest IH]; simpl; [reflexivity |].
  now rewrite test_lower, IH.
Qed.

Section ClassifierFurther.

Context {N : JSNumber} {P : Platform}.

Lemma baseline_lower (s : string) :
  l_level (baseline (toLowerCase s)) = l_level (baseline s).
Proof. unfold baseline. now rewrite !some_test_lower. Qed.

(** A key of the lowest tier matches neither [/timeout/i] nor
    [/^(enabled?|active)$/i]. *)
Lemma low_tier_no_rule (s : string) :
  l_level (baseline s) = low ->
  test TIMEOUT_PATTERN s = false /\ test ACTIVITY_PATTERN s = false.
Proof.
  intros H. split.
  - unfold baseline in H.
    destruct (some_test CRITICAL_PATTERNS s); [discriminate |].
    destruct (some_test HIGH_PATTERNS s) eqn:E; [discriminate |].
    change (some_test HIGH_PATTERNS s)
      with (test TIMEOUT_PATTERN s
            || some_test (tl HIGH_PATTERNS) s) in E.
    now apply orb_false_iff in E.
  - destruct (test ACTIVITY_PATTERN s) eqn:E; [| reflexivity].
    rewrite <- baseline_lower in H.
    apply activity_words in E. destruct E as [E | [E | E]];
      rewrite E in H; discriminate.
Qed.

Lemma analyzeImpactLocal_In (changes : list Change) (i : Impact) :
  In i (analyzeImpactLocal changes) <->
  exists c, In c changes /\ analyze_change c = Some i.
Proof.
  induction changes as [| c rest IH]; cbn [analyzeImpactLocal].
  - split; [intros [] | intros (c & [] & _)].
  - destruct (analyze_change c) as [j |] eqn:E; cbn [In]; rewrite IH; split.
    + intros [<- | (c' & Hc & Hi)]; [exists c | exists c']; simpl; auto.
    + intros (c' & [<- | Hc] & Hi); [left; congruence | right; eauto].
    + intros (c' & Hc & Hi). exists c'. simpl. auto.
    + intros (c' & [<- | Hc] & Hi); [congruence | eauto].
Qed.

Lemma analyze_change_not_low (c : Change) (i : Impact) :
  analyze_change c = Some i -> level i <> low.
Proof.
  intros H. pose proof (analyze_change_level _ _ H) as (L & _ & T & _).
  unfold analyze_change in H.
  destruct (Level_eqb (l_level (locals_of c)) low) eqn:E.
  - destruct c; try discriminate.
    rewrite L, removed_locals_level.
    destruct (l_level (baseline (last_segment path))); discriminate.
  - rewrite L. intros E'. rewrite E' in E. discriminate.
Qed.

(** X3. The classifier never outputs a record of level Low: a Low addition
    or modification is filtered out and a Low removal is raised to
    Medium. *)
Theorem classifier_never_reports_low (changes : list Change) :
  Forall (fun i => level i <> low) (analyzeImpactLocal changes).
Proof.
  apply Forall_forall. intros i Hi. apply analyzeImpactLocal_In in Hi.
  destruct Hi as (c & _ & Hc). exact (analyze_change_not_low _ _ Hc).
Qed.

(** X4. Each record of the classifier stems from one change of its input,
    and the records come in the order of the changes: paths and kinds of
    the output are a subsequence of those of the input. *)
Theorem classifier_keeps_order (changes : list Change) :
  subsequence
    (map (fun i => (impact_path i, changeType i)) (analyzeImpactLocal changes))
    (map (fun c => (change_path c, change_type c)) changes).
Proof.
  induction changes as [| c rest IH]; cbn [analyzeImpactLocal map];
    [constructor |].
  destruct (analyze_change c) as [i |] eqn:E.
  - apply analyze_change_level in E. destruct E as (_ & Hp & Ht & _).
    cbn [map]. rewrite Hp, Ht. now constructor.
  - now constructor.
Qed.

(** X5. Changes are classified one by one: the records for two lists of
    changes put together are the records for the first followed by the
    records for the second. *)
Theorem classifier_distributes (changes1 changes2 : list Change) :
  analyzeImpactLocal (changes1 ++ changes2)
  = (analyzeImpactLocal changes1 ++ analyzeImpactLocal changes2)%list.
Proof.
  induction changes1 as [| c rest IH]; [reflexivity |].
  cbn [app analyzeImpactLocal].
  destruct (analyze_change c); [cbn [app]; f_equal |]; exact IH.
Qed.

(** X6. A field of the lowest tier goes unreported when it is added, and
    when it is modified between two values of the same run-time type. *)
Theorem low_tier_change_unreported (p : string) :
  l_level (baseline (last_segment p)) = low ->
  (forall v, analyze_change (Added p v) = None)
  /\ (forall oldValue newValue,
        typeof oldValue = typeof newValue ->
        analyze_change (Modified p oldValue newValue) = None).
Proof.
  intros H. destruct (low_tier_no_rule _ H) as [Ht Ha]. split.
  - intros v. unfold analyze_change, locals_of, refine.
    cbn [change_path change_type set_description set_title l_level].
    rewrite H. reflexivity.
  - intros o n E. apply String.eqb_eq in E.
    unfold analyze_change, locals_of, refine, type_rule, activity_rule,
      timeout_rule.
    cbn [change_path change_type]. rewrite Ht, Ha, E. cbn [negb].
    cbn [set_title l_level]. rewrite H. reflexivity.
Qed.

Lemma existsb_level (l : Level) (impacts : list Impact) :
  existsb (fun i => Level_eqb (level i) l) impacts = true <->
  exists i, In i impacts /\ level i = l.
Proof.
  rewrite existsb_exists. split; intros (i & Hi & E); exists i; split; auto.
  - destruct (level i), l; try discriminate; reflexivity.
  - rewrite E. destruct l; reflexivity.
Qed.

(** X7. The overall risk that [main] saves is the lowest one exactly when
    no change of the run classifies as High or Critical: records of level
    Medium do not raise it. *)
Theorem overall_risk_lowest (changes : list Change) :
  riskLevel_of (analyzeImpactLocal changes) = "Низкий" <->
  Forall (fun c => rank (l_level (locals_of c)) <= rank medium) changes.
Proof.
  unfold riskLevel_of. rewrite Forall_forall. split.
  - intros H c Hc.
    destruct (existsb (fun i => Level_eqb (level i) critical)
                (analyzeImpactLocal changes)) eqn:Ec; [discriminate |].
    destruct (existsb (fun i => Level_eqb (level i) high)
                (analyzeImpactLocal changes)) eqn:Eh; [discriminate |].
    destruct (l_level (locals_of c)) eqn:L; simpl; try lia; exfalso.
    + assert (X : existsb (fun i => Level_eqb (level i) high)
                    (analyzeImpactLocal changes) = true); [| congruence].
      apply existsb_level.
      destruct (analyze_change_reported c) as [i Hi]; [congruence |].
      exists i. split; [apply analyzeImpactLocal_In; eauto |].
      apply analyze_change_level in Hi. destruct Hi as [-> _]. exact L.
    + assert (X : existsb (fun i => Level_eqb (level i) critical)
                    (analyzeImpactLocal changes) = true); [| congruence].
      apply existsb_level.
      destruct (analyze_change_reported c) as [i Hi]; [congruence |].
      exists i. split; [apply analyzeImpactLocal_In; eauto |].
      apply analyze_change_level in Hi. destruct Hi as [-> _]. exact L.
  - intros H.
    destruct (existsb (fun i => Level_eqb (level i) critical)
                (analyzeImpactLocal changes)) eqn:Ec.
    + apply existsb_level in Ec. destruct Ec as (i & Hi & L).
      apply analyzeImpactLocal_In in Hi. destruct Hi as (c & Hc & Hi).
      apply analyze_change_level in Hi. destruct Hi as [E _].
      specialize (H c Hc). rewrite <- E, L in H. simpl in H. lia.
    + destruct (existsb (fun i => Level_eqb (level i) high)
                  (analyzeImpactLocal changes)) eqn:Eh; [| reflexivity].
      apply existsb_level in Eh. destruct Eh as (i & Hi & L).
      apply analyzeImpactLocal_In in Hi. destruct Hi as (c & Hc & Hi).
      apply analyze_change_level in Hi. destruct Hi as [E _].
      specialize (H c Hc). rewrite <- E, L in H. simpl in H. lia.
Qed.

Lemma count_occ_filter (t : ChangeType) (f : ChangeType -> bool)
  (changes : list Change) :
  (forall u, f u = true <-> u = t) ->
  List.length (filter (fun c => f (change_type c)) changes)
  = count_occ ChangeType_eq_dec (map change_type changes) t.
Proof.
  intros Hf. induction changes as [| c rest IH]; [reflexivity |].
  cbn [filter map count_occ].
  destruct (ChangeType_eq_dec (change_type c) t) as [E | E].
  - rewrite (proj2 (Hf _) E). cbn [List.length]. now rewrite IH.
  - destruct (f (change_type c)) eqn:F; [| exact IH].
    apply Hf in F. contradiction.
Qed.

(** X8. The summary that is stored with a run counts the changes of the
    run: [total] is their number, [added], [removed] and [modified] are the
    numbers of the changes of each kind, and the three add up to the
    total. *)
Theorem summary_counts_add_up (changes : list Change) :
  total (summary_of changes) = List.length changes
  /\ summary_added (summary_of changes)
     = count_occ ChangeType_eq_dec (map change_type changes) added
  /\ summary_removed (summary_of changes)
     = count_occ ChangeType_eq_dec (map change_type changes) removed
  /\ summary_modified (summary_of changes)
     = count_occ ChangeType_eq_dec (map change_type changes) modified
  /\ total (summary_of changes)
     = summary_added (summary_of changes)
       + summary_removed (summary_of changes)
       + summary_modified (summary_of changes).
Proof.
  unfold summary_of. cbn [total summary_added summary_removed summary_modified].
  split; [reflexivity |].
  split; [apply count_occ_filter; intros []; simpl; split; congruence |].
  split; [apply count_occ_filter; intros []; simpl; split; congruence |].
  split; [apply count_occ_filter; intros []; simpl; split; congruence |].
  induction changes as [| c rest IH]; [reflexivity |].
  cbn [filter List.length]. destruct c; cbn [change_type is_added is_removed
    is_modified List.length]; lia.
Qed.

Lemma port_host_words (s : string) :
  test V1.PORT_HOST_PATTERN s = true ->
  toLowerCase s = "port" \/ toLowerCase s = "host".
Proof.
  change (test V1.PORT_HOST_PATTERN s)
    with (String.eqb "port" (toLowerCase s)
          || (String.eqb "host" (toLowerCase s) || false)).
  rewrite !orb_true_iff, !String.eqb_eq.
  intros [H | [H | H]]; [auto | auto | discriminate].
Qed.

Lemma V1_baseline_lower (s : string) :
  V1.baseline (toLowerCase s) = V1.baseline s.
Proof. unfold V1.baseline. now rewrite !some_test_lower. Qed.

(** X9. In the first entry point the refinement never lowers a level: the
    level of a record is its baseline tier or a higher one. *)
Theorem V1_level_never_lowered (change : Change) :
  rank (V1.baseline (last_segment (change_path change)))
  <= rank (V1.l_level (V1.locals_of change))
  /\ forall i, V1.analyze_change change = Some i ->
               V1.level i = V1.l_level (V1.locals_of change).
Proof.
  split.
  - unfold V1.locals_of.
    set (lastKey := last_segment (change_path change)).
    destruct change as [p v | p v | p o n].
    + destruct (V1.baseline lastKey); simpl; lia.
    + destruct (V1.baseline lastKey); simpl; lia.
    + unfold V1.refine_modified.
      destruct (test TIMEOUT_PATTERN lastKey).
      * destruct (negb (isNaN (ToNumber o)) && negb (isNaN (ToNumber n)));
          [destruct (num_lt (ToNumber n) (ToNumber o)) |];
          destruct (V1.baseline lastKey); simpl; lia.
      * destruct (test ACTIVITY_PATTERN lastKey);
          [destruct (V1.baseline lastKey); simpl; lia |].
        destruct (test V1.PORT_HOST_PATTERN lastKey) eqn:E;
          [| destruct (V1.baseline lastKey); simpl; lia].
        apply port_host_words in E. rewrite <- V1_baseline_lower.
        destruct E as [-> | ->]; simpl; lia.
  - unfold V1.analyze_change. intros i.
    destruct (negb (Level_eqb (V1.l_level (V1.locals_of change)) low)
              || is_removed (change_type change)); [| discriminate].
    now intros [= <-].
Qed.


End ClassifierFurther.

(* ================================================================= *)
(** * Properties of saving to the history *)

Section SavingProperties.

Context {N : JSNumber} {P : Platform}.

Variable pretty : Value -> string.

Lemma unshift_capped_firstn (record : Value) (items : list Value) :
  unshift_capped record items = firstn 100 (record :: items).
Proof.
  unfold unshift_capped.
  destruct (100 <? List.length (record :: items))%nat eqn:E; [reflexivity |].
  apply Nat.ltb_ge in E. symmetry. now apply firstn_all2.
Qed.

Lemma writeFileSync_content (fs fs' : FileSystem) (path content : string) :
  writeFileSync fs path content = Ok fs' ->
  fs' path = Some (Content content) /\ forall p, p <> path -> fs' p = fs p.
Proof.
  unfold writeFileSync. intros H.
  assert (E : fs' = fun p => if String.eqb p path then Some (Content content)
                             else fs p).
  { destruct (fs path) as [[| c] |]; congruence. }
  subst fs'. rewrite String.eqb_refl. split; [reflexivity |].
  intros p Hp. apply String.eqb_neq in Hp. now rewrite Hp.
Qed.

(** X11. When the history file holds a JSON array, [saveToHistory] rewrites
    that file, and only that file, with the new record first, then the
    earlier entries in their order, cut to one hundred entries. *)
Theorem saveToHistory_newest_first (fs : FileSystem)
  (HISTORY_FILE content : string) (record : Value) (items : list Value) :
  fs HISTORY_FILE = Some (Content content) ->
  JSON_parse content = Ok (VArr items) ->
  exists fs',
    saveToHistory pretty fs HISTORY_FILE record = Saved fs'
    /\ fs' HISTORY_FILE
       = Some (Content (pretty (VArr (firstn 100 (record :: items)))))
    /\ (forall p, p <> HISTORY_FILE -> fs' p = fs p)
    /\ List.length (firstn 100 (record :: items)) <= 100.
Proof.
  intros Hf Hp.
  assert (L : loadHistory fs HISTORY_FILE = Ok (VArr items)).
  { unfold loadHistory, existsSync, readFileSync. rewrite Hf. cbn [bind].
    rewrite Hp. reflexivity. }
  unfold saveToHistory. rewrite L, unshift_capped_firstn.
  destruct (writeFileSync fs HISTORY_FILE
              (pretty (VArr (firstn 100 (record :: items))))) as [fs' |] eqn:W.
  - exists fs'. apply writeFileSync_content in W. destruct W as [W1 W2].
    repeat split; auto. apply firstn_le_length.
  - unfold writeFileSync in W. rewrite Hf in W. discriminate.
Qed.

(** X12. When the history file is missing, or holds text that is not valid
    JSON, [saveToHistory] writes a history of one entry, the new record:
    what a corrupted file held is lost. *)
Theorem saveToHistory_starts_afresh (fs : FileSystem)
  (HISTORY_FILE : string) (record : Value) :
  fs HISTORY_FILE = None
  \/ (exists content e, fs HISTORY_FILE = Some (Content content)
                        /\ JSON_parse content = Throw e) ->
  exists fs',
    saveToHistory pretty fs HISTORY_FILE record = Saved fs'
    /\ fs' HISTORY_FILE = Some (Content (pretty (VArr [record])))
    /\ (forall p, p <> HISTORY_FILE -> fs' p = fs p).
Proof.
  intros H.
  assert (L : loadHistory fs HISTORY_FILE = Ok (VArr [])
              /\ fs HISTORY_FILE <> Some Unreadable).
  { unfold loadHistory, existsSync, readFileSync.
    destruct H as [H | (content & e & Hf & Hp)].
    - rewrite H. split; [reflexivity | discriminate].
    - rewrite Hf. cbn [bind]. rewrite Hp. split; [reflexivity | discriminate]. }
  destruct L as [L Hu]. unfold saveToHistory. rewrite L.
  change (unshift_capped record []) with [record].
  destruct (writeFileSync fs HISTORY_FILE (pretty (VArr [record])))
    as [fs' |] eqn:W.
  - exists fs'. apply writeFileSync_content in W. tauto.
  - unfold writeFileSync in W.
    destruct (fs HISTORY_FILE) as [[| c] |]; congruence.
Qed.

(** X13. When the history file holds valid JSON that is not an array,
    [saveToHistory] raises a [TypeError] and writes nothing. *)
Theorem saveToHistory_needs_an_array (fs : FileSystem)
  (HISTORY_FILE content : string) (record v : Value) :
  fs HISTORY_FILE = Some (Content content) ->
  JSON_parse content = Ok v ->
  Array_isArray v = false ->
  saveToHistory pretty fs HISTORY_FILE record = SaveTypeError.
Proof.
  intros Hf Hp Ha.
  assert (L : loadHistory fs HISTORY_FILE = Ok v).
  { unfold loadHistory, existsSync, readFileSync. rewrite Hf. cbn [bind].
    rewrite Hp. reflexivity. }
  unfold saveToHistory. rewrite L. destruct v; try reflexivity. discriminate.
Qed.

End SavingProperties.

(* ================================================================= *)
(** * Properties of the command lines *)

Lemma prefix_cons (c d : ascii) (w s : string) :
  String.prefix (String c w) (String d s)
  = (Ascii.eqb c d && String.prefix w s)%bool.
Proof.
  simpl. destruct (ascii_dec c d) as [-> | Hne].
  - now rewrite Ascii.eqb_refl.
  - apply Ascii.eqb_neq in Hne. now rewrite Hne.
Qed.

(** A text that holds no separator is one segment; a separator ends the
    first segment. *)
Lemma split_on_first (sep : ascii) (x rest : string) :
  includes x (String sep EmptyString) = false ->
  split_on sep x = [x]
  /\ split_on sep (x ++ String sep rest) = x :: split_on sep rest.
Proof.
  induction x as [| c x IH]; intros H.
  - simpl. rewrite Ascii.eqb_refl. auto.
  - cbn [includes] in H. rewrite prefix_cons in H.
    destruct (Ascii.eqb sep c) eqn:E.
    + destruct x; discriminate.
    + cbn [andb] in H. destruct (IH H) as [IH1 IH2].
      cbn [split_on append]. rewrite Ascii.eqb_sym, E, IH1, IH2. auto.
Qed.

Lemma find_first {A : Type} (f : A -> bool) (pre post : list A) (x : A) :
  Forall (fun a => f a = false) pre -> f x = true ->
  find f (pre ++ x :: post) = Some x.
Proof.
  induction pre as [| a pre IH]; intros Hpre Hx; cbn [app find].
  - now rewrite Hx.
  - inversion Hpre; subst. rewrite H1. auto.
Qed.

Lemma startsWith_append (w s : string) : startsWith (w ++ s) w = true.
Proof.
  unfold startsWith. induction w as [| c w IH]; [destruct s; reflexivity |].
  cbn [append]. rewrite prefix_cons, Ascii.eqb_refl. exact IH.
Qed.

(** X14. Without [--history] among the arguments, the two file names are
    the first two arguments whatever they look like, and the path of the
    schema is the text between [--schema=] and the next equals sign of the
    first argument that starts with [--schema=], be it one of the two file
    names: what follows a second equals sign is dropped. *)
Theorem parseArgs_schema_value (a b x tail : string)
  (rest pre post : list string) :
  a :: b :: rest = app pre (("--schema=" ++ x ++ tail) :: post) ->
  ~ In "--history" (a :: b :: rest) ->
  Forall (fun arg => startsWith arg "--schema=" = false) pre ->
  includes x "=" = false ->
  tail = EmptyString \/ startsWith tail "=" = true ->
  exists save,
    parseArgs (a :: b :: rest) = Return (mkOptions a b (Some x) save).
Proof.
  intros Hargs Hh Hpre Hx Ht. unfold parseArgs.
  destruct (existsb (String.eqb "--history") (a :: b :: rest)) eqn:E.
  - exfalso. apply Hh. apply existsb_exists in E.
    destruct E as (y & Hy & Ey). apply String.eqb_eq in Ey. now subst.
  - eexists. f_equal. f_equal. unfold option_value. rewrite Hargs.
    rewrite (find_first _ _ _ _ Hpre (startsWith_append _ _)).
    unfold V1.after_equals.
    change ("--schema=" ++ x ++ tail)
      with ("--schema" ++ String "=" (x ++ tail)).
    destruct (split_on_first "=" "--schema" (x ++ tail) eq_refl) as [_ ->].
    cbn [nth_error]. destruct Ht as [-> | Ht].
    + rewrite string_append_empty.
      destruct (split_on_first "=" x EmptyString Hx) as [-> _]. reflexivity.
    + destruct tail as [| c tail']; [discriminate |].
      unfold startsWith in Ht. rewrite prefix_cons in Ht.
      apply andb_true_iff in Ht. destruct Ht as [Ht _].
      apply Ascii.eqb_eq in Ht. subst c.
      destruct (split_on_first "=" x tail' Hx) as [_ ->]. reflexivity.
Qed.

Lemma V1_options_loop_help (opts rest : list string) :
  Forall plain_option opts ->
  forall format output,
    V1.options_loop (opts ++ "--help" :: rest) format output = None.
Proof.
  induction opts as [| arg opts IH]; intros H format output.
  - reflexivity.
  - inversion H as [| ? ? (Ho & Hh & Hs) Hrest]; subst.
    cbn [app V1.options_loop].
    destruct (startsWith arg "--format=");
      [destruct (V1.after_equals arg); auto |].
    destruct (startsWith arg "--output="); [auto |].
    apply String.eqb_neq in Ho, Hh, Hs. rewrite Ho, Hh, Hs. cbn [orb]. auto.
Qed.

(** X15. The first entry point honours [--help] only after two other
    arguments: with fewer than two arguments it exits with code 1 whatever
    they are, [--help] included; with [--help] among the options, after
    options that are not [-o], it exits with code 0. *)
Theorem V1_parseArgs_help (args : list string) :
  (List.length args < 2 -> V1.parseArgs args = V1.Exit 1)
  /\ (forall a b opts rest,
        args = a :: b :: (opts ++ "--help" :: rest)%list ->
        Forall plain_option opts ->
        V1.parseArgs args = V1.Exit 0).
Proof.
  split.
  - destruct args as [| a [| b rest]]; simpl; intros H; try reflexivity. lia.
  - intros a b opts rest -> H. unfold V1.parseArgs.
    now rewrite V1_options_loop_help.
Qed.

(* ================================================================= *)
(** * Properties of the printed texts *)



Section PrintingProperties.

Context {N : JSNumber} {P : Platform}.



Lemma print_group_length (group : list Change) (i l c : string) :
  List.length (print_group group i l c) <= 13.
Proof.
  unfold print_group. destruct (0 <? List.length group)%nat; [| simpl; lia].
  rewrite !length_app, length_map. cbn [List.length].
  pose proof (firstn_le_length 10 group).
  destruct (10 <? List.length group)%nat; cbn [List.length]; lia.
Qed.

(** X17. However many changes there are, [printChanges] prints at most 41
    texts: two of heading and, for each kind, its count, at most ten paths,
    one line for the others and an empty line. *)
Theorem printChanges_bounded (changes : list Change) :
  List.length (printChanges changes) <= 41.
Proof.
  unfold printChanges. cbv zeta. rewrite !length_app. cbn [List.length].
  pose proof (print_group_length
                (filter (fun c => is_added (change_type c)) changes)
                "added" "Добавлено" "green").
  pose proof (print_group_length
                (filter (fun c => is_modified (change_type c)) changes)
                "modified" "Изменено" "yellow").
  pose proof (print_group_length
                (filter (fun c => is_removed (change_type c)) changes)
                "removed" "Удалено" "red").
  lia.
Qed.

End PrintingProperties.

(* ================================================================= *)
(** * Properties of the schema validation *)

Lemma nat_to_string_not_type (i : nat) : nat_to_string i <> "type".
Proof. unfold nat_to_string. destruct (Nat.to_uint i); discriminate. Qed.

Lemma index_of_type (len : nat) : index_of "type" len = None.
Proof.
  destruct (index_of "type" len) as [i |] eqn:E; [| reflexivity].
  unfold index_of in E. apply find_some in E. destruct E as [_ E].
  apply String.eqb_eq in E. now apply nat_to_string_not_type in E.
Qed.

Section ValidationProperties.

Context {N : JSNumber} {P : Platform}.

Lemma depth_In (k : string) (v : Value) (props : Obj) :
  In (k, v) props -> depth v < depth (VObj props).
Proof.
  cbn [depth]. induction props as [| [k0 v0] rest IH]; simpl; [tauto |].
  intros [[= -> ->] | H]; [lia | specialize (IH H); lia].
Qed.

Lemma depth_item (v : Value) (items : list Value) :
  In v items -> depth v < depth (VArr items).
Proof.
  cbn [depth]. induction items as [| v0 rest IH]; simpl; [tauto |].
  intros [-> | H]; [lia | specialize (IH H); lia].
Qed.

Lemma indexed_In {A : Type} (l : list A) :
  forall i k x, In (k, x) (indexed i l) -> In x l.
Proof.
  induction l as [| y rest IH]; intros i k x; simpl; [tauto |].
  intros [[= _ ->] | H]; [auto | right; eapply IH; eauto].
Qed.

(** What a property holds is nested less deeply than its owner, or not
    nested at all. *)
Lemma property_depth (v w : Value) (key : string) :
  property v key = Returned w -> depth w < depth v \/ depth w = 0.
Proof.
  pose proof (depth_get v key) as D.
  destruct v; cbn [property]; try discriminate; intros [= <-]; exact D.
Qed.

(** The schema of an entry is nested less deeply than the entries, unless
    the entries are the code units of a text. *)
Lemma entry_depth (properties ps : Value) (key : string) :
  In (key, ps) (Object_entries properties) ->
  depth ps < depth properties \/ exists u, ps = VStr u.
Proof.
  intros H. destruct properties as [| | b | n | s | items | props | b];
    cbn [Object_entries] in H; try contradiction.
  - right. apply indexed_In in H. apply in_map_iff in H.
    destruct H as (x & Hx & _). eauto.
  - left. apply indexed_In in H. now apply depth_item.
  - left. apply (proj1 (ordered_In _ _)) in H. eapply depth_In; eauto.
Qed.

(** A name of the schema is read as an own property or not at all. *)
Lemma get_schema_name (props : Obj) (name : string) :
  In name ["required"; "properties"; "type"; "enum"] ->
  get (VObj props) name
  = match lookup name props with
    | Some x => x
    | None => VUndefined
    end.
Proof.
  intros H. cbn [get own_property]. destruct (lookup name props);
    [reflexivity |].
  unfold inherited_by. cbn [kind_of]. now rewrite (schema_names_own _ _ H).
Qed.

(** A text has no property [type]. *)
Lemma type_of_text (u : string) : get (VStr u) "type" = VUndefined.
Proof.
  cbn [get own_property]. change (String.eqb "type" "length") with false.
  cbv iota. rewrite index_of_type. unfold inherited_by. cbn [kind_of].
  rewrite schema_names_own; [reflexivity | simpl; auto].
Qed.

Lemma Value_is_undefined (v : Value) : v = VUndefined \/ v <> VUndefined.
Proof. destruct v; (now left) || (right; discriminate). Qed.

Lemma validate_entries_step
  (self : Value -> Value -> string -> Outcome (list SchemaError))
  (obj : Value) (path : string) (key : string) (propSchema : Value)
  (rest : list (string * Value)) (value : Value) :
  property obj key = Returned value ->
  value <> VUndefined ->
  validate_entries self obj path ((key, propSchema) :: rest)
  = and_then (property propSchema "type") (fun type =>
    and_then (property propSchema "enum") (fun enum =>
    and_then (check_enum enum value (currentPath path key))
      (fun errors_enum =>
    and_then (property propSchema "properties") (fun nested_properties =>
    and_then
      (if is_string type "object"
          && truthy nested_properties
          && String.eqb (typeof value) "object"
          && negb (is_null value)
       then self value propSchema (currentPath path key)
       else Returned []) (fun errors_nested =>
    and_then (validate_entries self obj path rest) (fun errors_rest =>
      Returned
        (check_type type value (currentPath path key) ++ errors_enum
           ++ errors_nested ++ errors_rest)%list)))))).
Proof.
  intros Hp Hv. cbn [validate_entries]. rewrite Hp. cbn [and_then].
  destruct value; try reflexivity. congruence.
Qed.

Lemma validate_entries_skip
  (self : Value -> Value -> string -> Outcome (list SchemaError))
  (obj : Value) (path : string) (key : string) (propSchema : Value)
  (rest : list (string * Value)) :
  property obj key = Returned VUndefined ->
  validate_entries self obj path ((key, propSchema) :: rest)
  = validate_entries self obj path rest.
Proof. intros Hp. cbn [validate_entries]. rewrite Hp. reflexivity. Qed.

Lemma validate_entries_throws
  (self : Value -> Value -> string -> Outcome (list SchemaError))
  (obj : Value) (path : string) (key : string) (propSchema : Value)
  (rest : list (string * Value)) :
  property obj key = TypeError ->
  validate_entries self obj path ((key, propSchema) :: rest)
  = TypeError.
Proof. intros Hp. cbn [validate_entries]. rewrite Hp. reflexivity. Qed.

Lemma validate_entries_agree
  (self1 self2 : Value -> Value -> string -> Outcome (list SchemaError))
  (obj : Value) (path : string) (entries : list (string * Value)) :
  (forall key ps type,
      In (key, ps) entries ->
      property ps "type" = Returned type -> is_string type "object" = true ->
      forall value cur, self1 value ps cur = self2 value ps cur) ->
  validate_entries self1 obj path entries
  = validate_entries self2 obj path entries.
Proof.
  induction entries as [| [key ps] rest IH]; intros H; [reflexivity |].
  assert (IH' : validate_entries self1 obj path rest
                = validate_entries self2 obj path rest).
  { apply IH. intros k p t Hin. apply (H k p t). now right. }
  destruct (property obj key) as [value |] eqn:Hp;
    [| now rewrite !(validate_entries_throws _ _ _ _ _ _ Hp)].
  destruct (Value_is_undefined value) as [-> | Hv];
    [now rewrite !(validate_entries_skip _ _ _ _ _ _ Hp) |].
  rewrite !(validate_entries_step _ _ _ _ _ _ _ Hp Hv), IH'.
  destruct (property ps "type") as [type |] eqn:Et; [| reflexivity].
  cbn [and_then].
  destruct (property ps "enum") as [enum |]; [| reflexivity].
  cbn [and_then].
  destruct (check_enum enum _ _); [| reflexivity].
  cbn [and_then].
  destruct (property ps "properties") as [np |]; [| reflexivity].
  cbn [and_then].
  destruct (is_string type "object") eqn:Es; [| reflexivity].
  now rewrite (H key ps type (or_introl eq_refl) Et Es).
Qed.

(** Fuel beyond the depth of the schema changes nothing. *)
Lemma validate_fuel_enough (n : nat) :
  forall (m : nat) (obj schemaObj : Value) (path : string),
    depth schemaObj < n -> depth schemaObj < m ->
    validate n obj schemaObj path = validate m obj schemaObj path.
Proof.
  induction n as [| n IH]; intros m obj schemaObj path Hn Hm; [lia |].
  destruct m as [| m]; [lia |]. cbn [validate].
  destruct (property schemaObj "required") as [required |]; [| reflexivity].
  cbn [and_then].
  destruct (if truthy required && Array_isArray required
            then match required with
                 | VArr fields => check_required obj fields path
                 | _ => Returned []
                 end
            else Returned []) as [errors1 |]; [| reflexivity].
  cbn [and_then].
  destruct (property schemaObj "properties") as [properties |] eqn:Ep;
    [| reflexivity].
  cbn [and_then].
  destruct (truthy properties); [| reflexivity].
  rewrite (validate_entries_agree (validate n) (validate m));
    [reflexivity |].
  intros key ps type Hin Et Es value cur.
  pose proof (property_depth _ _ _ Ep) as D2.
  destruct (entry_depth _ _ _ Hin) as [D1 | [u ->]].
  - apply IH; lia.
  - change (property (VStr u) "type")
      with (Returned (get (VStr u) "type")) in Et.
    rewrite type_of_text in Et. injection Et as <-. discriminate.
Qed.

(** The recursive equation of the source: [validate] checks the required
    fields, then the entries of [properties], calling itself on a nested
    object. *)
Lemma validateSchema_unfold (data schema : Value) :
  validateSchema data schema
  = and_then (property schema "required") (fun required =>
    and_then
      (if truthy required && Array_isArray required then
         match required with
         | VArr fields => check_required data fields EmptyString
         | _ => Returned []
         end
       else Returned []) (fun errors1 =>
    and_then (property schema "properties") (fun properties =>
    and_then
      (if truthy properties then
         validate_entries
           (fun value propSchema cur =>
              validate (S (depth propSchema)) value propSchema cur)
           data EmptyString (Object_entries properties)
       else Returned []) (fun errors2 =>
      Returned (errors1 ++ errors2)%list)))).
Proof.
  unfold validateSchema. cbn [validate].
  destruct (property schema "required") as [required |]; [| reflexivity].
  cbn [and_then].
  match goal with
  | |- and_then ?c _ = _ => destruct c as [errors1 |]; [| reflexivity]
  end.
  cbn [and_then].
  destruct (property schema "properties") as [properties |] eqn:Ep;
    [| reflexivity].
  cbn [and_then].
  destruct (truthy properties); [| reflexivity].
  rewrite (validate_entries_agree (validate (depth schema))
             (fun value propSchema cur =>
                validate (S (depth propSchema)) value propSchema cur));
    [reflexivity |].
  intros key ps type Hin Et Es value cur.
  pose proof (property_depth _ _ _ Ep) as D2.
  destruct (entry_depth _ _ _ Hin) as [D1 | [u ->]].
  - apply validate_fuel_enough; lia.
  - change (property (VStr u) "type")
      with (Returned (get (VStr u) "type")) in Et.
    rewrite type_of_text in Et. injection Et as <-. discriminate.
Qed.

Lemma check_required_ok (obj : Value) (fields : list Value) (path : string) :
  forall errors,
    check_required obj fields path = Returned errors ->
    Forall (fun e => err_severity e = severity_of_kind (err_type e)) errors.
Proof.
  induction fields as [| f rest IH]; cbn [check_required]; intros errors.
  - intros [= <-]. constructor.
  - destruct (has_property (ToString f) obj) as [present |]; [| discriminate].
    cbn [and_then].
    destruct (check_required obj rest path) as [e |]; [| discriminate].
    cbn [and_then]. specialize (IH e eq_refl).
    destruct (negb present); intros [= <-]; [constructor |]; auto.
Qed.

Lemma check_enum_ok (enum value : Value) (cur : string) :
  forall errors,
    check_enum enum value cur = Returned errors ->
    Forall (fun e => err_severity e = severity_of_kind (err_type e)) errors.
Proof.
  unfold check_enum. intros errors.
  destruct (truthy enum); [| intros [= <-]; constructor].
  destruct enum as [| | b | n | s | items | props | b]; try discriminate.
  - destruct (includes s (ToString value)); [| discriminate].
    intros [= <-]. constructor.
  - destruct (existsb (fun x => SameValueZero x value) items);
      intros [= <-]; repeat constructor.
Qed.

Lemma check_type_ok (type value : Value) (cur : string) :
  Forall (fun e => err_severity e = severity_of_kind (err_type e))
    (check_type type value cur).
Proof.
  unfold check_type. destruct (truthy type); [| constructor].
  destruct (negb (is_string type (actual_type value)) && negb (is_null value));
    repeat constructor.
Qed.

Lemma validate_entries_ok
  (self : Value -> Value -> string -> Outcome (list SchemaError))
  (obj : Value) (path : string) (entries : list (string * Value)) :
  (forall value ps cur errors,
     self value ps cur = Returned errors ->
     Forall (fun e => err_severity e = severity_of_kind (err_type e)) errors) ->
  forall errors,
    validate_entries self obj path entries = Returned errors ->
    Forall (fun e => err_severity e = severity_of_kind (err_type e)) errors.
Proof.
  intros Hself. induction entries as [| [key ps] rest IH]; intros errors.
  - intros [= <-]. constructor.
  - destruct (property obj key) as [value |] eqn:Hp;
      [| rewrite (validate_entries_throws _ _ _ _ _ _ Hp); discriminate].
    destruct (Value_is_undefined value) as [-> | Hv].
    + rewrite (validate_entries_skip _ _ _ _ _ _ Hp). apply IH.
    + rewrite (validate_entries_step _ _ _ _ _ _ _ Hp Hv).
      destruct (property ps "type") as [type |]; [| discriminate].
      cbn [and_then].
      destruct (property ps "enum") as [enum |]; [| discriminate].
      cbn [and_then].
      destruct (check_enum enum value (currentPath path key))
        as [ee |] eqn:Ee; [| discriminate].
      cbn [and_then].
      destruct (property ps "properties") as [np |]; [| discriminate].
      cbn [and_then].
      match goal with
      | |- and_then ?c _ = _ -> _ =>
          destruct c as [en |] eqn:En; [| discriminate]
      end.
      cbn [and_then].
      destruct (validate_entries self obj path rest) as [er |];
        [| discriminate].
      cbn [and_then]. intros [= <-].
      repeat (apply Forall_app; split).
      * apply check_type_ok.
      * eapply check_enum_ok; eassumption.
      * match type of En with
        | (if ?b then _ else _) = _ =>
            destruct b; [eapply Hself; eassumption |];
            injection En as <-; constructor
        end.
      * apply IH; reflexivity.
Qed.

Lemma validate_ok (fuel : nat) :
  forall (obj schemaObj : Value) (path : string) errors,
    validate fuel obj schemaObj path = Returned errors ->
    Forall (fun e => err_severity e = severity_of_kind (err_type e)) errors.
Proof.
  induction fuel as [| fuel IH]; intros obj schemaObj path errors;
    cbn [validate].
  - intros [= <-]. constructor.
  - destruct (property schemaObj "required") as [required |];
      [| discriminate].
    cbn [and_then].
    match goal with
    | |- and_then ?c _ = _ -> _ => destruct c as [e1 |] eqn:E1; [| discriminate]
    end.
    cbn [and_then].
    destruct (property schemaObj "properties") as [properties |];
      [| discriminate].
    cbn [and_then].
    match goal with
    | |- and_then ?c _ = _ -> _ => destruct c as [e2 |] eqn:E2; [| discriminate]
    end.
    cbn [and_then]. intros [= <-]. apply Forall_app. split.
    + destruct (truthy required && Array_isArray required);
        [| injection E1 as <-; constructor].
      destruct required; try (injection E1 as <-; constructor).
      eapply check_required_ok; eassumption.
    + destruct (truthy properties); [| injection E2 as <-; constructor].
      eapply validate_entries_ok; [| eassumption]. intros; eapply IH; eauto.
Qed.

(** X18. Every error of [validateSchema] has the severity of its kind: a
    missing field and a wrong type are errors, a value outside the
    enumeration is a warning, at every depth of the schema. *)
Theorem validateSchema_severity (data schema : Value)
  (errors : list SchemaError) :
  validateSchema data schema = Returned errors ->
  Forall (fun e => err_severity e = severity_of_kind (err_type e)) errors.
Proof. apply validate_ok. Qed.



Lemma lookup_get (s : Obj) (key : string) (v : Value) :
  lookup key s = Some v -> get (VObj s) key = v.
Proof. cbn [get own_property]. now intros ->. Qed.

Lemma lookup_none_get (s : Obj) (name : string) :
  In name ["required"; "properties"; "type"; "enum"] ->
  lookup name s = None -> get (VObj s) name = VUndefined.
Proof. intros H L. rewrite (get_schema_name _ _ H). now rewrite L. Qed.


Lemma validate_entries_absent_or_null
  (self : Value -> Value -> string -> Outcome (list SchemaError))
  (d : Obj) (path : string) (props : Obj) :
  (forall k ps, In (k, ps) props ->
                (lookup k d = None /\ not_inherited k)
                \/ (lookup k d = Some VNull /\ only_type ps)) ->
  validate_entries self (VObj d) path props = Returned [].
Proof.
  induction props as [| [k ps] rest IH]; intros H; [reflexivity |].
  assert (IH' : validate_entries self (VObj d) path rest = Returned []).
  { apply IH. intros k' ps' Hin. apply (H k' ps'). now right. }
  destruct (H k ps (or_introl eq_refl)) as [[Hn Hi] | [Hn (t & ->)]].
  - rewrite validate_entries_skip; [exact IH' |].
    cbn [property get own_property]. rewrite Hn. unfold inherited_by.
    cbn [kind_of]. unfold not_inherited in Hi. now rewrite Hi.
  - rewrite (validate_entries_step _ _ _ _ _ _ VNull);
      [| cbn [property]; now rewrite (lookup_get _ _ _ Hn) | discriminate].
    cbn [property].
    rewrite (get_schema_name _ "type"), (get_schema_name _ "enum"),
      (get_schema_name _ "properties") by (simpl; auto).
    cbn [lookup String.eqb Ascii.eqb Bool.eqb].
    cbn [and_then check_enum truthy]. rewrite IH'. cbn [and_then].
    rewrite andb_false_r. cbn [and_then]. unfold check_type.
    cbn [is_null negb]. rewrite andb_false_r.
    destruct (truthy (VStr t)); reflexivity.
Qed.

(** X20. A property of the schema that the document neither has nor
    inherits is not checked, whatever its schema says, and [null] passes
    every type constraint: a mapping whose listed properties are all either
    missing and not inherited, or [null] under a schema that only
    constrains the type, validates without error. *)
Theorem validateSchema_absent_or_null (d s props : Obj) :
  lookup "required" s = None ->
  lookup "properties" s = Some (VObj props) ->
  (forall k ps, In (k, ps) props ->
                (lookup k d = None /\ not_inherited k)
                \/ (lookup k d = Some VNull /\ only_type ps)) ->
  validateSchema (VObj d) (VObj s) = Returned [].
Proof.
  intros Hr Hp H. unfold validateSchema. cbn [validate property].
  rewrite (lookup_none_get _ "required"), (lookup_get _ _ _ Hp);
    [| simpl; auto | exact Hr].
  cbn [and_then truthy andb Object_entries].
  rewrite validate_entries_absent_or_null; [reflexivity |].
  intros k ps Hin. apply H. now apply (proj1 (ordered_In _ _)).
Qed.

Lemma validate_entries_null
  (self : Value -> Value -> string -> Outcome (list SchemaError))
  (obj : Value) (path : string) (k : string) (v : Value)
  (entries : list (string * Value)) :
  In (k, VNull) entries -> property obj k = Returned v -> v <> VUndefined ->
  validate_entries self obj path entries = TypeError.
Proof.
  intros Hin Hk Hv. induction entries as [| [key ps] rest IH];
    [destruct Hin |].
  destruct Hin as [[= -> ->] | Hin].
  - now rewrite (validate_entries_step _ _ _ _ _ _ _ Hk Hv).
  - specialize (IH Hin).
    destruct (property obj key) as [value |] eqn:Hp;
      [| now rewrite (validate_entries_throws _ _ _ _ _ _ Hp)].
    destruct (Value_is_undefined value) as [-> | Hvalue];
      [now rewrite (validate_entries_skip _ _ _ _ _ _ Hp) |].
    rewrite (validate_entries_step _ _ _ _ _ _ _ Hp Hvalue), IH.
    destruct (property ps "type"); [| reflexivity]. cbn [and_then].
    destruct (property ps "enum"); [| reflexivity]. cbn [and_then].
    destruct (check_enum _ _ _); [| reflexivity]. cbn [and_then].
    destruct (property ps "properties"); [| reflexivity]. cbn [and_then].
    match goal with
    | |- and_then ?c _ = _ => destruct c; reflexivity
    end.
Qed.

(** X21. A property schema that is [null] makes the validation raise a
    [TypeError] as soon as the document has that property, wherever the
    property stands among the properties of the schema. *)
Theorem validateSchema_null_property_schema (d s props : Obj) (k : string)
  (v : Value) :
  lookup "required" s = None ->
  lookup "properties" s = Some (VObj props) ->
  In (k, VNull) props ->
  lookup k d = Some v -> v <> VUndefined ->
  validateSchema (VObj d) (VObj s) = TypeError.
Proof.
  intros Hr Hp Hin Hk Hv. unfold validateSchema. cbn [validate property].
  rewrite (lookup_none_get _ "required"), (lookup_get _ _ _ Hp);
    [| simpl; auto | exact Hr].
  cbn [and_then truthy andb Object_entries].
  rewrite (validate_entries_null _ _ _ k v); try assumption;
    [reflexivity | now apply ordered_In |].
  cbn [property]. now rewrite (lookup_get _ _ _ Hk).
Qed.

End ValidationProperties.

(* ================================================================= *)
(** ** The YAML reader *)

Lemma split_on_nonempty (sep : ascii) (s : string) : split_on sep s <> [].
Proof.
  destruct s as [| c s]; cbn [split_on]; [discriminate |].
  destruct (Ascii.eqb c sep); [discriminate |].
  destruct (split_on sep s); discriminate.
Qed.

Lemma split_on_append (sep : ascii) (a b : string) :
  split_on sep (a ++ String sep b) = (split_on sep a ++ split_on sep b)%list.
Proof.
  induction a as [| c a IH]; cbn [append split_on].
  - now rewrite Ascii.eqb_refl.
  - destruct (Ascii.eqb c sep); [now rewrite IH |].
    rewrite IH. pose proof (split_on_nonempty sep a) as Hne.
    destruct (split_on sep a); [congruence | reflexivity].
Qed.

Lemma includes_char (c : ascii) (s : string) :
  includes s (String c EmptyString) = false <->
  ~ In c (list_ascii_of_string s).
Proof.
  induction s as [| d s IH]; cbn [includes list_ascii_of_string In].
  - simpl. tauto.
  - rewrite prefix_cons. destruct (Ascii.eqb c d) eqn:E.
    + apply Ascii.eqb_eq in E. subst d.
      split; [destruct s; discriminate | intros H; exfalso; apply H; now left].
    + cbn [andb]. apply Ascii.eqb_neq in E. rewrite IH. split.
      * intros H [Hd | Hin]; [congruence | tauto].
      * intros H Hin. apply H. now right.
Qed.

Lemma chars_append (a b : string) :
  list_ascii_of_string (a ++ b)
  = (list_ascii_of_string a ++ list_ascii_of_string b)%list.
Proof.
  induction a as [| c a IH]; [reflexivity |].
  cbn [append list_ascii_of_string app]. now rewrite IH.
Qed.

(** What is left once the white space at the head is gone is the end of
    the text. *)
Lemma strip_spaces_suffix (two : ascii -> ascii -> bool)
  (three : ascii -> ascii -> ascii -> bool) (n : nat) :
  forall s, String.length s <= n ->
            exists pre, s = pre ++ strip_spaces two three s.
Proof.
  induction n as [| n IH]; intros s Hs.
  - destruct s; [now exists EmptyString | simpl in Hs; lia].
  - destruct s as [| a rest]; [now exists EmptyString |].
    cbn [strip_spaces]. simpl in Hs. destruct (is_space a).
    + destruct (IH rest) as [pre E]; [lia |].
      exists (String a pre). cbn [append]. f_equal. exact E.
    + destruct rest as [| b rest2]; [now exists EmptyString |].
      simpl in Hs. destruct (two a b).
      * destruct (IH rest2) as [pre E]; [lia |].
        exists (String a (String b pre)). cbn [append]. do 2 f_equal. exact E.
      * destruct rest2 as [| c rest3]; [now exists EmptyString |].
        simpl in Hs. destruct (three a b c); [| now exists EmptyString].
        destruct (IH rest3) as [pre E]; [lia |].
        exists (String a (String b (String c pre))). cbn [append].
        do 3 f_equal. exact E.
Qed.

Lemma strip_spaces_length (two : ascii -> ascii -> bool)
  (three : ascii -> ascii -> ascii -> bool) (s : string) :
  String.length (strip_spaces two three s) <= String.length s.
Proof.
  destruct (strip_spaces_suffix two three _ s (le_n _)) as [pre E].
  rewrite E at 2. rewrite string_length_append. lia.
Qed.

Lemma strip_spaces_chars (two : ascii -> ascii -> bool)
  (three : ascii -> ascii -> ascii -> bool) (c : ascii) (s : string) :
  In c (list_ascii_of_string (strip_spaces two three s)) ->
  In c (list_ascii_of_string s).
Proof.
  destruct (strip_spaces_suffix two three _ s (le_n _)) as [pre E].
  intros H. rewrite E, chars_append. apply in_or_app. now right.
Qed.

(** A text that loses nothing starts with no white space, of one, two or
    three code units. *)
Lemma strip_spaces_fixed (two : ascii -> ascii -> bool)
  (three : ascii -> ascii -> ascii -> bool) (s : string) :
  String.length s <= String.length (strip_spaces two three s) ->
  strip_spaces two three s = s
  /\ match s with
     | EmptyString => True
     | String a rest =>
         is_space a = false
         /\ match rest with
            | EmptyString => True
            | String b rest2 =>
                two a b = false
                /\ match rest2 with
                   | EmptyString => True
                   | String c _ => three a b c = false
                   end
            end
     end.
Proof.
  destruct s as [| a rest]; [auto |]. cbn [strip_spaces].
  destruct (is_space a).
  { pose proof (strip_spaces_length two three rest). simpl. lia. }
  destruct rest as [| b rest2]; [auto |].
  destruct (two a b).
  { pose proof (strip_spaces_length two three rest2). simpl. lia. }
  destruct rest2 as [| c rest3]; [auto |].
  destruct (three a b c); [| auto].
  pose proof (strip_spaces_length two three rest3). simpl. lia.
Qed.

(** A text that loses nothing still loses nothing when it is continued
    with a code unit [x] that ends no white space of two or three code
    units. *)
Lemma strip_spaces_append (two : ascii -> ascii -> bool)
  (three : ascii -> ascii -> ascii -> bool) (s t : string) (x : ascii) :
  (forall a, two a x = false) ->
  (forall a c, three a x c = false) ->
  (forall a b, three a b x = false) ->
  s <> EmptyString -> strip_spaces two three s = s ->
  strip_spaces two three (s ++ String x t) = s ++ String x t.
Proof.
  intros H2 H3 H3' Hs E.
  assert (L : String.length s <= String.length (strip_spaces two three s))
    by (rewrite E; lia).
  destruct (strip_spaces_fixed two three s L) as [_ F]. clear L E.
  destruct s as [| a rest]; [congruence |]. destruct F as [Fa F].
  cbn [append strip_spaces]. rewrite Fa.
  destruct rest as [| b rest2]; cbn [append].
  - rewrite H2. destruct t; [reflexivity |]. now rewrite H3.
  - destruct F as [Fb F]. rewrite Fb.
    destruct rest2 as [| c rest3]; cbn [append].
    + now rewrite H3'.
    + now rewrite F.
Qed.

Lemma is_space2_colon (a : ascii) : is_space2 a ":" = false.
Proof. unfold is_space2. apply andb_false_r. Qed.

Lemma is_space3_colon (a c : ascii) : is_space3 a ":" c = false.
Proof.
  unfold is_space3. cbv zeta.
  change (nat_of_ascii ":") with 58. cbn [Nat.eqb].
  now rewrite !andb_false_r.
Qed.

Lemma is_space3_colon_last (a b : ascii) : is_space3 a b ":" = false.
Proof.
  unfold is_space3. cbv zeta.
  change (nat_of_ascii ":") with 58. cbn [Nat.eqb Nat.leb].
  now rewrite !andb_false_r.
Qed.

Lemma is_space2_blank (a : ascii) : is_space2 " " a = false.
Proof. reflexivity. Qed.

Lemma is_space3_blank (a c : ascii) : is_space3 c " " a = false.
Proof.
  unfold is_space3. cbv zeta.
  change (nat_of_ascii " ") with 32. cbn [Nat.eqb].
  now rewrite !andb_false_r.
Qed.

Lemma is_space3_blank_first (a b : ascii) : is_space3 " " b a = false.
Proof. reflexivity. Qed.

Lemma string_rev_acc_chars (c : ascii) (s acc : string) :
  In c (list_ascii_of_string (string_rev_acc s acc)) <->
  In c (list_ascii_of_string s) \/ In c (list_ascii_of_string acc).
Proof.
  revert acc. induction s as [| d s IH]; intros acc; cbn [string_rev_acc].
  - simpl. tauto.
  - rewrite IH. simpl. tauto.
Qed.

Lemma string_rev_chars (c : ascii) (s : string) :
  In c (list_ascii_of_string (string_rev s)) <->
  In c (list_ascii_of_string s).
Proof. unfold string_rev. rewrite string_rev_acc_chars. simpl. tauto. Qed.

Lemma trim_chars (c : ascii) (s : string) :
  In c (list_ascii_of_string (trim s)) -> In c (list_ascii_of_string s).
Proof.
  unfold trim, trimEnd, trimStart. intros H.
  apply (proj1 (string_rev_chars _ _)) in H.
  apply strip_spaces_chars in H. apply (proj1 (string_rev_chars _ _)) in H.
  now apply strip_spaces_chars in H.
Qed.

Lemma split_at_colon_none (s : string) :
  ~ In ":"%char (list_ascii_of_string s) -> split_at_colon s = None.
Proof.
  induction s as [| d s IH]; cbn [split_at_colon list_ascii_of_string In];
    [reflexivity |].
  intros H. destruct (Ascii.eqb d ":") eqn:E.
  - apply Ascii.eqb_eq in E. exfalso. apply H. left. now rewrite E.
  - rewrite IH; [reflexivity | tauto].
Qed.

Section YamlProperties.

Context {N : JSNumber} {P : Platform}.

(** The loop of [parseYAML] leaves its state as it is on a line that is
    blank, that is a comment, or that holds no colon. *)
Lemma yaml_line_skips (st : Obj * list Frame) (line : string) :
  trim line = EmptyString \/ startsWith (trim line) "#" = true
  \/ includes line ":" = false ->
  yaml_line st line = st.
Proof.
  intros H. unfold yaml_line. destruct st as [result stack].
  destruct H as [-> | [-> | H]]; [reflexivity | now rewrite orb_true_r |].
  destruct (String.eqb (trim line) EmptyString || startsWith (trim line) "#");
    [reflexivity |].
  unfold match_key_value. rewrite split_at_colon_none; [reflexivity |].
  intros Hin. apply trim_chars in Hin. now apply includes_char in H.
Qed.

(** X22. [parseYAML] passes over a line that is blank, that is a comment,
    or that holds no colon (an item of a sequence, for one): the document is
    the one read without that line, wherever the line stands. *)
Theorem parseYAML_skips_line (before line after : string) :
  includes line (String (ascii_of_nat 10) EmptyString) = false ->
  trim line = EmptyString \/ startsWith (trim line) "#" = true
  \/ includes line ":" = false ->
  parseYAML (line ++ String (ascii_of_nat 10) after) = parseYAML after
  /\ parseYAML (before ++ String (ascii_of_nat 10)
                  (line ++ String (ascii_of_nat 10) after))
     = parseYAML (before ++ String (ascii_of_nat 10) after)
  /\ parseYAML (before ++ String (ascii_of_nat 10) line) = parseYAML before.
Proof.
  intros Hline Hskip. unfold parseYAML.
  destruct (split_on_first _ line after Hline) as [H1 H2].
  repeat split.
  - rewrite H2. cbn [fold_left]. now rewrite yaml_line_skips.
  - rewrite !split_on_append, H1, !fold_left_app. cbn [fold_left].
    now rewrite yaml_line_skips.
  - rewrite split_on_append, H1, fold_left_app. cbn [fold_left].
    now rewrite yaml_line_skips.
Qed.

Lemma set_prop_values (Q : Value -> Prop) (key : string) (v : Value)
  (obj : Obj) :
  Q v -> Forall (fun kv => Q (snd kv)) obj ->
  Forall (fun kv => Q (snd kv)) (set_prop key v obj).
Proof.
  intros Hv. induction obj as [| [k x] rest IH]; intros H; cbn [set_prop].
  - repeat constructor. exact Hv.
  - inversion H as [| ? ? Hx Hrest]; subst.
    destruct (String.eqb k key); constructor; auto.
Qed.

Lemma lookup_values (Q : Value -> Prop) (key : string) (obj : Obj)
  (v : Value) :
  Forall (fun kv => Q (snd kv)) obj -> lookup key obj = Some v -> Q v.
Proof.
  induction obj as [| [k x] rest IH]; intros H; cbn [lookup];
    [discriminate |].
  inversion H as [| ? ? Hx Hrest]; subst.
  destruct (String.eqb k key); [intros [= <-]; exact Hx | auto].
Qed.

Lemma set_at_values (route : list string) (key : string) (v : Value) :
  yaml_value v ->
  forall root : Obj,
    Forall (fun kv => yaml_value (snd kv)) root ->
    Forall (fun kv => yaml_value (snd kv)) (set_at route key v root).
Proof.
  intros Hv. induction route as [| k ks IH]; intros root H; cbn [set_at].
  - destruct (String.eqb key "__proto__"); [exact H |].
    now apply set_prop_values.
  - destruct (lookup k root) as [[| | | | | | inner |] |] eqn:E; try exact H.
    apply set_prop_values; [| exact H]. constructor. apply IH.
    pose proof (lookup_values _ _ _ _ H E) as Hi. now inversion Hi.
Qed.

Lemma parse_scalar_value (value : string) : yaml_value (parse_scalar value).
Proof.
  unfold parse_scalar.
  repeat match goal with
         | |- yaml_value (if ?b then _ else _) => destruct b
         end; constructor.
Qed.

Lemma yaml_line_values (st : Obj * list Frame) (line : string) :
  Forall (fun kv => yaml_value (snd kv)) (fst st) ->
  Forall (fun kv => yaml_value (snd kv)) (fst (yaml_line st line)).
Proof.
  destruct st as [result stack]. unfold yaml_line. intros H.
  destruct (String.eqb (trim line) EmptyString || startsWith (trim line) "#");
    [exact H |].
  destruct (match_key_value (trim line)) as [[key value] |]; [| exact H].
  destruct (negb (String.eqb value EmptyString)); cbn [fst];
    apply set_at_values; auto using parse_scalar_value.
  constructor. constructor.
Qed.

(** X23. Whatever the text, [parseYAML] builds a mapping whose values are
    booleans, numbers, strings and mappings of such values: it never gives
    [null], and never a sequence. *)
Theorem parseYAML_values (content : string) :
  yaml_value (VObj (parseYAML content)).
Proof.
  constructor. unfold parseYAML.
  assert (G : forall lines st,
             Forall (fun kv => yaml_value (snd kv)) (fst st) ->
             Forall (fun kv => yaml_value (snd kv))
               (fst (fold_left yaml_line lines st))).
  { induction lines as [| l lines IH]; intros st H; cbn [fold_left];
      [exact H |].
    apply IH. now apply yaml_line_values. }
  apply G. constructor.
Qed.

Lemma lookup_set_prop (key : string) (v : Value) (obj : Obj) :
  lookup key (set_prop key v obj) = Some v.
Proof.
  induction obj as [| [k x] rest IH]; cbn [set_prop lookup].
  - now rewrite String.eqb_refl.
  - destruct (String.eqb k key) eqn:E; cbn [lookup]; rewrite E; auto.
Qed.

Lemma pop_to_root (indent : Z) (frames : list Frame) (root : Frame) :
  exists frames',
    pop_to indent (frames ++ [root]) = (frames' ++ [root])%list
    /\ incl frames' frames.
Proof.
  induction frames as [| f frames IH].
  - exists []. split; [reflexivity | apply incl_refl].
  - cbn [app pop_to].
    destruct (frames ++ [root])%list as [| g below] eqn:E;
      [destruct frames; discriminate |].
    destruct (snd f >=? indent)%Z.
    + destruct IH as (frames' & -> & Hincl). exists frames'.
      split; [reflexivity | now apply incl_tl].
    + exists (f :: frames). rewrite <- E. split; [reflexivity | apply incl_refl].
Qed.

Lemma pop_to_zero (frames : list Frame) (root : Frame) :
  Forall (fun f => (0 <= snd f)%Z) frames ->
  pop_to 0 (frames ++ [root]) = [root].
Proof.
  induction frames as [| f frames IH]; intros H; [reflexivity |].
  inversion H as [| ? ? Hf Hrest]; subst. cbn [app pop_to].
  destruct (frames ++ [root])%list as [| g below] eqn:E;
    [destruct frames; discriminate |].
  replace (snd f >=? 0)%Z with true by (symmetry; apply Z.geb_le; lia).
  auto.
Qed.

Lemma after_space_negative (i : Z) :
  (after_space i < 0)%Z -> (i < 0)%Z.
Proof.
  unfold after_space. destruct (i <? 0)%Z eqn:E; [| lia].
  intros _. now apply Z.ltb_lt.
Qed.

Lemma search_non_space_blank_bounded (n : nat) :
  forall line,
    String.length line <= n ->
    (search_non_space line < 0)%Z -> trimStart line = EmptyString.
Proof.
  unfold trimStart.
  induction n as [| n IH]; intros line Hn.
  - destruct line; [reflexivity | simpl in Hn; lia].
  - destruct line as [| a rest]; [reflexivity |].
    cbn [search_non_space strip_spaces]. simpl in Hn.
    destruct (is_space a).
    { intros H. apply after_space_negative in H. apply IH; [lia | exact H]. }
    destruct rest as [| b rest2]; [lia |]. simpl in Hn.
    destruct (is_space2 a b).
    { intros H. apply after_space_negative in H. apply IH; [lia | exact H]. }
    destruct rest2 as [| c rest3]; [lia |]. simpl in Hn.
    destruct (is_space3 a b c); [| lia].
    intros H. apply after_space_negative in H. apply IH; [lia | exact H].
Qed.

Lemma search_non_space_blank (line : string) :
  (search_non_space line < 0)%Z -> trimStart line = EmptyString.
Proof. apply (search_non_space_blank_bounded _ line (le_n _)). Qed.

Lemma trim_blank (line : string) :
  trimStart line = EmptyString -> trim line = EmptyString.
Proof. unfold trim. now intros ->. Qed.

(** The stack of [parseYAML] always ends with the entry of [result], and
    the other entries have an indentation of zero or more. *)
Lemma yaml_line_stack (result : Obj) (frames : list Frame) (line : string) :
  Forall (fun f => (0 <= snd f)%Z) frames ->
  exists frames',
    snd (yaml_line (result, (frames ++ [([], (-1)%Z)])%list) line)
    = (frames' ++ [([], (-1)%Z)])%list
    /\ Forall (fun f => (0 <= snd f)%Z) frames'.
Proof.
  intros H. unfold yaml_line.
  destruct (String.eqb (trim line) EmptyString || startsWith (trim line) "#")
    eqn:Eskip; [now exists frames |].
  destruct (match_key_value (trim line)) as [[key value] |];
    [| now exists frames].
  cbv zeta.
  destruct (pop_to_root (search_non_space line) frames ([], (-1)%Z))
    as (frames' & E & Hincl).
  unfold Frame in *. rewrite E.
  assert (H' : Forall (fun f => (0 <= snd f)%Z) frames').
  { rewrite Forall_forall in *. auto. }
  destruct (negb (String.eqb value EmptyString)); cbn [snd].
  - now exists frames'.
  - eexists (_ :: frames'). split; [reflexivity |]. constructor; [| exact H'].
    cbn [snd]. destruct (Z.lt_ge_cases (search_non_space line) 0) as [Hlt | Hge];
      [| exact Hge].
    apply search_non_space_blank, trim_blank in Hlt. rewrite Hlt in Eskip.
    discriminate.
Qed.

Lemma fold_yaml_line_stack (lines : list string) :
  forall (result : Obj) (frames : list Frame),
    Forall (fun f => (0 <= snd f)%Z) frames ->
    exists frames',
      snd (fold_left yaml_line lines
             (result, (frames ++ [([], (-1)%Z)])%list))
      = (frames' ++ [([], (-1)%Z)])%list
      /\ Forall (fun f => (0 <= snd f)%Z) frames'.
Proof.
  induction lines as [| l lines IH]; intros result frames H; cbn [fold_left].
  - now exists frames.
  - destruct (yaml_line_stack result frames l H) as (frames' & E & H').
    destruct (yaml_line (result, (frames ++ [([], (-1)%Z)])%list) l)
      as [result' stack'].
    cbn [snd] in E. subst stack'. now apply IH.
Qed.

Lemma string_rev_acc_append (s acc : string) :
  string_rev_acc s acc = string_rev s ++ acc.
Proof.
  unfold string_rev. revert acc.
  induction s as [| c s IH]; intros acc; cbn [string_rev_acc];
    [reflexivity |].
  rewrite (IH (String c acc)), (IH (String c EmptyString)).
  now rewrite string_append_assoc.
Qed.

Lemma string_rev_cons (c : ascii) (s : string) :
  string_rev (String c s) = string_rev s ++ String c EmptyString.
Proof. unfold string_rev at 1. cbn [string_rev_acc]. apply string_rev_acc_append. Qed.

Lemma string_rev_append (a b : string) :
  string_rev (a ++ b) = string_rev b ++ string_rev a.
Proof.
  induction a as [| c a IH]; cbn [append].
  - unfold string_rev at 3. cbn [string_rev_acc].
    now rewrite string_append_empty.
  - now rewrite !string_rev_cons, IH, string_append_assoc.
Qed.

Lemma string_rev_involutive (s : string) : string_rev (string_rev s) = s.
Proof.
  induction s as [| c s IH]; [reflexivity |].
  rewrite string_rev_cons, string_rev_append, IH. reflexivity.
Qed.

Lemma string_rev_length (s : string) :
  String.length (string_rev s) = String.length s.
Proof.
  induction s as [| c s IH]; [reflexivity |].
  rewrite string_rev_cons, string_length_append, IH. simpl. lia.
Qed.

(** A trimmed text loses nothing at either end. *)
Lemma trim_fixed (s : string) :
  trim s = s -> trimStart s = s /\ trimEnd s = s.
Proof.
  intros H. assert (L : String.length s <= String.length (trimStart s)).
  { rewrite <- H at 1. unfold trim, trimEnd.
    rewrite string_rev_length.
    etransitivity; [apply strip_spaces_length |].
    now rewrite string_rev_length. }
  assert (E : trimStart s = s) by (apply strip_spaces_fixed; exact L).
  split; [exact E |]. unfold trim in H. now rewrite E in H.
Qed.

Lemma string_rev_empty (s : string) :
  string_rev s = EmptyString -> s = EmptyString.
Proof.
  intros H. rewrite <- (string_rev_involutive s), H. reflexivity.
Qed.

(** A text that [trimStart] leaves alone is left alone with a colon and
    more after it; one that [trimEnd] leaves alone, with more and a space
    before it. *)
Lemma trimStart_append (a b : string) :
  a <> EmptyString -> trimStart a = a ->
  trimStart (a ++ String ":" b) = a ++ String ":" b.
Proof.
  intros Ha H. unfold trimStart in *.
  apply strip_spaces_append; auto using is_space2_colon, is_space3_colon,
    is_space3_colon_last.
Qed.

Lemma trimEnd_append (a b : string) :
  b <> EmptyString -> trimEnd b = b ->
  trimEnd (a ++ String " " b) = a ++ String " " b.
Proof.
  intros Hb H. unfold trimEnd in *.
  assert (E : strip_spaces (fun x y => is_space2 y x)
                (fun x y z => is_space3 z y x) (string_rev b)
              = string_rev b).
  { rewrite <- H at 2. now rewrite string_rev_involutive. }
  change (a ++ String " " b) with (a ++ (String " " EmptyString ++ b)).
  rewrite <- string_append_assoc, string_rev_append.
  rewrite string_rev_append.
  change (string_rev (String " " EmptyString)) with (String " " EmptyString).
  change (String " " EmptyString ++ string_rev a)
    with (String " " (string_rev a)).
  rewrite strip_spaces_append; auto using is_space2_blank, is_space3_blank,
    is_space3_blank_first.
  - change (String " " (string_rev a))
      with (string_rev (String " " EmptyString) ++ string_rev a).
    rewrite <- (string_rev_append a (String " " EmptyString)).
    rewrite <- string_rev_append. apply string_rev_involutive.
  - intros Hr. apply Hb. now apply string_rev_empty.
Qed.

Lemma search_non_space_append (a b : string) :
  a <> EmptyString -> trimStart a = a ->
  search_non_space (a ++ String ":" b) = 0%Z.
Proof.
  intros Ha E. unfold trimStart in E.
  assert (L : String.length a
              <= String.length (strip_spaces is_space2 is_space3 a))
    by (rewrite E; lia).
  destruct (strip_spaces_fixed _ _ a L) as [_ F]. clear L E.
  destruct a as [| x rest]; [congruence |]. destruct F as [Fx F].
  cbn [append search_non_space]. rewrite Fx.
  destruct rest as [| y rest2]; cbn [append].
  - rewrite is_space2_colon. destruct b; [reflexivity |].
    now rewrite is_space3_colon.
  - destruct F as [Fy F]. rewrite Fy.
    destruct rest2 as [| z rest3]; cbn [append].
    + now rewrite is_space3_colon_last.
    + now rewrite F.
Qed.

Lemma split_at_colon_first (key rest : string) :
  includes key ":" = false ->
  split_at_colon (key ++ String ":" rest) = Some (key, rest).
Proof.
  induction key as [| c key IH]; intros H; cbn [append split_at_colon].
  - reflexivity.
  - cbn [includes] in H. rewrite prefix_cons in H.
    destruct (Ascii.eqb c ":") eqn:E.
    + apply Ascii.eqb_eq in E. subst c. destruct key; discriminate.
    + rewrite Ascii.eqb_sym, E in H. cbn [andb] in H. now rewrite (IH H).
Qed.

(** X24. A line [key: value] without indentation at the end of the text
    sets the property [key] of the document to the coerced scalar, whatever
    the text before it says of that key.  The key and the value are
    trimmed, of all the white space of the language, and not empty; the key
    holds no colon and does not start a comment, and neither holds a line
    terminator; the key is not [__proto__], under which an assignment makes
    no property. *)
Theorem parseYAML_last_line (before key value : string) :
  key <> EmptyString -> key <> "__proto__" -> trim key = key ->
  startsWith key "#" = false ->
  includes key ":" = false -> has_line_terminator key = false ->
  value <> EmptyString -> trim value = value ->
  has_line_terminator value = false ->
  lookup key
    (parseYAML (before ++ String (ascii_of_nat 10) (key ++ ": " ++ value)))
  = Some (parse_scalar value).
Proof.
  intros Hk Hproto Tk Hhash Ck Lk Hv Tv Lv.
  destruct (trim_fixed _ Tk) as [Sk _].
  destruct (trim_fixed _ Tv) as [Sv Ev].
  set (line := key ++ ": " ++ value).
  assert (Hline : trim line = line).
  { unfold trim. replace (trimStart line) with line.
    - subst line.
      change (key ++ ": " ++ value) with (key ++ (":" ++ String " " value)).
      rewrite <- string_append_assoc. now apply trimEnd_append.
    - subst line. symmetry. now apply trimStart_append. }
  assert (Hindent : search_non_space line = 0%Z).
  { subst line. now apply search_non_space_append. }
  assert (Hnl : includes line (String (ascii_of_nat 10) EmptyString) = false).
  { unfold has_line_terminator in Lk, Lv.
    apply orb_false_elim in Lk. destruct Lk as [Lk _].
    apply orb_false_elim in Lk. destruct Lk as [Lk _].
    apply orb_false_elim in Lk. destruct Lk as [Lk _].
    apply orb_false_elim in Lv. destruct Lv as [Lv' _].
    apply orb_false_elim in Lv'. destruct Lv' as [Lv' _].
    apply orb_false_elim in Lv'. destruct Lv' as [Lv' _].
    apply includes_char. apply includes_char in Lk, Lv'. subst line.
    rewrite !chars_append. intros Hin.
    apply in_app_or in Hin. destruct Hin as [Hin | Hin]; [tauto |].
    apply in_app_or in Hin. destruct Hin as [Hin | Hin]; [| tauto].
    simpl in Hin. destruct Hin as [Hin | [Hin | []]]; discriminate. }
  assert (Hmatch : match_key_value line = Some (key, value)).
  { unfold match_key_value. subst line. cbn [append].
    rewrite (split_at_colon_first _ _ Ck).
    replace (trimStart (String " " value)) with value
      by (unfold trimStart in *; cbn [strip_spaces];
          change (is_space " ") with true; cbv iota; now rewrite Sv).
    rewrite Lv, orb_false_r.
    destruct (String.eqb key EmptyString) eqn:E;
      [apply String.eqb_eq in E; congruence | reflexivity]. }
  unfold parseYAML.
  destruct (split_on_first (ascii_of_nat 10) line EmptyString Hnl) as [Hs _].
  fold line. rewrite split_on_append, Hs, fold_left_app. cbn [fold_left].
  destruct (fold_yaml_line_stack (split_on (ascii_of_nat 10) before) [] []
              (Forall_nil _)) as (frames & Hstack & Hframes).
  cbn [app] in Hstack.
  match goal with
  | |- context [yaml_line ?st line] =>
      generalize (Hstack : snd st = _); destruct st as [result stack]
  end.
  cbn [snd]. intros ->. unfold yaml_line.
  rewrite Hline, Hmatch, Hindent, (pop_to_zero _ _ Hframes).
  replace (String.eqb line EmptyString || startsWith line "#") with false.
  - rewrite Tk. replace (String.eqb value EmptyString) with false
      by (symmetry; now apply String.eqb_neq).
    cbn [negb fst set_at].
    replace (String.eqb key "__proto__") with false
      by (symmetry; now apply String.eqb_neq).
    apply lookup_set_prop.
  - symmetry. subst line. destruct key as [| c r]; [congruence |].
    cbn [append]. unfold startsWith.
    cbn [String.eqb orb]. unfold startsWith in Hhash.
    rewrite prefix_cons in *.
    destruct (Ascii.eqb "#" c); [| reflexivity].
    cbn [andb] in Hhash. destruct r; discriminate.
Qed.

End YamlProperties.

(* ================================================================= *)
(** * The history analyzer on paths that are no inherited names *)

Section CountingLemmas.

Lemma count_in_tally (q p : string) (table : list (string * nat)) :
  count_in p (tally q table)
  = if String.eqb q p then S (count_in p table) else count_in p table.
Proof.
  induction table as [| [k c] rest IH]; simpl.
  - destruct (String.eqb q p); reflexivity.
  - destruct (String.eqb k q) eqn:Ekq; simpl.
    + apply String.eqb_eq in Ekq. subst k.
      destruct (String.eqb q p); reflexivity.
    + destruct (String.eqb k p) eqn:Ekp; [| exact IH].
      apply String.eqb_eq in Ekp. subst k.
      now rewrite (String.eqb_sym q p), Ekq.
Qed.

Lemma tally_keys (q : string) (table : list (string * nat)) :
  map fst (tally q table)
  = if mem_string q (map fst table) then map fst table
    else (map fst table ++ [q])%list.
Proof.
  induction table as [| [k c] rest IH]; [reflexivity |].
  cbn [tally map fst]. rewrite mem_string_cons, (String.eqb_sym q k).
  destruct (String.eqb k q) eqn:E; cbn [map fst orb]; [reflexivity |].
  rewrite IH. destruct (mem_string q (map fst rest)); reflexivity.
Qed.

Lemma tally_NoDup (q : string) (table : list (string * nat)) :
  NoDup (map fst table) -> NoDup (map fst (tally q table)).
Proof.
  intros H. rewrite tally_keys.
  destruct (mem_string q (map fst table)) eqn:E; [assumption |].
  apply NoDup_app; [assumption | repeat constructor; simpl; tauto |].
  intros x Hx [<- | []].
  apply mem_string_In in Hx. congruence.
Qed.

Lemma tally_positive (q : string) (table : list (string * nat)) :
  Forall (fun e => 0 < snd e) table ->
  Forall (fun e => 0 < snd e) (tally q table).
Proof.
  induction table as [| [k c] rest IH]; simpl; intros H.
  - repeat constructor.
  - inversion H; subst. destruct (String.eqb k q); constructor; simpl in *;
      auto; lia.
Qed.

(** In a table without repeated keys, an entry is the count of its key. *)
Lemma In_count_in (p : string) (c : nat) (table : list (string * nat)) :
  NoDup (map fst table) -> In (p, c) table -> count_in p table = c.
Proof.
  induction table as [| [k c0] rest IH]; simpl; [tauto |].
  intros Hnd [[= -> ->] | Hin].
  - now rewrite String.eqb_refl.
  - inversion Hnd; subst. destruct (String.eqb k p) eqn:E.
    + apply String.eqb_eq in E. subst k. exfalso. apply H1.
      change p with (fst (p, c)). now apply in_map.
    + auto.
Qed.

Lemma count_in_In (p : string) (table : list (string * nat)) :
  0 < count_in p table -> In (p, count_in p table) table.
Proof.
  induction table as [| [k c0] rest IH]; simpl; [lia |].
  destruct (String.eqb k p) eqn:E.
  - apply String.eqb_eq in E. subst k. auto.
  - auto.
Qed.

Lemma tally_fold (paths : list string) :
  forall table : list (string * nat),
    NoDup (map fst table) -> Forall (fun e => 0 < snd e) table ->
    let final := fold_left (fun t p => tally p t) paths table in
    NoDup (map fst final) /\ Forall (fun e => 0 < snd e) final
    /\ forall p, count_in p final
                 = count_in p table + count_occ string_dec paths p.
Proof.
  induction paths as [| q rest IH]; intros table Hnd Hpos; simpl.
  - repeat split; auto.
  - destruct (IH (tally q table)) as (H1 & H2 & H3);
      [now apply tally_NoDup | now apply tally_positive |].
    repeat split; [assumption | assumption |].
    intros p. rewrite H3, count_in_tally.
    destruct (string_dec q p) as [-> | Hne].
    + rewrite String.eqb_refl. lia.
    + apply String.eqb_neq in Hne. rewrite Hne. lia.
Qed.

(** The table holds, once each, the paths that occur, with how often. *)
Lemma tally_all_spec (paths : list string) :
  NoDup (map fst (tally_all paths))
  /\ Forall (fun e => 0 < snd e) (tally_all paths)
  /\ forall p c, In (p, c) (tally_all paths)
                 <-> c = count_occ string_dec paths p /\ 0 < c.
Proof.
  unfold tally_all.
  destruct (tally_fold paths []) as (Hnd & Hpos & Hc);
    [constructor | constructor |].
  cbv zeta in *. split; [assumption |]. split; [assumption |].
  intros p c. split.
  - intros Hin. rewrite Forall_forall in Hpos. specialize (Hpos _ Hin).
    apply In_count_in in Hin; [| assumption].
    rewrite Hc in Hin. simpl in *. split; lia.
  - intros [-> Hp]. rewrite <- (Nat.add_0_l (count_occ _ _ _)).
    change 0 with (count_in p []) at 1. rewrite <- Hc.
    apply count_in_In. rewrite Hc. simpl. exact Hp.
Qed.

Lemma StronglySorted_app {A : Type} (R : A -> A -> Prop) (l1 l2 : list A) :
  StronglySorted R (l1 ++ l2) ->
  StronglySorted R l1 /\ forall a b, In a l1 -> In b l2 -> R a b.
Proof.
  induction l1 as [| x l1 IH]; simpl; intros H.
  - split; [constructor | tauto].
  - inversion H as [| ? ? Hs Hall]; subst. destruct (IH Hs) as [S1 S2].
    rewrite Forall_forall in Hall. split.
    + constructor; [assumption |]. apply Forall_forall. intros y Hy.
      apply Hall, in_or_app. now left.
    + intros a b [<- | Ha] Hb; [apply Hall, in_or_app; now right | auto].
Qed.

Lemma NoDup_keys_filter (f : string * nat -> bool) (l : list (string * nat)) :
  NoDup (map fst l) -> NoDup (map fst (filter f l)).
Proof.
  induction l as [| e rest IH]; cbn [filter map]; intros H; [constructor |].
  inversion H as [| ? ? Hout Hrest]; subst.
  destruct (f e); cbn [map]; [| auto].
  constructor; [| auto]. intros Hk. apply Hout.
  apply in_map_iff in Hk. destruct Hk as (e' & <- & He).
  apply filter_In in He. apply in_map. tauto.
Qed.

Lemma In_firstn {A : Type} (n : nat) (l : list A) (x : A) :
  In x (firstn n l) -> In x l.
Proof.
  intros H. rewrite <- (firstn_skipn n l). apply in_or_app. now left.
Qed.

Lemma NoDup_firstn {A : Type} (n : nat) (l : list A) :
  NoDup l -> NoDup (firstn n l).
Proof.
  intros H. rewrite <- (firstn_skipn n l) in H.
  now apply NoDup_app_remove_r in H.
Qed.

(** The order of the language does not look at the values. *)
Lemma insert_by_index_map {A B : Type} (f : A -> B) (i : N) (e : A)
  (l : list (N * A)) :
  insert_by_index i (f e) (map (fun x => (fst x, f (snd x))) l)
  = map (fun x => (fst x, f (snd x))) (insert_by_index i e l).
Proof.
  induction l as [| [j x] rest IH]; [reflexivity |].
  cbn [map insert_by_index fst snd]. destruct (i <? j)%N; [reflexivity |].
  cbn [map fst snd]. now rewrite IH.
Qed.

Lemma ordered_map {A B : Type} (f : A -> B) (l : list (string * A)) :
  ordered (map (fun e => (fst e, f (snd e))) l)
  = map (fun e => (fst e, f (snd e))) (ordered l).
Proof.
  unfold ordered. rewrite map_app. f_equal.
  - assert (E : index_entries (map (fun e => (fst e, f (snd e))) l)
                = map (fun x => (fst x, (fst (snd x), f (snd (snd x)))))
                    (index_entries l)).
    { induction l as [| [k x] rest IH]; [reflexivity |].
      cbn [map index_entries fst snd].
      destruct (array_index k) as [i |]; [| exact IH].
      rewrite IH.
      exact (insert_by_index_map (fun e => (fst e, f (snd e))) i (k, x) _). }
    rewrite E, !map_map. reflexivity.
  - induction l as [| [k x] rest IH]; [reflexivity |].
    cbn [map filter fst snd].
    destruct (negb (is_some (array_index k))); cbn [map fst snd];
      now rewrite IH.
Qed.

End CountingLemmas.

Section HistoryOnNode.

#[local] Existing Instance IntNumber_JSNumber.
#[local] Existing Instance Node_Platform.

Lemma not_inherited_proto (p : string) :
  not_inherited p -> String.eqb p "__proto__" = false.
Proof.
  intros H. apply String.eqb_neq. intros ->. discriminate H.
Qed.

Lemma get_counted (p : string) (table : list (string * nat)) :
  not_inherited p ->
  get (VObj (map Examples.counted table)) p
  = match lookup p (map Examples.counted table) with
    | Some x => x
    | None => VUndefined
    end.
Proof.
  intros H. cbn [get own_property].
  destruct (lookup p (map Examples.counted table)); [reflexivity |].
  unfold inherited_by. cbn [kind_of]. unfold not_inherited in H.
  now rewrite H.
Qed.

Lemma lookup_counted (p : string) (table : list (string * nat)) :
  Forall (fun e => 0 < snd e) table ->
  lookup p (map Examples.counted table)
  = match count_in p table with
    | O => None
    | S c => Some (Examples.num (Z.of_nat (S c)))
    end.
Proof.
  induction table as [| [k c] rest IH]; intros H; [reflexivity |].
  inversion H as [| ? ? Hc Hrest]; subst. cbn [snd] in Hc.
  cbn [map Examples.counted fst snd lookup count_in].
  destruct (String.eqb k p); [| auto].
  destruct c; [lia | reflexivity].
Qed.

Lemma set_prop_counted (p : string) (table : list (string * nat)) :
  set_prop p (Examples.num (Z.of_nat (S (count_in p table))))
    (map Examples.counted table)
  = map Examples.counted (tally p table).
Proof.
  induction table as [| [k c] rest IH]; [reflexivity |].
  cbn [map Examples.counted fst snd set_prop count_in tally].
  destruct (String.eqb k p); [reflexivity |].
  cbn [map Examples.counted fst snd]. now rewrite IH.
Qed.

Lemma plus_one (c : nat) :
  plus (Examples.num (Z.of_nat c)) (VNum num_one)
  = Examples.num (Z.of_nat (S c)).
Proof.
  unfold plus, Examples.num. cbn. f_equal. f_equal. lia.
Qed.

(** On a path that is no inherited name, [pathCounts] counts. *)
Lemma bump_counted (p : string) (table : list (string * nat)) :
  not_inherited p -> Forall (fun e => 0 < snd e) table ->
  bump p (map Examples.counted table) = map Examples.counted (tally p table).
Proof.
  intros Hp Hpos. unfold bump. cbv zeta.
  rewrite (not_inherited_proto _ Hp). cbn [andb].
  rewrite (get_counted _ _ Hp), (lookup_counted _ _ Hpos).
  rewrite <- set_prop_counted. f_equal.
  destruct (count_in p table) as [| c].
  - reflexivity.
  - replace (truthy (Examples.num (Z.of_nat (S c)))) with true.
    + apply plus_one.
    + unfold Examples.num. cbn [truthy isNaN IntNumber_JSNumber
        IntNumber.is_nan orb SameValueZero_number Node_Platform
        Node.SameValueZero_number num_zero].
      symmetry. apply negb_true_iff, Z.eqb_neq. lia.
Qed.

Lemma count_paths_counted (changes : list Change) :
  (forall c, In c changes -> not_inherited (change_path c)) ->
  count_paths changes
  = map Examples.counted (tally_all (map change_path changes)).
Proof.
  intros H. unfold count_paths, tally_all.
  assert (G : forall table : list (string * nat),
             Forall (fun e => 0 < snd e) table ->
             fold_left (fun pathCounts change =>
                          bump (change_path change) pathCounts)
               changes (map Examples.counted table)
             = map Examples.counted
                 (fold_left (fun t p => tally p t)
                    (map change_path changes) table)).
  { induction changes as [| c rest IH]; intros table Hpos; [reflexivity |].
    cbn [fold_left map].
    rewrite bump_counted;
      [| apply H; now left | exact Hpos].
    apply IH; [intros c' Hc'; apply H; now right |].
    now apply tally_positive. }
  exact (G [] (Forall_nil _)).
Qed.

Lemma at_least_3_counted (e : string * nat) :
  at_least_3 (snd (Examples.counted e)) = (3 <=? snd e)%nat.
Proof.
  unfold at_least_3, Examples.counted, Examples.num. cbn [snd ToNumber].
  change (number_of_nat 3) with (IntNumber.IInt 3).
  cbn [isNaN num_lt IntNumber_JSNumber IntNumber.is_nan IntNumber.lt negb
         andb].
  destruct (Z.ltb_spec (Z.of_nat (snd e)) 3), (Nat.leb_spec 3 (snd e));
    (reflexivity || lia).
Qed.

Lemma filter_counted (l : list (string * nat)) :
  filter (fun e => at_least_3 (snd e)) (map Examples.counted l)
  = map Examples.counted (filter (fun e => (3 <=? snd e)%nat) l).
Proof.
  induction l as [| e rest IH]; [reflexivity |].
  cbn [map filter]. rewrite at_least_3_counted.
  destruct (3 <=? snd e)%nat; cbn [map]; now rewrite IH.
Qed.

Lemma insert_by_count_counted (x : string * nat) (l : list (string * nat)) :
  exists l',
    insert_by_count (Examples.counted x) (map Examples.counted l)
    = map Examples.counted l'
    /\ Permutation l' (x :: l)
    /\ (StronglySorted by_count_desc l -> StronglySorted by_count_desc l').
Proof.
  induction l as [| y rest IH].
  - exists [x]. repeat split; auto. intros _. repeat constructor.
  - cbn [map insert_by_count].
    assert (E : num_lt (ToNumber (snd (Examples.counted x)))
                  (ToNumber (snd (Examples.counted y)))
                = (snd x <? snd y)%nat).
    { unfold Examples.counted, Examples.num. cbn [snd ToNumber].
      cbn [num_lt IntNumber_JSNumber IntNumber.lt].
      destruct (Z.ltb_spec (Z.of_nat (snd x)) (Z.of_nat (snd y))),
        (Nat.ltb_spec (snd x) (snd y)); (reflexivity || lia). }
    rewrite E. destruct (snd x <? snd y)%nat eqn:Lt.
    + destruct IH as (l2 & E2 & P2 & S2). exists (y :: l2).
      rewrite E2. split; [reflexivity |]. split.
      * rewrite P2. apply perm_swap.
      * intros Hs. inversion Hs as [| ? ? Hrest Hall]; subst.
        constructor; [auto |]. apply Nat.ltb_lt in Lt.
        apply Forall_forall. intros z Hz.
        apply (Permutation_in _ P2) in Hz.
        destruct Hz as [<- | Hz]; [unfold by_count_desc; lia |].
        rewrite Forall_forall in Hall. auto.
    + exists (x :: y :: rest). split; [reflexivity |].
      split; [reflexivity |]. intros Hs.
      inversion Hs as [| ? ? Hrest Hall]; subst. apply Nat.ltb_ge in Lt.
      constructor; [assumption |]. constructor; [exact Lt |].
      rewrite Forall_forall in Hall |- *. intros z Hz.
      specialize (Hall z Hz). unfold by_count_desc in *. lia.
Qed.

Lemma sort_by_count_counted (l : list (string * nat)) :
  exists l',
    sort_by_count (map Examples.counted l) = map Examples.counted l'
    /\ Permutation l' l /\ StronglySorted by_count_desc l'.
Proof.
  induction l as [| x rest IH].
  - exists []. repeat split; auto. constructor.
  - destruct IH as (l1 & E1 & P1 & S1). cbn [map sort_by_count].
    rewrite E1.
    destruct (insert_by_count_counted x l1) as (l2 & E2 & P2 & S2).
    exists l2. split; [exact E2 |]. split; [| auto].
    rewrite P2. now constructor.
Qed.

Lemma format_entry_counted (e : string * nat) :
  format_entry (Examples.counted e) = Examples.printed e.
Proof. reflexivity. Qed.

(** What the analyzer does when no path of the history is a name that a
    plain object inherits.  With three entries or more it reports the
    entries [reported]: paths that occur three times or more among the
    changes of all entries, each once with its number of occurrences, by
    descending count, five at most, and a frequent path is left out only
    when five paths that occur at least as often are reported. *)
Lemma analyzeHistory_own_names (history : list HistoryEntry) :
  (forall c, In c (flat_map changes_of history) ->
             not_inherited (change_path c)) ->
  3 <= List.length history ->
  exists reported : list (string * nat),
    analyzeHistory history
    = match reported with
      | [] => []
      | _ => [mkInsight "frequent_changes" (map Examples.printed reported)]
      end
    /\ (forall p c, In (p, c) reported ->
                    c = occurrences p history /\ 3 <= c)
    /\ NoDup (map fst reported)
    /\ StronglySorted by_count_desc reported
    /\ List.length reported <= 5
    /\ (forall p, 3 <= occurrences p history ->
                  In (p, occurrences p history) reported
                  \/ (List.length reported = 5
                      /\ forall e, In e reported ->
                                   occurrences p history <= snd e)).
Proof.
  intros Hown Hlen.
  set (paths := map change_path (flat_map changes_of history)).
  destruct (tally_all_spec paths) as (Hnd & _ & Hin).
  destruct (sort_by_count_counted
              (filter (fun e => (3 <=? snd e)%nat) (ordered (tally_all paths))))
    as (frequent & Es & HP & Hs).
  assert (Hfreq : forall p c, In (p, c) frequent
                              <-> c = occurrences p history /\ 3 <= c).
  { intros p c. unfold occurrences. fold paths. split.
    - intros H. apply (Permutation_in _ HP) in H. apply filter_In in H.
      destruct H as [H1 H2]. apply (proj1 (ordered_In _ _)) in H1.
      apply Hin in H1. cbn [snd] in H2. apply Nat.leb_le in H2. tauto.
    - intros [-> Hc]. apply (Permutation_in _ (Permutation_sym HP)).
      apply filter_In. split.
      + apply ordered_In. apply Hin. split; [reflexivity | lia].
      + cbn [snd]. now apply Nat.leb_le. }
  assert (Hndf : NoDup (map fst frequent)).
  { apply (Permutation_NoDup (Permutation_sym (Permutation_map fst HP))).
    apply NoDup_keys_filter.
    apply (Permutation_NoDup
             (Permutation_sym (Permutation_map fst (ordered_perm _)))).
    exact Hnd. }
  assert (Erun : fst (frequentlyChanged_run history)
                 = map Examples.counted frequent).
  { unfold frequentlyChanged_run, Array_flatMap, Array_filter,
      Array_sort_by_count. cbn [fst].
    rewrite (count_paths_counted _ Hown). fold paths.
    unfold Examples.counted at 1.
    rewrite (ordered_map (fun c => Examples.num (Z.of_nat c))).
    fold Examples.counted.
    change (map (fun e => (fst e, Examples.num (Z.of_nat (snd e)))))
      with (map Examples.counted).
    now rewrite filter_counted, Es. }
  exists (firstn 5 frequent).
  rewrite <- (firstn_skipn 5 frequent) in Hs.
  apply StronglySorted_app in Hs. destruct Hs as [Hs1 Hs2].
  split; [| split; [| split; [| split; [| split]]]].
  - unfold analyzeHistory, analyzeHistory_run.
    apply Nat.ltb_ge in Hlen. rewrite Hlen.
    destruct (frequentlyChanged_run history) as [sorted h] eqn:Er.
    cbn [fst] in Erun. subst sorted. rewrite length_map.
    destruct (0 <? List.length frequent)%nat eqn:E.
    + cbn [Array_slice Array_map fst]. rewrite Nat.sub_0_r. cbn [skipn].
      rewrite firstn_map, map_map.
      destruct frequent as [| e rest]; [discriminate E | reflexivity].
    + destruct frequent as [| e rest]; [reflexivity | discriminate E].
  - intros p c Hpc. apply Hfreq. eapply In_firstn. exact Hpc.
  - rewrite <- firstn_map. now apply NoDup_firstn.
  - assumption.
  - apply firstn_le_length.
  - intros p Hp.
    assert (Hf : In (p, occurrences p history) frequent)
      by (apply Hfreq; auto).
    rewrite <- (firstn_skipn 5 frequent) in Hf.
    apply in_app_or in Hf. destruct Hf as [Hf | Hf]; [now left |].
    right. split.
    + rewrite length_firstn. apply Nat.min_l.
      destruct (Nat.le_gt_cases 5 (List.length frequent)) as [L | L];
        [assumption |].
      rewrite skipn_all2 in Hf by lia. destruct Hf.
    + intros e He. exact (Hs2 e _ He Hf).
Qed.

End HistoryOnNode.

(* ================================================================= *)
(** * The properties on concrete documents *)

#[local] Existing Instance IntNumber_JSNumber.
#[local] Existing Instance Node_Platform.

(** C1, where the code departs from it. [{enabled: true}] against
    [{enabled: "false"}]: the last key matches [/^(enabled?|active)$/i] and
    the activity rule writes its recommendation, yet the record comes out
    High, not Critical, because the type rule that follows overwrites the
    level. *)
Theorem activity_flag_type_change_reported_high :
  test ACTIVITY_PATTERN (last_segment "enabled") = true
  /\ diff (VObj [("enabled", VBool true)]) (VObj [("enabled", VStr "false")])
     = Returned [Modified "enabled" (VBool true) (VStr "false")]
  /\ map (fun i => (level i, recommendation i))
       (analyzeImpactLocal
          [Modified "enabled" (VBool true) (VStr "false")])
     = [(high, "Критическое изменение. Проверьте влияние!")].
Proof. repeat split. Qed.

(** C2, where the code departs from it. [{secret: "x"}] against
    [{secret: 5}]: the baseline tier of [secret] is Critical, the two values
    have different run-time types, and the record comes out High: the type
    rule has lowered the level. *)
Theorem secret_type_change_reported_high :
  l_level (baseline (last_segment "secret")) = critical
  /\ typeof (VStr "x") <> typeof (Examples.num 5)
  /\ map level
       (analyzeImpactLocal [Modified "secret" (VStr "x") (Examples.num 5)])
     = [high].
Proof. repeat split. discriminate. Qed.

(** C3 fails as stated. [app.conf] holds [port: 8080]: under the name
    [app.yaml] the same text loads as [{port: 8080}], but [app.conf] is
    handed to [JSON.parse], which rejects it, and the loader throws. *)
Lemma other_extension_is_not_read_as_yaml :
  toLowerCase (extname "app.conf") = ".conf"
  /\ Examples.disk "app.conf" = Some (Content "port: 8080")
  /\ parseYAML "port: 8080" = [("port", Examples.num 8080)]
  /\ loadFile Examples.disk "app.yaml" = Ok (VObj (parseYAML "port: 8080"))
  /\ loadFile Examples.disk "app.conf"
     = Throw (Error "Неподдерживаемый формат: .conf")
  /\ loadFile Examples.disk "app.conf" <> Ok (VObj (parseYAML "port: 8080")).
Proof. repeat split. discriminate. Qed.

(** The loader on [app.conf], by the theorem of C3. *)
Lemma loadFile_other_extension_witness :
  loadFile Examples.disk "app.conf"
  = Throw (Error "Неподдерживаемый формат: .conf").
Proof.
  apply (loadFile_other_extension Examples.disk "app.conf" "port: 8080");
    [reflexivity | | |]; vm_compute; discriminate.
Defined.

(** C4 fails as stated. The sequences [[{a: true, b: false}]] and
    [[{b: false, a: true}]] are deeply equal, yet the differ reports the key
    that holds them as Modified: it compares their serialisations, in which
    the keys come in a different order. *)
Lemma modified_yet_deeply_equal :
  diff (VObj Examples.keys_ab) (VObj Examples.keys_ba)
  = Returned
      [Modified "x"
         (VArr [VObj [("a", VBool true); ("b", VBool false)]])
         (VArr [VObj [("b", VBool false); ("a", VBool true)]])]
  /\ deep_equal
       (VArr [VObj [("a", VBool true); ("b", VBool false)]])
       (VArr [VObj [("b", VBool false); ("a", VBool true)]]).
Proof.
  split; [reflexivity |].
  constructor. constructor; [| constructor].
  constructor. intros k. cbn [lookup].
  destruct (String.eqb "a" k) eqn:Ea, (String.eqb "b" k) eqn:Eb;
    try (repeat constructor).
  apply String.eqb_eq in Ea, Eb. congruence.
Qed.

(** The Modified record of [db.host], by the theorem of C4. *)
Lemma modified_values_differ_witness :
  diff (VObj Examples.config_v1) (VObj Examples.config_v2)
  = Returned
      [Modified "db.host" (VStr "a") (VStr "b");
       Added "db.port" (Examples.num 5432); Added "b" (Examples.num 2)]
  /\ JSON_stringify (VStr "a") <> JSON_stringify (VStr "b")
  /\ VStr "a" <> VStr "b".
Proof.
  split; [reflexivity |].
  apply (modified_values_differ (VObj Examples.config_v1)
           (VObj Examples.config_v2)
           [Modified "db.host" (VStr "a") (VStr "b");
            Added "db.port" (Examples.num 5432); Added "b" (Examples.num 2)]
           "db.host" (VStr "a") (VStr "b")).
  - reflexivity.
  - left. reflexivity.
Defined.

(** C5, where the code departs from it.  The empty mapping against the
    text ["abc"]: [diff({}, "abc")] reports the three positions of the text
    as Added, and [diff("abc", {})] reports nothing as Removed: it throws a
    [TypeError], since [in] refuses a text on its right. *)
Theorem diff_of_text_not_symmetric :
  diff (VObj []) (VStr "abc")
  = Returned [Added "0" (VStr "a"); Added "1" (VStr "b");
              Added "2" (VStr "c")]
  /\ diff (VStr "abc") (VObj []) = TypeError.
Proof. split; reflexivity. Qed.

(** C7, where the code departs from it.  [{timeout: "30"}] against
    [{timeout: 10}]: both values convert to numbers and 10 is less than 30,
    the timeout rule writes its description and its recommendation, and
    the type rule that follows overwrites the description: the record is
    High, keeps the recommendation of the timeout rule, and its description
    names neither number.  The first entry point, which has no type rule,
    keeps the description of the timeout. *)
Theorem timeout_type_change_description_lost :
  test TIMEOUT_PATTERN (last_segment "timeout") = true
  /\ isNaN (ToNumber (VStr "30")) = false
  /\ isNaN (ToNumber (Examples.num 10)) = false
  /\ num_lt (ToNumber (Examples.num 10)) (ToNumber (VStr "30")) = true
  /\ diff (VObj [("timeout", VStr "30")])
       (VObj [("timeout", Examples.num 10)])
     = Returned [Modified "timeout" (VStr "30") (Examples.num 10)]
  /\ map (fun i => (level i, description i, recommendation i))
       (analyzeImpactLocal
          [Modified "timeout" (VStr "30") (Examples.num 10)])
     = [(high, "Изменён тип данных с string на number",
         "Убедитесь, что новое значение достаточно.")]
  /\ includes "Изменён тип данных с string на number" "30" = false
  /\ includes "Изменён тип данных с string на number" "10" = false
  /\ map (fun i => (V1.level i, V1.description i))
       (V1.analyzeImpactLocal
          [Modified "timeout" (VStr "30") (Examples.num 10)])
     = [(high, "Таймаут уменьшен с 30 до 10. Возможны ошибки по таймауту.")].
Proof. repeat split. Qed.

(** [{timeout: 30}] against [{timeout: 10}], by the lemma on the timeout
    rule. *)
Example timeout_of_one_type :
  exists i,
    analyze_change (Modified "timeout" (Examples.num 30) (Examples.num 10))
    = Some i
    /\ level i = high
    /\ (typeof (Examples.num 30) = typeof (Examples.num 10) ->
        description i = "Таймаут уменьшен с 30 до 10.").
Proof.
  exact (proj1
           (timeout_rule_effect "timeout" (Examples.num 30) (Examples.num 10)
              eq_refl)
           eq_refl eq_refl eq_refl).
Qed.

(** C9, where the code departs from it.  Three runs in each of which the
    keys [toString] and [port] changed: both paths occur three times, and
    the analyzer reports [port] alone.  [pathCounts] is a plain object and
    inherits [toString], so the first count of that path is the inherited
    function plus one, a text, and no number of at least three. *)
Theorem analyzeHistory_misses_inherited_name :
  map (fun h => option_map (map change_path) (changes h))
    Examples.runs_of_toString
  = [Some ["toString"; "port"]; Some ["port"; "toString"];
     Some ["toString"; "port"]]
  /\ occurrences "toString" Examples.runs_of_toString = 3
  /\ occurrences "port" Examples.runs_of_toString = 3
  /\ count_paths (flat_map changes_of Examples.runs_of_toString)
     = [("toString", VStr "function toString() { [native code] }111");
        ("port", Examples.num 3)]
  /\ analyzeHistory Examples.runs_of_toString
     = [mkInsight "frequent_changes" ["port (3x)"]].
Proof. repeat split. Qed.

(** Scenario 1: [{a: 1}] against [{a: 1, b: 2}]. *)
Example scenario_added :
  diff (VObj [("a", Examples.num 1)])
    (VObj [("a", Examples.num 1); ("b", Examples.num 2)])
  = Returned [Added "b" (Examples.num 2)].
Proof. reflexivity. Qed.

(** Scenario 2: [{timeout: 30}] against [{timeout: 10}]. *)
Example scenario_timeout :
  diff (VObj [("timeout", Examples.num 30)])
    (VObj [("timeout", Examples.num 10)])
  = Returned [Modified "timeout" (Examples.num 30) (Examples.num 10)]
  /\ map (fun i => (level i, description i))
       (analyzeImpactLocal
          [Modified "timeout" (Examples.num 30) (Examples.num 10)])
     = [(high, "Таймаут уменьшен с 30 до 10.")].
Proof. split; reflexivity. Qed.

(** Scenario 3: [{enabled: true}] against [{enabled: false}]. *)
Example scenario_enabled :
  diff (VObj [("enabled", VBool true)]) (VObj [("enabled", VBool false)])
  = Returned [Modified "enabled" (VBool true) (VBool false)]
  /\ map level
       (analyzeImpactLocal [Modified "enabled" (VBool true) (VBool false)])
     = [critical].
Proof. split; reflexivity. Qed.

(** Scenario 4: [{db: {host: "a"}}] against [{db: {host: "b"}}]. *)
Example scenario_nested_host :
  diff (VObj [("db", VObj [("host", VStr "a")])])
    (VObj [("db", VObj [("host", VStr "b")])])
  = Returned [Modified "db.host" (VStr "a") (VStr "b")]
  /\ map level
       (analyzeImpactLocal [Modified "db.host" (VStr "a") (VStr "b")])
     = [high].
Proof. split; reflexivity. Qed.

(** Scenario 5: [{secret: "x"}] against [{}]. *)
Example scenario_removed_secret :
  diff (VObj [("secret", VStr "x")]) (VObj [])
  = Returned [Removed "secret" (VStr "x")]
  /\ map level (analyzeImpactLocal [Removed "secret" (VStr "x")])
     = [critical].
Proof. split; reflexivity. Qed.

(** Three runs in which [db.host] changed three times and [timeout] twice. *)
Example scenario_history :
  analyzeHistory Examples.three_runs
  = [mkInsight "frequent_changes" ["db.host (3x)"]]
  /\ analyzeHistory (firstn 2 Examples.three_runs) = [].
Proof. split; reflexivity. Qed.

(** A broken history file reads as the empty history. *)
Example scenario_broken_history :
  JSON_parse "[{oops" = Throw SyntaxError
  /\ loadHistory Examples.disk "history.json" = Ok (VArr [])
  /\ loadHistory Examples.disk "absent.json" = Ok (VArr [])
  /\ loadHistory Examples.disk "lost+found" = Ok (VArr []).
Proof. repeat split. Qed.

(** Documents that are no mappings: sequences are compared position by
    position; a number has no keys; a number other than zero on the left
    cannot be searched for a key. *)
Example scenario_roots :
  diff (VArr [Examples.num 1; Examples.num 2])
    (VArr [Examples.num 1; Examples.num 3])
  = Returned [Modified "1" (Examples.num 2) (Examples.num 3)]
  /\ diff (Examples.num 5) (Examples.num 7) = Returned []
  /\ diff (Examples.num 0) (VObj [("a", Examples.num 1)])
     = Returned [Added "a" (Examples.num 1)]
  /\ diff (Examples.num 5) (VObj [("a", Examples.num 1)]) = TypeError
  /\ diff VNull (VObj [("a", Examples.num 1)])
     = Returned [Added "a" (Examples.num 1)].
Proof. repeat split. Qed.

(** A key that every object inherits is in the empty mapping too: the
    differ reports [constructor] as Modified, not as Removed, and the new
    value is the inherited function. *)
Example scenario_inherited_key :
  diff (VObj [("constructor", Examples.num 1)]) (VObj [])
  = Returned
      [Modified "constructor" (Examples.num 1)
         (VBuiltin (Node.Function "Object" 1))]
  /\ diff (VObj []) (VObj [("constructor", Examples.num 1)])
     = Returned
         [Modified "constructor" (VBuiltin (Node.Function "Object" 1))
            (Examples.num 1)].
Proof. split; reflexivity. Qed.

(** The keys of a mapping come in the order of the language: the array
    indices first, in ascending order, then the other keys as written. *)
Example scenario_key_order :
  diff (VObj [("b", Examples.num 1); ("10", Examples.num 2);
              ("9", Examples.num 3)]) (VObj [])
  = Returned [Removed "9" (Examples.num 3); Removed "10" (Examples.num 2);
              Removed "b" (Examples.num 1)].
Proof. reflexivity. Qed.

(** ** The further properties on concrete inputs *)

(** The records of [config_v1] against [config_v2], by the theorem of
    X1. *)
Lemma diff_records_characterised_witness :
  In (Modified "db.host" (VStr "a") (VStr "b"))
    [Modified "db.host" (VStr "a") (VStr "b");
     Added "db.port" (Examples.num 5432); Added "b" (Examples.num 2)]
  <-> exists ks k a b,
        descend ks (VObj Examples.config_v1) (VObj Examples.config_v2)
        = Some (a, b)
        /\ change_path (Modified "db.host" (VStr "a") (VStr "b"))
           = path_of EmptyString (ks ++ [k])%list
        /\ record_at (Modified "db.host" (VStr "a") (VStr "b")) k a b.
Proof.
  apply (diff_records_characterised (VObj Examples.config_v1)
           (VObj Examples.config_v2)
           [Modified "db.host" (VStr "a") (VStr "b");
            Added "db.port" (Examples.num 5432); Added "b" (Examples.num 2)]
           (Modified "db.host" (VStr "a") (VStr "b"))).
  reflexivity.
Defined.

(** [config_v1] against the empty document, by the theorem of X2. *)
Lemma diff_against_empty_witness :
  diff (VObj Examples.config_v1) (VObj [])
  = Returned
      (map (fun kv => Removed (fst kv) (snd kv)) (ordered Examples.config_v1))
  /\ diff (VObj []) (VObj Examples.config_v1)
     = Returned
         (map (fun kv => Added (fst kv) (snd kv))
            (ordered Examples.config_v1)).
Proof.
  apply (diff_against_empty Examples.config_v1).
  - repeat constructor; simpl; intuition discriminate.
  - repeat constructor.
Defined.

(** A change of [ui.color], by the theorem of X6. *)
Lemma low_tier_change_unreported_witness :
  (forall v, analyze_change (Added "ui.color" v) = None)
  /\ (forall oldValue newValue,
        typeof oldValue = typeof newValue ->
        analyze_change (Modified "ui.color" oldValue newValue) = None).
Proof. apply (low_tier_change_unreported "ui.color"). reflexivity. Defined.


(** A third record saved to a history of two, by the theorem of X11. *)
Lemma saveToHistory_newest_first_witness :
  exists fs',
    saveToHistory Samples.pretty Samples.store "history.json" (Examples.num 3)
    = Saved fs'
    /\ fs' "history.json"
       = Some (Content
                 (Samples.pretty
                    (VArr (firstn 100
                             [Examples.num 3; Examples.num 1;
                              Examples.num 2]))))
    /\ (forall p, p <> "history.json" -> fs' p = Samples.store p)
    /\ List.length
         (firstn 100 [Examples.num 3; Examples.num 1; Examples.num 2])
       <= 100.
Proof.
  apply (saveToHistory_newest_first Samples.pretty Samples.store
           "history.json" "[1, 2]" (Examples.num 3)
           [Examples.num 1; Examples.num 2]); reflexivity.
Defined.

(** A record saved where there is no history yet, by the theorem of X12. *)
Lemma saveToHistory_starts_afresh_witness :
  exists fs',
    saveToHistory Samples.pretty Samples.store "none.json" (Examples.num 3)
    = Saved fs'
    /\ fs' "none.json"
       = Some (Content (Samples.pretty (VArr [Examples.num 3])))
    /\ (forall p, p <> "none.json" -> fs' p = Samples.store p).
Proof.
  apply (saveToHistory_starts_afresh Samples.pretty Samples.store "none.json"
           (Examples.num 3)).
  left. reflexivity.
Defined.

(** A record saved to a history file that holds an object, by the theorem
    of X13. *)
Lemma saveToHistory_needs_an_array_witness :
  saveToHistory Samples.pretty Samples.store "object.json" (Examples.num 3)
  = SaveTypeError.
Proof.
  apply (saveToHistory_needs_an_array Samples.pretty Samples.store
           "object.json" "{}" (Examples.num 3) (VObj [])); reflexivity.
Defined.

(** A first file name that itself starts with [--schema=], by the theorem
    of X14: it is the first file and gives the path of the schema, up to
    its second equals sign. *)
Lemma parseArgs_schema_value_witness :
  exists save,
    parseArgs ["--schema=s.json=x"; "b.json"]
    = Return (mkOptions "--schema=s.json=x" "b.json" (Some "s.json") save).
Proof.
  apply (parseArgs_schema_value "--schema=s.json=x" "b.json" "s.json" "=x"
           [] [] ["b.json"]).
  - reflexivity.
  - simpl. intuition discriminate.
  - constructor.
  - reflexivity.
  - right. reflexivity.
Defined.

(** Two files and a schema after them. *)
Example parseArgs_schema_after_files :
  parseArgs ["a.json"; "b.json"; "--schema=s.json"]
  = Return (mkOptions "a.json" "b.json" (Some "s.json") None).
Proof. reflexivity. Qed.

(** The four errors of [service] against [service_schema], by the theorem
    of X18. *)
Lemma validateSchema_severity_witness :
  validateSchema (VObj Samples.service) (VObj Samples.service_schema)
  = Returned
      [mkSchemaError (VStr "name") missing_required
         "Отсутствует обязательное поле: name" severity_error;
       mkSchemaError (VStr "mode") invalid_enum
         "Недопустимое значение. Разрешены: fast, safe" severity_warning;
       mkSchemaError (VStr "port") type_mismatch
         "Неверный тип: ожидается number, получено string" severity_error;
       mkSchemaError (VStr "db.host") type_mismatch
         "Неверный тип: ожидается string, получено number" severity_error]
  /\ Forall (fun e => err_severity e = severity_of_kind (err_type e))
       [mkSchemaError (VStr "name") missing_required
          "Отсутствует обязательное поле: name" severity_error;
        mkSchemaError (VStr "mode") invalid_enum
          "Недопустимое значение. Разрешены: fast, safe" severity_warning;
        mkSchemaError (VStr "port") type_mismatch
          "Неверный тип: ожидается number, получено string" severity_error;
        mkSchemaError (VStr "db.host") type_mismatch
          "Неверный тип: ожидается string, получено number" severity_error].
Proof.
  split; [reflexivity |].
  apply (validateSchema_severity (VObj Samples.service)
           (VObj Samples.service_schema)).
  reflexivity.
Defined.


(** [{mode: null}] against a schema for [mode] and a malformed schema for
    [extra], by the theorem of X20. *)
Lemma validateSchema_absent_or_null_witness :
  validateSchema (VObj [("mode", VNull)])
    (VObj [("properties",
            VObj [("mode", VObj [("type", VStr "string")]);
                  ("extra", VNull)])])
  = Returned [].
Proof.
  apply (validateSchema_absent_or_null [("mode", VNull)]
           [("properties",
             VObj [("mode", VObj [("type", VStr "string")]);
                   ("extra", VNull)])]
           [("mode", VObj [("type", VStr "string")]); ("extra", VNull)]);
    [reflexivity | reflexivity |].
  intros k ps [E | [E | []]]; injection E as <- <-.
  - right. split; [reflexivity |]. exists "string". reflexivity.
  - left. split; reflexivity.
Defined.

(** A property of the schema that the document inherits is checked: the
    type of the inherited [toString] is [function]. *)
Example validateSchema_inherited_property :
  validateSchema (VObj [("a", Examples.num 1)])
    (VObj [("properties",
            VObj [("toString", VObj [("type", VStr "string")])])])
  = Returned
      [mkSchemaError (VStr "toString") type_mismatch
         "Неверный тип: ожидается string, получено function" severity_error].
Proof. reflexivity. Qed.

(** [{mode: "x"}] against a schema whose entry for [mode], the second one,
    is [null], by the theorem of X21. *)
Lemma validateSchema_null_property_schema_witness :
  validateSchema (VObj [("mode", VStr "x")])
    (VObj [("properties",
            VObj [("port", VObj [("type", VStr "number")]);
                  ("mode", VNull)])])
  = TypeError.
Proof.
  apply (validateSchema_null_property_schema
           [("mode", VStr "x")]
           [("properties",
             VObj [("port", VObj [("type", VStr "number")]);
                   ("mode", VNull)])]
           [("port", VObj [("type", VStr "number")]); ("mode", VNull)]
           "mode" (VStr "x"));
    [reflexivity | reflexivity | right; left; reflexivity | reflexivity |].
  discriminate.
Defined.

(** A comment between two lines, before them and after them, by the theorem
    of X22. *)
Lemma parseYAML_skips_line_witness :
  parseYAML ("# note" ++ String (ascii_of_nat 10) "b: 2") = parseYAML "b: 2"
  /\ parseYAML ("a: 1" ++ String (ascii_of_nat 10)
                  ("# note" ++ String (ascii_of_nat 10) "b: 2"))
     = parseYAML ("a: 1" ++ String (ascii_of_nat 10) "b: 2")
  /\ parseYAML ("a: 1" ++ String (ascii_of_nat 10) "# note")
     = parseYAML "a: 1".
Proof.
  apply (parseYAML_skips_line "a: 1" "# note" "b: 2"); [reflexivity |].
  right. left. reflexivity.
Defined.

(** A second line for [port], by the theorem of X24. *)
Lemma parseYAML_last_line_witness :
  lookup "port"
    (parseYAML ("port: 1" ++ String (ascii_of_nat 10)
                  ("port" ++ ": " ++ "8080")))
  = Some (parse_scalar "8080")
  /\ parse_scalar "8080" = Examples.num 8080.
Proof.
  split; [| reflexivity].
  apply (parseYAML_last_line "port: 1" "port" "8080");
    (reflexivity || discriminate).
Defined.

(** A key that ends with a no-break space, U+00A0, is trimmed of it; a
    scalar under [__proto__] makes no property. *)
Example parseYAML_unicode_space :
  parseYAML ("a" ++ utf8 160 ++ ": 1") = [("a", Examples.num 1)]
  /\ trim ("a" ++ utf8 160) = "a"
  /\ parseYAML ("__proto__: 1" ++ String (ascii_of_nat 10) "b: 2")
     = [("b", Examples.num 2)].
Proof. repeat split. Qed.
